(** * DataExporter: strategies, registry and facade

    A shallow embedding of the export library (ExportStrategy and its JSON
    and CSV subclasses, ExportStrategyFactory, DataExporter) together with
    the properties its specification states about it.

    JavaScript values are embedded as a tree datatype; the language's
    coercions that the library relies on (truthiness, typeof, ToString,
    ToNumber, Array.prototype.join, property reads and writes, object
    spread, JSON.stringify and JSON.parse) are written out for that datatype.
    Thrown exceptions are results of type [result]; the clock and the file
    system are an explicit world that the facade threads through its calls.

    Scope of the model.  The values are those of the data model of the
    library: undefined, null, booleans, numbers, strings, Dates, arrays and
    plain records, as finite trees.  Numbers are integers and print in
    decimal, as the language prints integers below 10^21; a string is
    converted to a number when it is empty or an optionally signed run of
    decimal digits, and any other string counts as not a number; strings are
    sequences of 8-bit characters, and lower-casing acts on the ASCII
    letters.  A Date is a valid one, so its ISO form exists.  There are no
    BigInts, functions or symbols and no object contains itself, so that
    [JSON.stringify] does not throw on a value of the model; the branches of
    the library that catch its exceptions are not reached.  A property read
    sees the own properties of a record only, and a property write defines
    an own property; the statements that depend on a read or a write of a
    key that Object.prototype also has say so in a hypothesis.  Whatever is
    thrown is an Error object with a message. *)

From Stdlib Require Import ZArith String Ascii List Bool Lia.
From stdpp Require Import base option strings list gmap pretty.
Import ListNotations.

Set Warnings "-register-all".
Set Default Proof Using "Type".

Open Scope string_scope.
Open Scope list_scope.

(** ** JavaScript values *)

(** A Date object, seen through the three observations the library makes of
    it: [toISOString()], [toString()] and its numeric time value. *)
Record date := Date { toISOString : string; dateToString : string; getTime : Z }.

(** Numbers are the integer-valued ones, written in decimal by ToString;
    objects are plain records given as the list of their own enumerable
    properties in enumeration order; property reads consult own properties
    only. *)
Inductive value :=
| VUndefined
| VNull
| VBool (b : bool)
| VNum (n : Z)
| VStr (s : string)
| VDate (d : date)
| VArr (items : list value)
| VObj (fields : list (string * value)).

Definition fields_t := list (string * value).

(** Thrown values.  Every exception the library raises is an Error object;
    only its class and message are observed.  The library has two error
    classes of its own: DataExportError, thrown for invalid data, failed
    serialization and unknown formats, and FileSystemError, thrown for a
    failed write; the registration guard throws a plain Error, and the
    language itself throws TypeError. *)
Inductive error :=
| DataExportError (message : string)
| FileSystemError (message : string)
| PlainError (message : string)
| TypeError (message : string).

Definition message (e : error) : string :=
  match e with
  | DataExportError m | FileSystemError m | PlainError m | TypeError m => m
  end.

Inductive result (A : Type) :=
| Ok (a : A)
| Throw (e : error).
Arguments Ok {A} a.
Arguments Throw {A} e.

Definition rbind {A B} (r : result A) (k : A → result B) : result B :=
  match r with
  | Ok a => k a
  | Throw e => Throw e
  end.

Notation "x ←! r ; k" := (rbind r (λ x, k))
  (at level 20, r at level 100, k at level 200, right associativity,
   format "x  ←!  r ;  '/' k").

Fixpoint rmap {A B} (f : A → result B) (l : list A) : result (list B) :=
  match l with
  | [] => Ok []
  | a :: l' => b ←! f a; bs ←! rmap f l'; Ok (b :: bs)
  end.

Definition throws {A} (r : result A) : Prop := ∃ e, r = Throw e.

(** *** Coercions *)

Definition truthy (v : value) : bool :=
  match v with
  | VUndefined | VNull => false
  | VBool b => b
  | VNum n => negb (n =? 0)%Z
  | VStr s => negb (String.eqb s EmptyString)
  | VDate _ | VArr _ | VObj _ => true
  end.

Definition typeof (v : value) : string :=
  match v with
  | VUndefined => "undefined"
  | VBool _ => "boolean"
  | VNum _ => "number"
  | VStr _ => "string"
  | VNull | VDate _ | VArr _ | VObj _ => "object"
  end.

Definition isArray (v : value) : bool :=
  match v with VArr _ => true | _ => false end.

Definition number_to_string (n : Z) : string := pretty n.

(** [Array.prototype.join] over already converted elements. *)
Definition join (sep : string) (parts : list string) : string :=
  String.concat sep parts.

(** ToString.  An array converts to its elements joined by a comma, where
    null and undefined elements give the empty string. *)
Fixpoint to_string (v : value) : string :=
  match v with
  | VUndefined => "undefined"
  | VNull => "null"
  | VBool true => "true"
  | VBool false => "false"
  | VNum n => number_to_string n
  | VStr s => s
  | VDate d => dateToString d
  | VArr items =>
      join ","
        ((fix elems (l : list value) : list string :=
            match l with
            | [] => []
            | x :: l' =>
                match x with
                | VUndefined | VNull => EmptyString
                | _ => to_string x
                end :: elems l'
            end) items)
  | VObj _ => "[object Object]"
  end.

Definition join_element (v : value) : string :=
  match v with
  | VUndefined | VNull => EmptyString
  | _ => to_string v
  end.

(** The separator [values.join(separator)] puts between the elements: an
    undefined argument means a comma. *)
Definition join_separator (separator : value) : string :=
  match separator with VUndefined => "," | _ => to_string separator end.

(** [values.join(separator)]. *)
Definition array_join (separator : value) (values : list value) : string :=
  join (join_separator separator) (map join_element values).

(** [haystack.includes(needle)] on strings. *)
Fixpoint includes (haystack needle : string) : bool :=
  String.prefix needle haystack ||
  match haystack with
  | EmptyString => false
  | String _ rest => includes rest needle
  end.

(** The double-quote character, U+0022, and a string wrapped in a pair of
    them. *)
Definition dquote : ascii := Ascii false true false false false true false false.

Definition quoted (s : string) : string :=
  String dquote (s +:+ String dquote EmptyString).

(** [s.replace(/q/g, qq)] where q is the double-quote character: every
    occurrence is doubled. *)
Fixpoint double_quotes (s : string) : string :=
  match s with
  | EmptyString => EmptyString
  | String c rest =>
      if Ascii.eqb c dquote
      then String dquote (String dquote (double_quotes rest))
      else String c (double_quotes rest)
  end.

Fixpoint to_lower (s : string) : string :=
  match s with
  | EmptyString => EmptyString
  | String c rest =>
      let n := nat_of_ascii c in
      String (if (65 <=? n)%nat && (n <=? 90)%nat then ascii_of_nat (n + 32) else c)
             (to_lower rest)
  end.

Definition newline_char : ascii := Ascii false true false true false false false false.
Definition newline : string := String newline_char EmptyString.
Definition return_char : ascii := Ascii true false true true false false false false.

Definition is_digit (c : ascii) : bool :=
  let n := nat_of_ascii c in (48 <=? n)%nat && (n <=? 57)%nat.

Definition digit_value (c : ascii) : N := N.of_nat (nat_of_ascii c - 48).

(** The number a string of decimal digits denotes; [None] when the string is
    empty or holds another character. *)
Fixpoint digits_to_N_from (acc : N) (s : string) : option N :=
  match s with
  | EmptyString => Some acc
  | String c rest =>
      if is_digit c then digits_to_N_from (acc * 10 + digit_value c)%N rest else None
  end.

Definition digits_to_N (s : string) : option N :=
  match s with
  | EmptyString => None
  | _ => digits_to_N_from 0%N s
  end.

(** StringToNumber on the forms the model covers: the empty string is zero,
    an optionally signed run of decimal digits is that integer, anything else
    is NaN (here [None]). *)
Definition string_to_number (s : string) : option Z :=
  match s with
  | EmptyString => Some 0%Z
  | String "-"%char rest => n ← digits_to_N rest; Some (- Z.of_N n)%Z
  | String "+"%char rest => n ← digits_to_N rest; Some (Z.of_N n)
  | _ => n ← digits_to_N s; Some (Z.of_N n)
  end.

(** ToNumber; [None] stands for NaN. *)
Definition to_number (v : value) : option Z :=
  match v with
  | VUndefined => None
  | VNull => Some 0%Z
  | VBool b => Some (if b then 1 else 0)%Z
  | VNum n => Some n
  | VStr s => string_to_number s
  | VDate d => Some (getTime d)
  | VArr _ => string_to_number (to_string v)
  | VObj _ => None
  end.

(** [a >= b] for a number [a]: false when [b] converts to NaN. *)
Definition number_ge (a : Z) (b : value) : bool :=
  match to_number b with
  | Some n => (n <=? a)%Z
  | None => false
  end.

(** *** Objects: own properties in enumeration order *)

(** A property key is an array index when it is the canonical decimal form of
    an integer below 2^32 - 1; such keys are enumerated first, in ascending
    numeric order, and the other keys follow in insertion order. *)
Definition array_index (k : string) : option N :=
  match digits_to_N k with
  | Some n =>
      if String.eqb (pretty n) k && (n <=? 4294967294)%N then Some n else None
  | None => None
  end.

Fixpoint obj_get (k : string) (fields : fields_t) : option value :=
  match fields with
  | [] => None
  | (k', v) :: rest => if String.eqb k' k then Some v else obj_get k rest
  end.

Definition has_key (k : string) (fields : fields_t) : bool :=
  match obj_get k fields with Some _ => true | None => false end.

Fixpoint obj_replace (k : string) (v : value) (fields : fields_t) : fields_t :=
  match fields with
  | [] => []
  | (k', v') :: rest =>
      if String.eqb k' k then (k', v) :: rest else (k', v') :: obj_replace k v rest
  end.

(** Where a new array-index key goes: before the first key that is not an
    index or is a larger index. *)
Fixpoint obj_insert_index (n : N) (k : string) (v : value) (fields : fields_t) : fields_t :=
  match fields with
  | [] => [(k, v)]
  | (k', v') :: rest =>
      match array_index k' with
      | Some n' =>
          if (n' <? n)%N then (k', v') :: obj_insert_index n k v rest
          else (k, v) :: fields
      | None => (k, v) :: fields
      end
  end.

(** [obj[k] = v] as far as it defines or updates an own property, which it
    does under every key but __proto__. *)
Definition obj_set (k : string) (v : value) (fields : fields_t) : fields_t :=
  if has_key k fields then obj_replace k v fields
  else match array_index k with
       | Some n => obj_insert_index n k v fields
       | None => fields ++ [(k, v)]
       end.

(** [Object.assign(target, source)] for a source given by its own
    enumerable properties. *)
Definition assign_fields (target source : fields_t) : fields_t :=
  fold_left (λ acc kv, obj_set kv.1 kv.2 acc) source target.

Fixpoint indexed_from (i : N) (items : list value) : fields_t :=
  match items with
  | [] => []
  | x :: rest => (pretty i, x) :: indexed_from (i + 1)%N rest
  end.

Fixpoint chars_from (i : N) (s : string) : fields_t :=
  match s with
  | EmptyString => []
  | String c rest => (pretty i, VStr (String c EmptyString)) :: chars_from (i + 1)%N rest
  end.

(** The own enumerable string-keyed properties of a value, as
    [Object.entries], object spread and [Object.assign] see them.  A Date has
    none; a primitive other than a string has none. *)
Definition own_entries (v : value) : fields_t :=
  match v with
  | VObj fields => fields
  | VArr items => indexed_from 0%N items
  | VStr s => chars_from 0%N s
  | _ => []
  end.

Definition object_keys (v : value) : list string := map fst (own_entries v).

(** Object spread [{...a, ...b}] into a fresh object. *)
Definition spread (v : value) : fields_t := assign_fields [] (own_entries v).

Definition spread2 (a b : value) : fields_t :=
  assign_fields (assign_fields [] (own_entries a)) (own_entries b).

(** [obj[key]]: throws on null and undefined, reads an own property
    otherwise (the length of an array or string included).  What a record
    inherits from Object.prototype is not among its own properties. *)
Definition js_get (obj : value) (key : string) : result value :=
  match obj with
  | VUndefined | VNull =>
      Throw (TypeError ("Cannot read properties of " +:+ to_string obj
                        +:+ " (reading '" +:+ key +:+ "')"))
  | VArr items =>
      if String.eqb key "length" then Ok (VNum (Z.of_nat (length items)))
      else Ok (default VUndefined (obj_get key (own_entries obj)))
  | VStr s =>
      if String.eqb key "length" then Ok (VNum (Z.of_nat (String.length s)))
      else Ok (default VUndefined (obj_get key (own_entries obj)))
  | _ => Ok (default VUndefined (obj_get key (own_entries obj)))
  end.

(** [options.name] on a configuration object. *)
Definition opt (options : fields_t) (name : string) : value :=
  default VUndefined (obj_get name options).

(** ** JSON.stringify *)

Definition backslash : ascii := "\"%char.

Definition hex_digit (n : nat) : ascii :=
  ascii_of_nat (if (n <? 10)%nat then 48 + n else 87 + n).

(** QuoteJSONString, one character at a time. *)
Definition json_escape_char (c : ascii) : string :=
  let n := nat_of_ascii c in
  if Ascii.eqb c dquote then String backslash (String dquote EmptyString)
  else if Ascii.eqb c backslash then String backslash (String backslash EmptyString)
  else if (n =? 8)%nat then "\b"
  else if (n =? 9)%nat then "\t"
  else if (n =? 10)%nat then "\n"
  else if (n =? 12)%nat then "\f"
  else if (n =? 13)%nat then "\r"
  else if (n <? 32)%nat then "\u00" +:+ String (hex_digit (n / 16)) (String (hex_digit (n mod 16)) EmptyString)
  else String c EmptyString.

Fixpoint json_escape (s : string) : string :=
  match s with
  | EmptyString => EmptyString
  | String c rest => json_escape_char c +:+ json_escape rest
  end.

Definition json_quote (s : string) : string := quoted (json_escape s).

(** How SerializeJSONArray and SerializeJSONObject lay out their parts:
    compact when the gap is empty, one part per line otherwise. *)
Definition json_wrap (open close gap indent : string) (parts : list string) : string :=
  match parts with
  | [] => open +:+ close
  | _ =>
      if String.eqb gap EmptyString then open +:+ join "," parts +:+ close
      else open +:+ newline +:+ (indent +:+ gap)
             +:+ join ("," +:+ newline +:+ (indent +:+ gap)) parts
             +:+ newline +:+ indent +:+ close
  end.

Definition json_member (gap key text : string) : string :=
  json_quote key +:+ ":" +:+ (if String.eqb gap EmptyString then EmptyString else " ") +:+ text.

(** SerializeJSONProperty: [None] is the undefined result, which drops a
    property from an object and prints as null inside an array.  A Date
    serializes through its toJSON, the quoted ISO string. *)
Fixpoint serialize_json (gap indent : string) (v : value) : option string :=
  match v with
  | VUndefined => None
  | VNull => Some "null"
  | VBool true => Some "true"
  | VBool false => Some "false"
  | VNum n => Some (number_to_string n)
  | VStr s => Some (json_quote s)
  | VDate d => Some (json_quote (toISOString d))
  | VArr items =>
      Some (json_wrap "[" "]" gap indent
              ((fix elems (l : list value) : list string :=
                  match l with
                  | [] => []
                  | x :: l' =>
                      default "null" (serialize_json gap (indent +:+ gap) x) :: elems l'
                  end) items))
  | VObj fields =>
      Some (json_wrap "{" "}" gap indent
              ((fix members (l : fields_t) : list string :=
                  match l with
                  | [] => []
                  | (k, x) :: l' =>
                      match serialize_json gap (indent +:+ gap) x with
                      | Some text => json_member gap k text :: members l'
                      | None => members l'
                      end
                  end) fields))
  end.

(** [JSON.stringify(v)] and [JSON.stringify(v, null, 2)].  The values of the
    model are finite trees without BigInts, so neither call throws. *)
Definition JSON_stringify (v : value) : option string := serialize_json EmptyString EmptyString v.
Definition JSON_stringify_2 (v : value) : option string := serialize_json "  " EmptyString v.

(** A template literal interpolates undefined as the word. *)
Definition interpolate (o : option string) : string := default "undefined" o.

(** ** ExportStrategy: the shared validation *)

Module ExportStrategy.

(** [validate(data)]: rejects every falsy value. *)
Definition validate (data : value) : result unit :=
  if negb (truthy data)
  then Throw (DataExportError "Data cannot be null or undefined")
  else Ok tt.

Definition getDefaultOptions : fields_t :=
  [("outputPath", VNull); ("encoding", VStr "utf8")].

End ExportStrategy.

(** ** CsvExportStrategy *)

Module CsvExportStrategy.

Definition getDefaultOptions : fields_t :=
  assign_fields (assign_fields [] ExportStrategy.getDefaultOptions)
    [("delimiter", VStr ","); ("includeHeaders", VBool true);
     ("quoteStrings", VBool true); ("escapeQuotes", VBool true);
     ("dateFormat", VStr "iso"); ("nullValue", VStr EmptyString);
     ("flattenObjects", VBool true); ("maxDepth", VNum 3)].

(** The test [value && typeof value === "object" && !Array.isArray(value)]. *)
Definition is_nested_object (v : value) : bool :=
  truthy v && String.eqb (typeof v) "object" && negb (isArray v).

Definition new_key (prefix key : string) : string :=
  if truthy (VStr prefix) then prefix +:+ "." +:+ key else key.

(** [flattenObject(obj, prefix, maxDepth, currentDepth)].  The loop over
    [Object.entries(obj)] carries the object [flattened] under
    construction; a nested object is flattened by the recursive call and
    its result is merged in with [Object.assign]. *)
Fixpoint flattenObject (obj : value) (prefix : string) (maxDepth : value)
    (currentDepth : Z) : value :=
  match obj with
  | VObj fields =>
      if number_ge currentDepth maxDepth then obj
      else
        VObj ((fix loop (entries flattened : fields_t) : fields_t :=
                 match entries with
                 | [] => flattened
                 | (key, val) :: entries' =>
                     let newKey := new_key prefix key in
                     loop entries'
                       (if is_nested_object val
                        then assign_fields flattened
                               (own_entries (flattenObject val newKey maxDepth (currentDepth + 1)))
                        else obj_set newKey val flattened)
                 end) fields [])
  | VDate _ =>
      if number_ge currentDepth maxDepth then obj else VObj []
  | _ => obj
  end.

(** The loop of [flattenObject] on its own: what the remaining entries of
    an object at depth [currentDepth] add to [flattened]. *)
Definition flatten_entries (prefix : string) (maxDepth : value) (currentDepth : Z)
    : fields_t → fields_t → fields_t :=
  fix loop (entries flattened : fields_t) : fields_t :=
    match entries with
    | [] => flattened
    | (key, val) :: entries' =>
        let newKey := new_key prefix key in
        loop entries'
          (if is_nested_object val
           then assign_fields flattened
                  (own_entries (flattenObject val newKey maxDepth (currentDepth + 1)))
           else obj_set newKey val flattened)
    end.

(** A call that leaves [maxDepth] to its default parameter value when the
    argument is undefined. *)
Definition flattenObject_from (obj : value) (prefix : string) (maxDepth : value) : value :=
  flattenObject obj prefix (match maxDepth with VUndefined => VNum 3 | _ => maxDepth end) 0.

Definition transform (data : value) (options : fields_t) : value :=
  let records := match data with VArr items => items | _ => [data] end in
  if truthy (opt options "flattenObjects")
  then VArr (map (λ record, flattenObject_from record EmptyString (opt options "maxDepth")) records)
  else VArr records.

(** [allKeys.add(key)] on a Set kept in insertion order. *)
Definition set_add (key : string) (allKeys : list string) : list string :=
  if bool_decide (key ∈ allKeys) then allKeys else allKeys ++ [key].

(** The first [data.forEach]: the keys of every element that is a non-null
    object are added to the set. *)
Definition collect_keys (data : list value) : list string :=
  fold_left
    (λ allKeys obj,
       if truthy obj && String.eqb (typeof obj) "object"
       then fold_left (λ acc key, set_add key acc) (object_keys obj) allKeys
       else allKeys)
    data [].

(** [value === s] for a string literal [s]. *)
Definition strict_eq_string (v : value) (s : string) : bool :=
  match v with VStr s' => String.eqb s' s | _ => false end.

(** [formatCsvValue(value, options)].  The null branch returns
    [options.nullValue] as it is, so the result is a value.  On the values of
    the model neither [toISOString] nor [JSON.stringify] throws, so the
    function returns. *)
Definition formatCsvValue (val : value) (options : fields_t) : value :=
  match val with
  | VNull | VUndefined => opt options "nullValue"
  | VDate d =>
      VStr (if strict_eq_string (opt options "dateFormat") "iso"
            then toISOString d else dateToString d)
  | VArr items => VStr (quoted (array_join (VStr "; ") items))
  | VObj _ => VStr (quoted (interpolate (JSON_stringify val)))
  | _ =>
      let stringValue := to_string val in
      let stringValue :=
        if truthy (opt options "escapeQuotes")
           && includes stringValue (String dquote EmptyString)
        then double_quotes stringValue else stringValue in
      let stringValue :=
        if truthy (opt options "quoteStrings")
           && (includes stringValue (to_string (opt options "delimiter"))
               || includes stringValue (String dquote EmptyString)
               || includes stringValue newline
               || includes stringValue (String return_char EmptyString))
        then quoted stringValue else stringValue in
      VStr stringValue
  end.

(** [formatCsvRow(values, options)]. *)
Definition formatCsvRow (values : list value) (options : fields_t) : string :=
  array_join (opt options "delimiter") values.

(** One data row: the cells [formatCsvValue(obj[header], options)] in
    header order.  Reading a property of a null element throws. *)
Definition row_cells (headers : list string) (obj : value) (options : fields_t)
    : result (list value) :=
  rmap (λ header, v ←! js_get obj header; Ok (formatCsvValue v options)) headers.

(** The array [rows] at the point where it is joined. *)
Definition build_rows (data : list value) (options : fields_t) : result (list string) :=
  let headers := collect_keys data in
  dataRows ←! rmap (λ obj, rowData ←! row_cells headers obj options;
                           Ok (formatCsvRow rowData options)) data;
  Ok ((if truthy (opt options "includeHeaders")
       then [formatCsvRow (map VStr headers) options] else [])
      ++ dataRows).

(** [generateContent(data, options)]. *)
Definition generateContent (data : value) (options : fields_t) : result string :=
  match data with
  | VArr [] => Ok EmptyString
  | VArr items => rows ←! build_rows items options; Ok (join newline rows)
  | _ => Ok EmptyString
  end.

(** [validate(data)]: the shared check, then the shape check. *)
Definition validate (data : value) : result unit :=
  _ ←! ExportStrategy.validate data;
  if negb (isArray data) && negb (String.eqb (typeof data) "object")
  then Throw (DataExportError "CSV export requires object or array of objects")
  else Ok tt.

End CsvExportStrategy.

(** ** JsonExportStrategy *)

Module JsonExportStrategy.

Definition getDefaultOptions : fields_t :=
  assign_fields (assign_fields [] ExportStrategy.getDefaultOptions)
    [("prettify", VBool true); ("includeMetadata", VBool true);
     ("dateFormat", VStr "iso")].

Definition metadata (exportedAt : string) (data : value) : value :=
  VObj [("exportedAt", VStr exportedAt);
        ("format", VStr "json");
        ("recordCount",
          VNum (match data with VArr items => Z.of_nat (length items) | _ => 1%Z end));
        ("exporter", VStr "DataExporter v1.0.0")].

(** [transform(data, options)], given the instant the clock shows when the
    metadata is built. *)
Definition transform (exportedAt : string) (data : value) (options : fields_t) : value :=
  let transformedData :=
    match data with
    | VArr items => VArr items
    | _ => VObj (spread data)
    end in
  if truthy (opt options "includeMetadata")
  then match transformedData with
       | VArr items =>
           VObj [("metadata", metadata exportedAt data); ("data", VArr items)]
       | VObj fields => VObj (obj_set "metadata" (metadata exportedAt data) fields)
       | _ => transformedData
       end
  else transformedData.

(** [generateContent(data, options)]; the result is undefined when
    [JSON.stringify] gives undefined.  The catch clause rethrows what
    [JSON.stringify] throws, which is nothing on the values of the model. *)
Definition generateContent (data : value) (options : fields_t) : result value :=
  Ok (match (if truthy (opt options "prettify")
             then JSON_stringify_2 data else JSON_stringify data) with
      | Some text => VStr text
      | None => VUndefined
      end).

(** [validate(data)]: the shared check, then a trial [JSON.stringify],
    which cannot throw on the values of the model. *)
Definition validate (data : value) : result unit :=
  _ ←! ExportStrategy.validate data;
  match JSON_stringify data with
  | _ => Ok tt
  end.

End JsonExportStrategy.

(** ** The template method, the registry and the facade *)

(** An asynchronous method of the library: it runs in a world (the clock and
    the file system), may throw, and leaves a world behind. *)
Definition M (world A : Type) : Type := world → result A * world.

Definition ret {world A} (a : A) : M world A := λ w, (Ok a, w).

Definition raise {world A} (e : error) : M world A := λ w, (Throw e, w).

Definition lift {world A} (r : result A) : M world A := λ w, (r, w).

Definition bind {world A B} (m : M world A) (k : A → M world B) : M world B :=
  λ w, match m w with
       | (Ok a, w') => k a w'
       | (Throw e, w') => (Throw e, w')
       end.

Notation "x ←$ m ; k" := (bind m (λ x, k))
  (at level 20, m at level 100, k at level 200, right associativity,
   format "x  ←$  m ;  '/' k").

(** The three hooks a subclass of ExportStrategy fills in. *)
Record methods (world : Type) := Methods {
  m_validate : value → M world unit;
  m_transform : value → fields_t → M world value;
  m_generateContent : value → fields_t → M world value
}.
Arguments Methods {world}.
Arguments m_validate {world}.
Arguments m_transform {world}.
Arguments m_generateContent {world}.

(** A strategy instance as the facade uses it. *)
Record strategy (world : Type) := Strategy {
  name : string;
  options : fields_t;
  validate : value → M world unit;
  export : value → fields_t → M world value
}.
Arguments Strategy {world}.
Arguments name {world}.
Arguments options {world}.
Arguments validate {world}.
Arguments export {world}.

(** A class handed to the registry: its name, whether ExportStrategy.prototype
    lies on the prototype chain of its prototype, and what [new] does. *)
Record strategy_class (world : Type) := Class {
  class_name : string;
  extends_ExportStrategy : bool;
  construct : fields_t → result (strategy world)
}.
Arguments Class {world}.
Arguments class_name {world}.
Arguments extends_ExportStrategy {world}.
Arguments construct {world}.

(** The operands of the registration check: a prototype object or a boolean
    primitive. *)
Inductive operand (world : Type) :=
| Prototype (c : strategy_class world)
| Primitive (b : bool).
Arguments Prototype {world}.
Arguments Primitive {world}.

(** Unary [!]: an object is truthy. *)
Definition js_not {world} (o : operand world) : operand world :=
  match o with
  | Prototype _ => Primitive false
  | Primitive b => Primitive (negb b)
  end.

(** [o instanceof ExportStrategy]: a primitive is an instance of nothing. *)
Definition instanceof_ExportStrategy {world} (o : operand world) : bool :=
  match o with
  | Prototype c => extends_ExportStrategy c
  | Primitive _ => false
  end.

Section Exporter.

Context {world : Type}.

(** [new Date().toISOString()]. *)
Variable clock : world → string * world.

(** The storage collaborator: [fs.mkdir(dirname(path), {recursive: true})]
    followed by [fs.writeFile(path, content, encoding)]; [Some message]
    when either throws. *)
Variable fs_save : value → value → value → world → option string * world.

(** [path.resolve(outputDir, filename)]. *)
Variable path_resolve : value → value → result string.

Definition read_clock : M world string := λ w, let (t, w') := clock w in (Ok t, w').

(** [saveToFile(content, outputPath)]. *)
Definition saveToFile (this_options : fields_t) (content outputPath : value) : M world unit :=
  λ w, match fs_save outputPath content (opt this_options "encoding") w with
       | (Some msg, w') => (Throw (FileSystemError ("Failed to save file: " +:+ msg)), w')
       | (None, w') => (Ok tt, w')
       end.

(** [ExportStrategy.prototype.export]: the template method. *)
Definition ExportStrategy_export (m : methods world) (this_options : fields_t)
    (data : value) (options : fields_t) : M world value :=
  let config := spread2 (VObj this_options) (VObj options) in
  _ ←$ m_validate m data;
  transformedData ←$ m_transform m data config;
  content ←$ m_generateContent m transformedData config;
  if truthy (opt config "outputPath")
  then _ ←$ saveToFile this_options content (opt config "outputPath");
       ret (opt config "outputPath")
  else ret content.

Definition json_methods : methods world :=
  Methods (λ data, lift (JsonExportStrategy.validate data))
          (λ data options,
             if truthy (opt options "includeMetadata")
             then exportedAt ←$ read_clock;
                  ret (JsonExportStrategy.transform exportedAt data options)
             else ret (JsonExportStrategy.transform EmptyString data options))
          (λ data options, lift (JsonExportStrategy.generateContent data options)).

Definition csv_methods : methods world :=
  Methods (λ data, lift (CsvExportStrategy.validate data))
          (λ data options, ret (CsvExportStrategy.transform data options))
          (λ data options,
             lift (content ←! CsvExportStrategy.generateContent data options;
                   Ok (VStr content))).

(** [new C(options)] for a subclass of ExportStrategy that keeps the
    inherited constructor logic and [export]. *)
Definition new_strategy (name : string) (defaults : fields_t) (m : methods world)
    (options : fields_t) : strategy world :=
  let this_options := spread2 (VObj defaults) (VObj options) in
  Strategy name this_options (m_validate m) (ExportStrategy_export m this_options).

Definition JsonExportStrategy_class : strategy_class world :=
  Class "JsonExportStrategy" true
    (λ options, Ok (new_strategy "json" JsonExportStrategy.getDefaultOptions json_methods options)).

Definition CsvExportStrategy_class : strategy_class world :=
  Class "CsvExportStrategy" true
    (λ options, Ok (new_strategy "csv" CsvExportStrategy.getDefaultOptions csv_methods options)).

(** *** ExportStrategyFactory *)

(** [register(format, strategyClass)].  The condition is
    [!strategyClass.prototype instanceof ExportStrategy], in which the
    negation applies to the prototype before [instanceof] is evaluated. *)
Definition register (format : string) (strategyClass : strategy_class world)
    (strategies : gmap string (strategy_class world))
    : result (gmap string (strategy_class world)) :=
  if instanceof_ExportStrategy (js_not (Prototype strategyClass))
  then Throw (PlainError (class_name strategyClass +:+ " must extend ExportStrategy"))
  else Ok (<[to_lower format := strategyClass]> strategies).

(** The registry a new factory holds after [registerDefaultStrategies]. *)
Definition default_strategies : gmap string (strategy_class world) :=
  <["csv" := CsvExportStrategy_class]> (<["json" := JsonExportStrategy_class]> ∅).

(** [create(format, options)]. *)
Definition create (strategies : gmap string (strategy_class world))
    (format : string) (options : fields_t) : result (strategy world) :=
  match strategies !! to_lower format with
  | Some StrategyClass => construct StrategyClass options
  | None => Throw (DataExportError ("Unsupported export format: " +:+ format))
  end.

(** *** DataExporter *)

Record exporter := Exporter {
  factory : gmap string (strategy_class world);
  defaultOptions : fields_t
}.

(** [new DataExporter(options)]. *)
Definition new_DataExporter (options : fields_t) : exporter :=
  Exporter default_strategies
    (assign_fields [("outputDir", VStr "./exports"); ("createTimestamp", VBool true)] options).

(** [s.replace(/[:.]/g, "-")]. *)
Fixpoint dash_colons_dots (s : string) : string :=
  match s with
  | EmptyString => EmptyString
  | String c rest =>
      String (if Ascii.eqb c ":"%char || Ascii.eqb c "."%char then "-"%char else c)
             (dash_colons_dots rest)
  end.

(** [generateOutputPath(format, options)]. *)
Definition generateOutputPath (format : string) (options : fields_t) : M world string :=
  timestamp ←$ (if truthy (opt options "createTimestamp")
                then t ←$ read_clock; ret (dash_colons_dots t)
                else ret EmptyString);
  let filename :=
    if truthy (opt options "filename") then opt options "filename"
    else VStr ("export" +:+ (if truthy (VStr timestamp) then "-" +:+ timestamp else EmptyString)
               +:+ "." +:+ format) in
  lift (path_resolve (opt options "outputDir") filename).

(** [DataExporter.prototype.export(data, format, options)]. *)
Definition DataExporter_export (this : exporter) (data : value) (format : string)
    (options : fields_t) : M world value :=
  let config := spread2 (VObj (defaultOptions this)) (VObj options) in
  config ←$ (if negb (truthy (opt config "outputPath")) && truthy (opt config "outputDir")
             then p ←$ generateOutputPath format config;
                  ret (obj_set "outputPath" (VStr p) config)
             else ret config);
  strategy ←$ lift (create (factory this) format config);
  export strategy data config.

(** The value stored for a format whose export threw. *)
Definition error_descriptor (e : error) : value := VObj [("error", VStr (message e))].

(** The loop of [toMultiple]: one guarded attempt per requested format. *)
Fixpoint toMultiple_loop (this : exporter) (data : value) (formats : list string)
    (options results : fields_t) (w : world) : fields_t * world :=
  match formats with
  | [] => (results, w)
  | format :: formats' =>
      let formatOptions := spread2 (VObj options) (opt options format) in
      match DataExporter_export this data format formatOptions w with
      | (Ok output, w') =>
          toMultiple_loop this data formats' options (obj_set format output results) w'
      | (Throw error, w') =>
          toMultiple_loop this data formats' options
            (obj_set format (error_descriptor error) results) w'
      end
  end.

(** [toMultiple(data, formats, options)]. *)
Definition toMultiple (this : exporter) (data : value) (formats : list string)
    (options : fields_t) : M world value :=
  λ w, let (results, w') := toMultiple_loop this data formats options [] w in
       (Ok (VObj results), w').

(** What [toMultiple] stores for the outcome of one attempt. *)
Definition descriptor (r : result value) : value :=
  match r with
  | Ok output => output
  | Throw error => error_descriptor error
  end.

(** One step of the loop on the results object. *)
Definition store (results : fields_t) (attempt : string * result value) : fields_t :=
  obj_set attempt.1 (descriptor attempt.2) results.

(** The attempts the loop makes, in order: each requested format with the
    outcome of its export in the world the previous attempt left behind. *)
Fixpoint attempts (this : exporter) (data : value) (formats : list string)
    (options : fields_t) (w : world) : list (string * result value) * world :=
  match formats with
  | [] => ([], w)
  | format :: formats' =>
      let formatOptions := spread2 (VObj options) (opt options format) in
      let (r, w') := DataExporter_export this data format formatOptions w in
      let (rest, w'') := attempts this data formats' options w' in
      ((format, r) :: rest, w'')
  end.

End Exporter.

(** ** JSON.parse *)

Definition is_json_space (c : ascii) : bool :=
  let n := nat_of_ascii c in
  (n =? 32)%nat || (n =? 9)%nat || (n =? 10)%nat || (n =? 13)%nat.

Fixpoint skip_ws (s : string) : string :=
  match s with
  | String c rest => if is_json_space c then skip_ws rest else s
  | EmptyString => s
  end.

Fixpoint strip_prefix (p s : string) : option string :=
  match p with
  | EmptyString => Some s
  | String c p' =>
      match s with
      | String c' s' => if Ascii.eqb c c' then strip_prefix p' s' else None
      | EmptyString => None
      end
  end.

Definition hex_value (c : ascii) : option nat :=
  let n := nat_of_ascii c in
  if (48 <=? n)%nat && (n <=? 57)%nat then Some (n - 48)
  else if (97 <=? n)%nat && (n <=? 102)%nat then Some (n - 87)
  else if (65 <=? n)%nat && (n <=? 70)%nat then Some (n - 55)
  else None.

(** The character a two-character escape stands for. *)
Definition unescape (c : ascii) : option ascii :=
  if Ascii.eqb c dquote then Some dquote
  else if Ascii.eqb c backslash then Some backslash
  else if Ascii.eqb c "/"%char then Some "/"%char
  else if Ascii.eqb c "b"%char then Some (ascii_of_nat 8)
  else if Ascii.eqb c "t"%char then Some (ascii_of_nat 9)
  else if Ascii.eqb c "n"%char then Some (ascii_of_nat 10)
  else if Ascii.eqb c "f"%char then Some (ascii_of_nat 12)
  else if Ascii.eqb c "r"%char then Some (ascii_of_nat 13)
  else None.

(** The characters of a string literal after its opening quote, up to and
    including the closing one.  A [\u] escape is read when it denotes a
    character of the model's alphabet (a code below 256). *)
Fixpoint parse_string_body (s : string) : option (string * string) :=
  match s with
  | EmptyString => None
  | String c rest =>
      if Ascii.eqb c dquote then Some (EmptyString, rest)
      else if Ascii.eqb c backslash then
        match rest with
        | String e rest' =>
            if Ascii.eqb e "u"%char then
              match rest' with
              | String h1 (String h2 (String h3 (String h4 rest''))) =>
                  a ← hex_value h1; b ← hex_value h2;
                  c ← hex_value h3; d ← hex_value h4;
                  if (a =? 0)%nat && (b =? 0)%nat then
                    r ← parse_string_body rest'';
                    Some (String (ascii_of_nat (16 * c + d)) r.1, r.2)
                  else None
              | _ => None
              end
            else
              ch ← unescape e;
              r ← parse_string_body rest';
              Some (String ch r.1, r.2)
        | EmptyString => None
        end
      else if (nat_of_ascii c <? 32)%nat then None
      else r ← parse_string_body rest; Some (String c r.1, r.2)
  end.

Fixpoint span_digits (s : string) : string * string :=
  match s with
  | String c rest =>
      if is_digit c then let (ds, r) := span_digits rest in (String c ds, r)
      else (EmptyString, s)
  | EmptyString => (EmptyString, s)
  end.

Definition starts_fraction_or_exponent (s : string) : bool :=
  match s with
  | String c _ => Ascii.eqb c "."%char || Ascii.eqb c "e"%char || Ascii.eqb c "E"%char
  | EmptyString => false
  end.

(** A number token of the integer form: an optional minus sign and a run of
    digits without a superfluous leading zero.  Fractions and exponents lie
    outside the model and are refused. *)
Definition parse_number (s : string) : option (Z * string) :=
  let '(negative, s1) :=
    match s with
    | String c r => if Ascii.eqb c "-"%char then (true, r) else (false, s)
    | EmptyString => (false, s)
    end in
  let '(ds, rest) := span_digits s1 in
  n ← digits_to_N ds;
  if String.eqb (pretty n) ds && negb (starts_fraction_or_exponent rest)
  then Some (if negative then (- Z.of_N n)%Z else Z.of_N n, rest)
  else None.

(** The recursive descent, bounded by a step count.  An object is built by
    defining its members in the order of the text, as [obj_set] does. *)
Fixpoint parse_value (fuel : nat) (s : string) : option (value * string) :=
  match fuel with
  | O => None
  | S fuel' =>
      match skip_ws s with
      | EmptyString => None
      | String c rest =>
          if Ascii.eqb c "n"%char then r ← strip_prefix "ull" rest; Some (VNull, r)
          else if Ascii.eqb c "t"%char then r ← strip_prefix "rue" rest; Some (VBool true, r)
          else if Ascii.eqb c "f"%char then r ← strip_prefix "alse" rest; Some (VBool false, r)
          else if Ascii.eqb c dquote then
            r ← parse_string_body rest; Some (VStr r.1, r.2)
          else if Ascii.eqb c "["%char then
            match skip_ws rest with
            | EmptyString => None
            | String c' rest' =>
                if Ascii.eqb c' "]"%char then Some (VArr [], rest')
                else r ← parse_elements fuel' rest; Some (VArr r.1, r.2)
            end
          else if Ascii.eqb c "{"%char then
            match skip_ws rest with
            | EmptyString => None
            | String c' rest' =>
                if Ascii.eqb c' "}"%char then Some (VObj [], rest')
                else r ← parse_members fuel' rest []; Some (VObj r.1, r.2)
            end
          else r ← parse_number (String c rest); Some (VNum r.1, r.2)
      end
  end
with parse_elements (fuel : nat) (s : string) : option (list value * string) :=
  match fuel with
  | O => None
  | S fuel' =>
      r ← parse_value fuel' s;
      match skip_ws r.2 with
      | EmptyString => None
      | String c s' =>
          if Ascii.eqb c ","%char then
            r' ← parse_elements fuel' s'; Some (r.1 :: r'.1, r'.2)
          else if Ascii.eqb c "]"%char then Some ([r.1], s')
          else None
      end
  end
with parse_members (fuel : nat) (s : string) (acc : fields_t) : option (fields_t * string) :=
  match fuel with
  | O => None
  | S fuel' =>
      match skip_ws s with
      | EmptyString => None
      | String q s0 =>
          if Ascii.eqb q dquote then
            k ← parse_string_body s0;
            match skip_ws k.2 with
            | EmptyString => None
            | String c s1 =>
                if Ascii.eqb c ":"%char then
                  r ← parse_value fuel' s1;
                  match skip_ws r.2 with
                  | EmptyString => None
                  | String c' s' =>
                      if Ascii.eqb c' ","%char
                      then parse_members fuel' s' (obj_set k.1 r.1 acc)
                      else if Ascii.eqb c' "}"%char then Some (obj_set k.1 r.1 acc, s')
                      else None
                  end
                else None
            end
          else None
      end
  end.

(** [JSON.parse(text)]; [None] when it throws a SyntaxError. *)
Definition JSON_parse (text : string) : option value :=
  r ← parse_value (S (String.length text)) text;
  match skip_ws r.2 with
  | EmptyString => Some r.1
  | _ => None
  end.

(** The values that [JSON.stringify] writes without loss: no undefined and
    no Date anywhere, and every record with its keys in enumeration order
    (no key twice, array-index keys first and ascending). *)
Definition key_fits (seen : list string) (k : string) : bool :=
  negb (existsb (String.eqb k) seen) &&
  match array_index k with
  | Some n =>
      forallb (λ k', match array_index k' with
                     | Some m => (m <? n)%N
                     | None => false
                     end) seen
  | None => true
  end.

Fixpoint keys_in_order (seen keys : list string) : bool :=
  match keys with
  | [] => true
  | k :: rest => key_fits seen k && keys_in_order (seen ++ [k]) rest
  end.

Definition canonical (fields : fields_t) : bool := keys_in_order [] (map fst fields).

Fixpoint json_value (v : value) : bool :=
  match v with
  | VNull | VBool _ | VNum _ | VStr _ => true
  | VUndefined | VDate _ => false
  | VArr items =>
      (fix all (l : list value) : bool :=
         match l with
         | [] => true
         | x :: l' => json_value x && all l'
         end) items
  | VObj fields =>
      canonical fields &&
      (fix all (l : fields_t) : bool :=
         match l with
         | [] => true
         | (_, x) :: l' => json_value x && all l'
         end) fields
  end.

(** ** A simulated world

    A clock that shows one instant, a file system that is a map from paths
    to contents, and a stand-in for path resolution that puts the file name
    under the directory as it is given, without making the path absolute,
    for evaluating the facade on concrete calls. *)
Module Sim.

Record world := World { time : string; files : gmap string string }.

Definition clock (w : world) : string * world := (time w, w).

Definition fs_save (path content encoding : value) (w : world) : option string * world :=
  match path, content with
  | VStr p, VStr c => (None, World (time w) (<[p := c]> (files w)))
  | VStr _, _ => (Some "The data argument must be of type string", w)
  | _, _ => (Some "The path argument must be of type string", w)
  end.

Definition path_resolve (outputDir filename : value) : result string :=
  match outputDir, filename with
  | VStr d, VStr f => Ok (d +:+ "/" +:+ f)
  | _, _ => Throw (TypeError "The paths argument must be of type string")
  end.

Definition start : world := World "2024-01-02T03:04:05.678Z" ∅.

End Sim.

(** ** Auxiliary definitions for the statements *)

(** A class that does not extend ExportStrategy: no base class, a
    constructor that returns an instance whose methods all throw. *)
Definition plain_class (world : Type) : strategy_class world :=
  Class "Plain" false
    (λ options,
       Ok (Strategy "plain" options
             (λ _, raise (TypeError "strategy.validate is not a function"))
             (λ _ _, raise (TypeError "strategy.export is not a function")))).

(** Whether a call returned normally. *)
Definition is_ok {A} (r : result A) : bool :=
  match r with Ok _ => true | Throw _ => false end.

(** [nested_field x v]: the value [x] is the value of a property of the
    record [v] or of a record nested in [v] through properties only. *)
Inductive nested_field (x : value) : value → Prop :=
| nested_here k fields :
    (k, x) ∈ fields → nested_field x (VObj fields)
| nested_deeper k y fields :
    (k, y) ∈ fields → nested_field x y → nested_field x (VObj fields).

(** Whether a value is a record. *)
Definition is_record (v : value) : bool :=
  match v with VObj _ => true | _ => false end.

(** The header union in the specification's words: the keys of all records,
    each kept at its first appearance. *)
Fixpoint first_occurrences (keys : list string) : list string :=
  match keys with
  | [] => []
  | k :: keys' => k :: filter (λ k', k' ≠ k) (first_occurrences keys')
  end.

(** The separator [formatCsvRow] joins with. *)
Definition separator (options : fields_t) : string :=
  join_separator (opt options "delimiter").

(** Strings of JSON white space, and texts before which a number token
    ends. *)
Fixpoint all_space (s : string) : bool :=
  match s with
  | EmptyString => true
  | String c rest => is_json_space c && all_space rest
  end.

Fixpoint all_digits (s : string) : bool :=
  match s with
  | EmptyString => true
  | String c rest => is_digit c && all_digits rest
  end.

Definition ends_number (rest : string) : bool :=
  match rest with
  | EmptyString => true
  | String c _ => negb (is_digit c) && negb (starts_fraction_or_exponent rest)
  end.

(** The white space [json_wrap] puts before each part and before the
    closing bracket. *)
Definition layout_pre (gap indent : string) : string :=
  if String.eqb gap EmptyString then EmptyString else newline +:+ (indent +:+ gap).

Definition layout_post (gap indent : string) : string :=
  if String.eqb gap EmptyString then EmptyString else newline +:+ indent.

(** A value is read back: its serialization, in any layout and after any
    white space, parses to it in a number of steps that exceeds the length
    of the text. *)
Definition reads_back (v : value) : Prop :=
  ∀ gap indent text ws rest fuel,
    all_space gap = true → all_space indent = true → all_space ws = true →
    serialize_json gap indent v = Some text →
    ends_number rest = true →
    String.length text < fuel →
    parse_value fuel (ws +:+ text +:+ rest) = Some (v, rest).

(** The members of a record, given the serializations of its values. *)
Definition member_texts (gap : string) (fields : fields_t) (texts : list string) : list string :=
  zip_with (λ (kv : string * value) t, json_member gap kv.1 t) fields texts.

(** The configuration the JSON strategy works with when the facade hands it
    [config]: the strategy defaults under [config], merged at construction
    and again at export. *)
Definition json_strategy_config (config : fields_t) : fields_t :=
  spread2 (VObj (spread2 (VObj JsonExportStrategy.getDefaultOptions) (VObj config)))
          (VObj config).

(** ** Further operations of the base class, the factory and the facade *)

(** The hooks as ExportStrategy itself defines them, for a subclass that
    overrides none: the shared validation, the identity transform, and a
    [generateContent] that throws. *)
Definition base_methods {world : Type} : methods world :=
  Methods (λ data, lift (ExportStrategy.validate data))
          (λ data options, ret data)
          (λ data options,
             raise (PlainError "generateContent must be implemented by concrete strategy")).

(** [isFormatSupported(format)]. *)
Definition isFormatSupported {world : Type} (strategies : gmap string (strategy_class world))
    (format : string) : bool :=
  bool_decide (is_Some (strategies !! to_lower format)).

(** [registerStrategy(format, strategyClass)] on the facade. *)
Definition registerStrategy {world : Type} (this : @exporter world) (format : string)
    (strategyClass : strategy_class world) : result (@exporter world) :=
  strategies ←! register format strategyClass (factory this);
  Ok (Exporter strategies (defaultOptions this)).

(** [DataExporter.prototype.validate(data, format)]: the strategy is created
    with the default argument of [create], the empty options. *)
Definition DataExporter_validate {world : Type} (this : @exporter world) (data : value)
    (format : string) : M world bool :=
  strategy ←$ lift (create (factory this) format []);
  _ ←$ validate strategy data;
  ret true.

(** [toJSON(data, options)] and [toCSV(data, options)]. *)
Definition toJSON {world : Type} (clock : world → string * world)
    (path_resolve : value → value → result string) (this : @exporter world)
    (data : value) (options : fields_t) : M world value :=
  DataExporter_export clock path_resolve this data "json" options.

Definition toCSV {world : Type} (clock : world → string * world)
    (path_resolve : value → value → result string) (this : @exporter world)
    (data : value) (options : fields_t) : M world value :=
  DataExporter_export clock path_resolve this data "csv" options.

(** The test [typeof item === "object" && item !== null]. *)
Definition is_object_value (v : value) : bool :=
  String.eqb (typeof v) "object" && negb (match v with VNull => true | _ => false end).

(** [hasNestedObjects(data)]. *)
Definition hasNestedObjects (data : value) : bool :=
  if isArray data then
    match data with
    | VArr items => existsb is_object_value items
    | _ => false
    end
  else if is_object_value data then existsb is_object_value (map snd (own_entries data))
  else false.

(** [getExportStats(data)].  Reading the length of the serialization throws
    when [JSON.stringify] gives undefined. *)
Definition getExportStats (data : value) : result value :=
  match JSON_stringify data with
  | Some text =>
      Ok (VObj [("isArray", VBool (isArray data));
                ("recordCount",
                  VNum (match data with VArr items => Z.of_nat (length items) | _ => 1%Z end));
                ("dataType", VStr (typeof data));
                ("hasNestedObjects", VBool (hasNestedObjects data));
                ("estimatedSize", VNum (Z.of_nat (String.length text)))])
  | None => Throw (TypeError "Cannot read properties of undefined (reading 'length')")
  end.

(** ** Auxiliary definitions for the further statements *)

Definition is_date (v : value) : bool :=
  match v with VDate _ => true | _ => false end.

Definition is_nullish (v : value) : bool :=
  match v with VNull | VUndefined => true | _ => false end.

(** How deep records are nested in a value through properties; an array
    ends the nesting. *)
Fixpoint nesting (v : value) : nat :=
  match v with
  | VObj fields =>
      S ((fix deepest (l : fields_t) : nat :=
            match l with
            | [] => 0
            | (_, x) :: l' => Nat.max (nesting x) (deepest l')
            end) fields)
  | _ => 0
  end.

(** Whether a cell text needs quoting under a configuration: it contains
    the delimiter, a quote, a line feed or a carriage return. *)
Definition needs_quoting (options : fields_t) (s : string) : bool :=
  includes s (to_string (opt options "delimiter"))
  || includes s (String dquote EmptyString)
  || includes s newline
  || includes s (String return_char EmptyString).

(** Whether a character occurs in a string. *)
Fixpoint has_char (c : ascii) (s : string) : bool :=
  match s with
  | EmptyString => false
  | String c' rest => Ascii.eqb c' c || has_char c rest
  end.

(** Every record in a value, at any depth and inside arrays too, has its
    keys in enumeration order. *)
Fixpoint well_formed (v : value) : bool :=
  match v with
  | VArr items =>
      (fix all (l : list value) : bool :=
         match l with
         | [] => true
         | x :: l' => well_formed x && all l'
         end) items
  | VObj fields =>
      canonical fields &&
      (fix all (l : fields_t) : bool :=
         match l with
         | [] => true
         | (_, x) :: l' => well_formed x && all l'
         end) fields
  | _ => true
  end.

(** What a value looks like after [JSON.stringify] and [JSON.parse]: a Date
    is its ISO string, a property whose value is undefined is gone, and an
    undefined array element is null. *)
Fixpoint json_normal (v : value) : value :=
  match v with
  | VDate d => VStr (toISOString d)
  | VArr items =>
      VArr ((fix elems (l : list value) : list value :=
               match l with
               | [] => []
               | x :: l' =>
                   match x with
                   | VUndefined => VNull
                   | _ => json_normal x
                   end :: elems l'
               end) items)
  | VObj fields =>
      VObj ((fix members (l : fields_t) : fields_t :=
               match l with
               | [] => []
               | (k, x) :: l' =>
                   match x with
                   | VUndefined => members l'
                   | _ => (k, json_normal x) :: members l'
                   end
               end) fields)
  | _ => v
  end.

(** ** Reading CSV text

    How a reader of CSV takes a text apart, for the statements about rows
    and columns of the serialization.  A double quote switches between the
    inside and the outside of a quoted part, so that a doubled quote inside
    a quoted part leaves the reader inside; the separator splits the text
    only outside quoted parts.  The parts keep their quotes.  A text without
    a separator is one part, the empty text included. *)

Definition cons_head (c : ascii) (parts : list string) : list string :=
  match parts with
  | [] => [String c EmptyString]
  | part :: parts' => String c part :: parts'
  end.

Fixpoint csv_split_from (sep : ascii) (s : string) (inside : bool) : list string :=
  match s with
  | EmptyString => [EmptyString]
  | String c rest =>
      if Ascii.eqb c dquote then cons_head c (csv_split_from sep rest (negb inside))
      else if negb inside && Ascii.eqb c sep then EmptyString :: csv_split_from sep rest false
      else cons_head c (csv_split_from sep rest inside)
  end.

(** The rows of a text, separated by line feeds, and the cells of a row,
    separated by the delimiter. *)
Definition csv_rows (text : string) : list string :=
  csv_split_from newline_char text false.

Definition csv_cells (delimiter : ascii) (row : string) : list string :=
  csv_split_from delimiter row false.

(** A text that a reader takes for one cell: every quoted part is closed,
    and neither the delimiter nor a line feed stands outside a quoted part. *)
Fixpoint csv_field_from (delimiter : ascii) (s : string) (inside : bool) : bool :=
  match s with
  | EmptyString => negb inside
  | String c rest =>
      if Ascii.eqb c dquote then csv_field_from delimiter rest (negb inside)
      else if negb inside && (Ascii.eqb c delimiter || Ascii.eqb c newline_char) then false
      else csv_field_from delimiter rest inside
  end.

Definition csv_field (delimiter : ascii) (s : string) : bool :=
  csv_field_from delimiter s false.

(** The text of a cell in a row: what [join] makes of the formatted value
    of the property [key] of a record. *)
Definition cell_text (options : fields_t) (record : value) (key : string) : string :=
  join_element
    (CsvExportStrategy.formatCsvValue
       (default VUndefined (obj_get key (own_entries record))) options).

(** ** Where property reads and writes of the model are those of the code

    Every plain object inherits the properties of Object.prototype.  A read
    [obj[key]] of a key the object does not own finds the inherited property
    under these names, and a write [obj[key] = v] or [Object.assign] under
    the name __proto__ goes to the inherited setter and defines no own
    property.  The model reads and writes own properties only; the
    statements that depend on it exclude these keys. *)
Definition Object_prototype_names : list string :=
  ["constructor"; "__defineGetter__"; "__defineSetter__"; "hasOwnProperty";
   "__lookupGetter__"; "__lookupSetter__"; "isPrototypeOf"; "propertyIsEnumerable";
   "toString"; "valueOf"; "__proto__"; "toLocaleString"].

Definition inherited_name (key : string) : bool :=
  existsb (String.eqb key) Object_prototype_names.

Definition is_proto (key : string) : bool := String.eqb key "__proto__".

(** No record in the value, at any depth, has a property named __proto__. *)
Fixpoint proto_free (v : value) : bool :=
  match v with
  | VArr items =>
      (fix all (l : list value) : bool :=
         match l with
         | [] => true
         | x :: l' => proto_free x && all l'
         end) items
  | VObj fields =>
      (fix all (l : fields_t) : bool :=
         match l with
         | [] => true
         | (k, x) :: l' => negb (is_proto k) && proto_free x && all l'
         end) fields
  | _ => true
  end.

(** * Properties *)

(** ** The scenarios of the specification, evaluated *)

Example csv_one_record_with_headers :
  CsvExportStrategy.generateContent
    (CsvExportStrategy.transform (VArr [VObj [("id", VNum 1); ("name", VStr "A")]])
       CsvExportStrategy.getDefaultOptions)
    CsvExportStrategy.getDefaultOptions
  = Ok ("id,name" +:+ newline +:+ "1,A").
Proof. reflexivity. Qed.

Example flatten_nested_record :
  CsvExportStrategy.flattenObject_from (VObj [("a", VObj [("b", VNum 1)])]) EmptyString (VNum 3)
  = VObj [("a.b", VNum 1)].
Proof. reflexivity. Qed.

Example csv_null_value :
  CsvExportStrategy.generateContent
    (CsvExportStrategy.transform (VObj [("x", VNull)])
       (obj_set "nullValue" (VStr "N/A") CsvExportStrategy.getDefaultOptions))
    (obj_set "nullValue" (VStr "N/A") CsvExportStrategy.getDefaultOptions)
  = Ok ("x" +:+ newline +:+ "N/A").
Proof. reflexivity. Qed.

Example unregistered_format :
  (DataExporter_export Sim.clock Sim.path_resolve
     (new_DataExporter Sim.clock Sim.fs_save []) (VArr []) "xml" [] Sim.start).1
  = Throw (DataExportError "Unsupported export format: xml").
Proof. reflexivity. Qed.

Example json_round_trip_indented :
  (text ← JSON_stringify_2
            (VArr [VObj [("id", VNum (-12)); ("tags", VArr [VStr "a"; VNull]);
                         ("nested", VObj [("0", VBool true); ("k", VObj [])])]]);
   JSON_parse text)
  = Some (VArr [VObj [("id", VNum (-12)); ("tags", VArr [VStr "a"; VNull]);
                      ("nested", VObj [("0", VBool true); ("k", VObj [])])]]).
Proof. reflexivity. Qed.

(** ** Values, results and objects *)

(** Induction over values that reaches inside arrays and records. *)
Lemma value_nested_ind (P : value → Prop) :
  P VUndefined → P VNull → (∀ b, P (VBool b)) → (∀ n, P (VNum n)) →
  (∀ s, P (VStr s)) → (∀ d, P (VDate d)) →
  (∀ items, Forall P items → P (VArr items)) →
  (∀ fields, Forall (λ kv, P kv.2) fields → P (VObj fields)) →
  ∀ v, P v.
Proof.
  intros Hu Hn Hb Hz Hs Hd Ha Ho.
  fix IH 1. intros [| | b | n | s | d | items | fields].
  - exact Hu.
  - exact Hn.
  - apply Hb.
  - apply Hz.
  - apply Hs.
  - apply Hd.
  - apply Ha. induction items as [|x xs IHxs]; constructor; [apply IH | exact IHxs].
  - apply Ho. induction fields as [|[k x] xs IHxs]; constructor; [apply IH | exact IHxs].
Qed.

Lemma obj_get_app k (a b : fields_t) :
  obj_get k (a ++ b) = match obj_get k a with Some v => Some v | None => obj_get k b end.
Proof.
  induction a as [|[k' v'] a IH]; simpl; [done|].
  destruct (String.eqb k' k); [done | exact IH].
Qed.

Lemma obj_get_replace_eq k v fields :
  has_key k fields = true → obj_get k (obj_replace k v fields) = Some v.
Proof.
  unfold has_key. induction fields as [|[k' v'] fields IH]; simpl; [done|].
  destruct (String.eqb k' k) eqn:E; simpl; rewrite E; [done | exact IH].
Qed.

Lemma obj_get_replace_ne k k' v fields :
  k ≠ k' → obj_get k' (obj_replace k v fields) = obj_get k' fields.
Proof.
  intros Hne. induction fields as [|[k0 v0] fields IH]; simpl; [done|].
  destruct (String.eqb_spec k0 k) as [->|Hk]; simpl.
  - destruct (String.eqb_spec k k'); [contradiction | done].
  - destruct (String.eqb k0 k'); [done | exact IH].
Qed.

Lemma obj_get_insert_index_eq n k v fields :
  obj_get k fields = None → obj_get k (obj_insert_index n k v fields) = Some v.
Proof.
  induction fields as [|[k0 v0] fields IH]; simpl.
  - by rewrite String.eqb_refl.
  - destruct (String.eqb k0 k) eqn:E; [done|]. intros Hnone.
    destruct (array_index k0) as [n'|]; [destruct (n' <? n)%N|]; simpl;
      rewrite ?E, ?String.eqb_refl; auto.
Qed.

Lemma obj_get_insert_index_ne n k k' v fields :
  k ≠ k' → obj_get k' (obj_insert_index n k v fields) = obj_get k' fields.
Proof.
  intros Hne. apply String.eqb_neq in Hne.
  induction fields as [|[k0 v0] fields IH]; simpl.
  - by rewrite Hne.
  - destruct (array_index k0) as [n'|]; [destruct (n' <? n)%N|]; simpl;
      rewrite ?Hne, ?IH; done.
Qed.

(** Reading back a property that was just written. *)
Lemma obj_get_set_eq k v fields : obj_get k (obj_set k v fields) = Some v.
Proof.
  unfold obj_set. destruct (has_key k fields) eqn:E.
  - by apply obj_get_replace_eq.
  - assert (obj_get k fields = None) as Hnone.
    { unfold has_key in E. by destruct (obj_get k fields). }
    destruct (array_index k).
    + by apply obj_get_insert_index_eq.
    + rewrite obj_get_app, Hnone. simpl. by rewrite String.eqb_refl.
Qed.

(** Writing a property leaves the others as they were. *)
Lemma obj_get_set_ne k k' v fields :
  k ≠ k' → obj_get k' (obj_set k v fields) = obj_get k' fields.
Proof.
  intros Hne. unfold obj_set. destruct (has_key k fields).
  - by apply obj_get_replace_ne.
  - destruct (array_index k).
    + by apply obj_get_insert_index_ne.
    + rewrite obj_get_app. simpl. apply String.eqb_neq in Hne. rewrite Hne.
      by destruct (obj_get k' fields).
Qed.

(** ** The registry *)

(** The operand of [instanceof] in the registration check is always a
    boolean primitive. *)
Lemma js_not_primitive {world} (o : operand world) : ∃ b, js_not o = Primitive b.
Proof. destruct o; simpl; eauto. Qed.

(** C1.  [register] evaluates its guard on the negated prototype, a boolean,
    which is an instance of nothing: the guard is false for every class, so
    registration never throws.  The class is stored under the lowercased
    identifier whatever it extends, replacing an earlier entry; in
    particular a class that does not extend ExportStrategy is accepted. *)
Theorem C1_register_accepts_every_class :
  ∀ (world : Type) (format : string) (strategyClass : strategy_class world)
    (strategies : gmap string (strategy_class world)),
    register format strategyClass strategies
      = Ok (<[to_lower format := strategyClass]> strategies)
    ∧ (<[to_lower format := strategyClass]> strategies) !! to_lower format
      = Some strategyClass
    ∧ extends_ExportStrategy (plain_class world) = false
    ∧ register "Plain" (plain_class world) strategies
      = Ok (<["plain" := plain_class world]> strategies).
Proof.
  intros world format strategyClass strategies.
  assert (∀ f c, @register world f c strategies = Ok (<[to_lower f := c]> strategies)) as H.
  { intros f c. unfold register.
    destruct (js_not_primitive (Prototype c)) as [b ->]. done. }
  split; [apply H|]. split; [apply lookup_insert_eq|]. split; [done|]. apply H.
Qed.

(** ** Validation *)

(** The shared validation accepts exactly the truthy values. *)
Lemma ExportStrategy_validate_truthy data :
  is_ok (ExportStrategy.validate data) = truthy data.
Proof. unfold ExportStrategy.validate. by destruct (truthy data). Qed.

(** C4.  The shared validation rejects null and undefined, and with them
    every other falsy value: the number zero, the empty string and the
    boolean false are refused with the message that speaks of null or
    undefined, and a JSON export of zero fails in the same way. *)
Theorem C4_validate_rejects_falsy_values :
  ExportStrategy.validate VNull = Throw (DataExportError "Data cannot be null or undefined")
  ∧ ExportStrategy.validate VUndefined = Throw (DataExportError "Data cannot be null or undefined")
  ∧ (∀ data, is_ok (ExportStrategy.validate data) = truthy data)
  ∧ ExportStrategy.validate (VNum 0) = Throw (DataExportError "Data cannot be null or undefined")
  ∧ ExportStrategy.validate (VStr EmptyString)
    = Throw (DataExportError "Data cannot be null or undefined")
  ∧ ExportStrategy.validate (VBool false)
    = Throw (DataExportError "Data cannot be null or undefined")
  ∧ (∀ (world : Type) clock fs_save this_options options (w : world),
       ExportStrategy_export fs_save (json_methods clock) this_options (VNum 0) options w
       = (Throw (DataExportError "Data cannot be null or undefined"), w)).
Proof.
  repeat split; try reflexivity. apply ExportStrategy_validate_truthy.
Qed.

(** The CSV validation looks at the dataset itself only: an array passes
    whatever it holds. *)
Lemma CsvExportStrategy_validate_array items :
  CsvExportStrategy.validate (VArr items) = Ok tt.
Proof. reflexivity. Qed.

(** C2.  The CSV validation refuses every bare scalar, but it never looks at
    the elements of a sequence: the sequence of the scalars 1, 2, 3 passes,
    and its export with the default options is a text of three line breaks
    rather than a failure. *)
Theorem C2_csv_validate_accepts_sequence_of_scalars :
  (∀ b, throws (CsvExportStrategy.validate (VBool b)))
  ∧ (∀ n, throws (CsvExportStrategy.validate (VNum n)))
  ∧ (∀ s, throws (CsvExportStrategy.validate (VStr s)))
  ∧ (∀ items, CsvExportStrategy.validate (VArr items) = Ok tt)
  ∧ CsvExportStrategy.validate (VArr [VNum 1; VNum 2; VNum 3]) = Ok tt
  ∧ CsvExportStrategy.generateContent
      (CsvExportStrategy.transform (VArr [VNum 1; VNum 2; VNum 3])
         CsvExportStrategy.getDefaultOptions)
      CsvExportStrategy.getDefaultOptions
    = Ok (newline +:+ newline +:+ newline)
  ∧ (∀ (world : Type) fs_save (w : world),
       ExportStrategy_export fs_save csv_methods CsvExportStrategy.getDefaultOptions
         (VArr [VNum 1; VNum 2; VNum 3]) [] w
       = (Ok (VStr (newline +:+ newline +:+ newline)), w)).
Proof.
  split; [|split; [|split; [|split; [|split; [|split]]]]].
  - intros []; eexists; reflexivity.
  - intros n. unfold CsvExportStrategy.validate, ExportStrategy.validate. simpl.
    destruct (n =? 0)%Z; eexists; reflexivity.
  - intros s. unfold CsvExportStrategy.validate, ExportStrategy.validate. simpl.
    destruct (String.eqb s EmptyString); eexists; reflexivity.
  - apply CsvExportStrategy_validate_array.
  - reflexivity.
  - reflexivity.
  - intros. reflexivity.
Qed.

(** ** CSV serialization of the empty sequence *)

(** C6.  The CSV serialization of an empty sequence is the empty string for
    every configuration, so also when includeHeaders is set; the transform
    keeps the empty sequence empty, and an export that is given no output
    path returns the empty string. *)
Theorem C6_csv_empty_sequence_is_empty_string :
  ∀ (options : fields_t),
    CsvExportStrategy.generateContent (VArr []) options = Ok EmptyString
    ∧ CsvExportStrategy.transform (VArr []) options = VArr []
    ∧ CsvExportStrategy.generateContent
        (CsvExportStrategy.transform (VArr []) (obj_set "includeHeaders" (VBool true) options))
        (obj_set "includeHeaders" (VBool true) options)
      = Ok EmptyString
    ∧ (∀ (world : Type) fs_save this_options (w : world),
         ExportStrategy_export fs_save csv_methods this_options (VArr []) options w
         = if truthy (opt (spread2 (VObj this_options) (VObj options)) "outputPath")
           then (_ ←$ saveToFile fs_save this_options (VStr EmptyString)
                        (opt (spread2 (VObj this_options) (VObj options)) "outputPath");
                 ret (opt (spread2 (VObj this_options) (VObj options)) "outputPath")) w
           else (Ok (VStr EmptyString), w)).
Proof.
  intros options.
  assert (∀ o, CsvExportStrategy.transform (VArr []) o = VArr []) as Ht.
  { intros o. unfold CsvExportStrategy.transform. by destruct (truthy _). }
  split; [done|]. split; [apply Ht|]. split; [by rewrite Ht|].
  intros world fs_save this_options w.
  unfold ExportStrategy_export, bind, csv_methods, lift, ret. simpl.
  rewrite Ht. simpl.
  by destruct (truthy (opt _ "outputPath")).
Qed.

(** ** The object flattener *)

Lemma elem_of_obj_replace k v fields (e : string * value) :
  e ∈ obj_replace k v fields → e.2 = v ∨ e ∈ fields.
Proof.
  induction fields as [|[k0 v0] fields IH]; simpl; [by right|].
  destruct (String.eqb k0 k).
  - intros [->|H]%elem_of_cons; [by left | right; by apply list_elem_of_further].
  - intros [->|H]%elem_of_cons; [right; apply list_elem_of_here|].
    destruct (IH H) as [?|?]; [by left | right; by apply list_elem_of_further].
Qed.

Lemma elem_of_obj_insert_index n k v fields (e : string * value) :
  e ∈ obj_insert_index n k v fields → e.2 = v ∨ e ∈ fields.
Proof.
  induction fields as [|[k0 v0] fields IH]; simpl.
  - intros ->%list_elem_of_singleton. by left.
  - destruct (array_index k0) as [n'|]; [destruct (n' <? n)%N|].
    + intros [->|H]%elem_of_cons; [right; apply list_elem_of_here|].
      destruct (IH H) as [?|?]; [by left | right; by apply list_elem_of_further].
    + intros [->|H]%elem_of_cons; [by left | by right].
    + intros [->|H]%elem_of_cons; [by left | by right].
Qed.

(** Every entry of an object after a write was there before or carries the
    written value. *)
Lemma elem_of_obj_set k v fields (e : string * value) :
  e ∈ obj_set k v fields → e.2 = v ∨ e ∈ fields.
Proof.
  unfold obj_set. destruct (has_key k fields).
  - apply elem_of_obj_replace.
  - destruct (array_index k).
    + apply elem_of_obj_insert_index.
    + intros [H| ->%list_elem_of_singleton]%elem_of_app; [by right | by left].
Qed.

Lemma elem_of_assign_fields source : ∀ target (e : string * value),
  e ∈ assign_fields target source →
  e ∈ target ∨ ∃ e', e' ∈ source ∧ e.2 = e'.2.
Proof.
  unfold assign_fields.
  induction source as [|[k v] source IH]; simpl; intros target e He; [by left|].
  destruct (IH _ _ He) as [Hin|(e' & Hin & Heq)].
  - destruct (elem_of_obj_set _ _ _ _ Hin) as [Hv|Hold]; [|by left].
    right. exists (k, v). split; [apply list_elem_of_here | done].
  - right. exists e'. split; [by apply list_elem_of_further | done].
Qed.

Lemma flattenObject_object fields prefix maxDepth currentDepth :
  CsvExportStrategy.flattenObject (VObj fields) prefix maxDepth currentDepth
  = if number_ge currentDepth maxDepth then VObj fields
    else VObj (CsvExportStrategy.flatten_entries prefix maxDepth currentDepth fields []).
Proof. reflexivity. Qed.

Lemma flattenObject_depth_reached obj prefix maxDepth currentDepth :
  number_ge currentDepth maxDepth = true →
  CsvExportStrategy.flattenObject obj prefix maxDepth currentDepth = obj.
Proof. intros H. destruct obj; simpl; by rewrite ?H. Qed.

(** Whatever the flattener puts into its result is a property value found
    in the input, at some nesting depth, as it stands there. *)
Lemma flattenObject_entries_nested v :
  ∀ prefix maxDepth currentDepth (e : string * value),
    CsvExportStrategy.is_nested_object v = true →
    e ∈ own_entries (CsvExportStrategy.flattenObject v prefix maxDepth currentDepth) →
    nested_field e.2 v.
Proof.
  induction v as [| | b | n | s | d | items _ | fields IH] using value_nested_ind;
    intros prefix maxDepth currentDepth e Hobj;
    try (unfold CsvExportStrategy.is_nested_object in Hobj; simpl in Hobj;
         rewrite ?andb_false_r in Hobj; discriminate).
  - simpl. destruct (number_ge _ _); simpl; by intros ?%elem_of_nil.
  - rewrite flattenObject_object. destruct (number_ge _ _); simpl.
    { destruct e as [k x]. intros H. by eapply nested_here. }
    assert (∀ entries flattened,
      (∀ kv, kv ∈ entries → kv ∈ fields) →
      Forall (λ kv : string * value,
        ∀ prefix maxDepth currentDepth (e : string * value),
          CsvExportStrategy.is_nested_object kv.2 = true →
          e ∈ own_entries (CsvExportStrategy.flattenObject kv.2 prefix maxDepth currentDepth) →
          nested_field e.2 kv.2) entries →
      (∀ e', e' ∈ flattened → nested_field e'.2 (VObj fields)) →
      e ∈ CsvExportStrategy.flatten_entries prefix maxDepth currentDepth entries flattened →
      nested_field e.2 (VObj fields)) as Hloop.
    { induction entries as [|[key val] entries IHentries]; simpl;
        intros flattened Hsub Hall Hacc He; [by apply Hacc|].
      apply Forall_cons in Hall as [Hval Hall].
      assert ((key, val) ∈ fields) as Hkv by (apply Hsub, list_elem_of_here).
      eapply IHentries; [| exact Hall | | exact He].
      { intros kv Hin. by apply Hsub, list_elem_of_further. }
      intros e' He'. destruct (CsvExportStrategy.is_nested_object val) eqn:Hnested.
      - apply elem_of_assign_fields in He' as [Hin|(e'' & Hin & ->)]; [by apply Hacc|].
        eapply nested_deeper; [exact Hkv|]. by eapply Hval.
      - apply elem_of_obj_set in He' as [->|Hin]; [by eapply nested_here | by apply Hacc]. }
    apply Hloop; [done | exact IH |]. by intros e' ?%elem_of_nil.
Qed.

(** ** Records in enumeration order *)

Lemma has_key_keys k fields : has_key k fields = existsb (String.eqb k) (map fst fields).
Proof.
  unfold has_key. induction fields as [|[k' v] fields IH]; simpl; [done|].
  rewrite (String.eqb_sym k k'). destruct (String.eqb k' k); [done | exact IH].
Qed.

Lemma obj_insert_index_fits n k v acc :
  forallb (λ k', match array_index k' with
                 | Some m => (m <? n)%N
                 | None => false
                 end) (map fst acc) = true →
  obj_insert_index n k v acc = acc ++ [(k, v)].
Proof.
  induction acc as [|[k0 v0] acc IH]; simpl; [done|].
  intros [H1 H2]%andb_true_iff.
  destruct (array_index k0) as [m|]; [|done]. rewrite H1. by rewrite IH.
Qed.

(** A key that fits after the present ones is appended by a write. *)
Lemma obj_set_fits k v acc :
  key_fits (map fst acc) k = true → obj_set k v acc = acc ++ [(k, v)].
Proof.
  unfold key_fits, obj_set. intros [H1 H2]%andb_true_iff.
  apply negb_true_iff in H1. rewrite has_key_keys, H1.
  destruct (array_index k); [by apply obj_insert_index_fits | done].
Qed.

Lemma assign_fields_canonical fields : ∀ acc,
  keys_in_order (map fst acc) (map fst fields) = true →
  assign_fields acc fields = acc ++ fields.
Proof.
  unfold assign_fields.
  induction fields as [|[k v] fields IH]; simpl; intros acc H.
  - by rewrite app_nil_r.
  - apply andb_true_iff in H as [H1 H2].
    rewrite obj_set_fits by done. rewrite IH.
    + by rewrite <-app_assoc.
    + by rewrite map_app.
Qed.

(** Spreading a record into a fresh object copies it. *)
Lemma spread_canonical fields :
  canonical fields = true → spread (VObj fields) = fields.
Proof. intros H. unfold spread. simpl. by rewrite assign_fields_canonical. Qed.

(** ** The JSON transform *)

(** C8.  With includeMetadata set, the JSON transform turns a sequence into
    the envelope of metadata and data, with recordCount the length of the
    sequence, and writes the metadata into a copy of a single record under
    the key metadata, replacing what the record had there and keeping every
    other field, with recordCount 1; the metadata names the format json and
    the exporter DataExporter v1.0.0. *)
Theorem C8_json_transform_wraps_with_metadata :
  ∀ (exportedAt : string) (options : fields_t),
    truthy (opt options "includeMetadata") = true →
    (∀ items,
       JsonExportStrategy.transform exportedAt (VArr items) options
       = VObj [("metadata",
                 VObj [("exportedAt", VStr exportedAt); ("format", VStr "json");
                       ("recordCount", VNum (Z.of_nat (length items)));
                       ("exporter", VStr "DataExporter v1.0.0")]);
               ("data", VArr items)])
    ∧ (∀ fields,
         canonical fields = true →
         ∃ merged,
           JsonExportStrategy.transform exportedAt (VObj fields) options = VObj merged
           ∧ obj_get "metadata" merged
             = Some (VObj [("exportedAt", VStr exportedAt); ("format", VStr "json");
                           ("recordCount", VNum 1);
                           ("exporter", VStr "DataExporter v1.0.0")])
           ∧ (∀ k, k ≠ "metadata" → obj_get k merged = obj_get k fields)).
Proof.
  intros exportedAt options Hmeta. split.
  - intros items. unfold JsonExportStrategy.transform. by rewrite Hmeta.
  - intros fields Hcanon.
    exists (obj_set "metadata" (JsonExportStrategy.metadata exportedAt (VObj fields)) fields).
    split; [|split].
    + unfold JsonExportStrategy.transform. rewrite Hmeta.
      by rewrite spread_canonical.
    + apply obj_get_set_eq.
    + intros k Hk. by apply obj_get_set_ne.
Qed.

(** The theorem at the default options of the JSON strategy, for a sequence
    of two records and for a record that already has a metadata field. *)
Lemma C8_json_transform_witness :
  truthy (opt JsonExportStrategy.getDefaultOptions "includeMetadata") = true
  ∧ JsonExportStrategy.transform "T" (VArr [VObj [("a", VNum 1)]; VObj []])
      JsonExportStrategy.getDefaultOptions
    = VObj [("metadata",
              VObj [("exportedAt", VStr "T"); ("format", VStr "json");
                    ("recordCount", VNum 2);
                    ("exporter", VStr "DataExporter v1.0.0")]);
            ("data", VArr [VObj [("a", VNum 1)]; VObj []])]
  ∧ canonical [("metadata", VStr "mine"); ("a", VNum 1)] = true
  ∧ ∃ merged,
      JsonExportStrategy.transform "T" (VObj [("metadata", VStr "mine"); ("a", VNum 1)])
        JsonExportStrategy.getDefaultOptions = VObj merged
      ∧ obj_get "metadata" merged
        = Some (VObj [("exportedAt", VStr "T"); ("format", VStr "json");
                      ("recordCount", VNum 1);
                      ("exporter", VStr "DataExporter v1.0.0")])
      ∧ (∀ k, k ≠ "metadata" →
              obj_get k merged = obj_get k [("metadata", VStr "mine"); ("a", VNum 1)]).
Proof.
  assert (truthy (opt JsonExportStrategy.getDefaultOptions "includeMetadata") = true)
    as Hmeta by reflexivity.
  destruct (C8_json_transform_wraps_with_metadata "T"
              JsonExportStrategy.getDefaultOptions Hmeta) as [Hseq Hrec].
  split; [exact Hmeta|]. split; [exact (Hseq [VObj [("a", VNum 1)]; VObj []])|].
  split; [reflexivity|].
  exact (Hrec [("metadata", VStr "mine"); ("a", VNum 1)] eq_refl).
Defined.

(** ** The multi-format export *)

Section MultiFormat.

Context {world : Type}.
Variable clock : world → string * world.
Variable path_resolve : value → value → result string.

(** The loop stores, in order, the descriptor of each attempt. *)
Lemma toMultiple_loop_attempts this data formats options : ∀ results (w : world),
  toMultiple_loop clock path_resolve this data formats options results w
  = (fold_left store (attempts clock path_resolve this data formats options w).1 results,
     (attempts clock path_resolve this data formats options w).2).
Proof.
  induction formats as [|format formats IH]; intros results w; simpl; [done|].
  destruct (DataExporter_export _ _ _ _ _ _ w) as [[output|error] w'];
    rewrite IH; by destruct (attempts _ _ _ _ _ _ w').
Qed.

Lemma attempts_formats this data formats options : ∀ (w : world),
  map fst (attempts clock path_resolve this data formats options w).1 = formats.
Proof.
  induction formats as [|format formats IH]; intros w; simpl; [done|].
  destruct (DataExporter_export _ _ _ _ _ _ w) as [r w'].
  specialize (IH w'). destruct (attempts _ _ _ _ _ _ w'). simpl in *. by rewrite IH.
Qed.

(** Each recorded outcome is what the export of that format returned. *)
Lemma attempts_are_exports this data formats options : ∀ (w : world) format r,
  (format, r) ∈ (attempts clock path_resolve this data formats options w).1 →
  ∃ w1 w2,
    DataExporter_export clock path_resolve this data format
      (spread2 (VObj options) (opt options format)) w1 = (r, w2).
Proof.
  induction formats as [|format0 formats IH]; intros w format r; simpl.
  { by intros ?%elem_of_nil. }
  destruct (DataExporter_export _ _ _ _ _ _ w) as [r0 w'] eqn:E.
  specialize (IH w'). destruct (attempts _ _ _ _ _ _ w'). simpl in *.
  intros [[= -> ->]|Hin]%elem_of_cons; [by exists w, w' | by eapply IH].
Qed.

Lemma fold_store_other format (l : list (string * result value)) : ∀ results,
  format ∉ map fst l → obj_get format (fold_left store l results) = obj_get format results.
Proof.
  induction l as [|[f r] l IH]; intros results Hnot; simpl; [done|].
  simpl in Hnot. apply not_elem_of_cons in Hnot as [Hne Hnot].
  rewrite IH by done. unfold store. simpl. by apply obj_get_set_ne.
Qed.

(** After the loop every attempted format maps to the descriptor of one of
    its attempts. *)
Lemma fold_store_attempted format (l : list (string * result value)) : ∀ results,
  format ∈ map fst l →
  ∃ r, (format, r) ∈ l ∧ obj_get format (fold_left store l results) = Some (descriptor r).
Proof.
  induction l as [|[f r] l IH]; intros results Hin; simpl in *.
  { by apply elem_of_nil in Hin. }
  destruct (decide (format ∈ map fst l)) as [Hlater|Hlast].
  - destruct (IH (store results (f, r)) Hlater) as (r' & Hr' & Hget).
    exists r'. split; [by apply list_elem_of_further | exact Hget].
  - apply elem_of_cons in Hin as [->|Hin]; [|contradiction].
    exists r. split; [apply list_elem_of_here|].
    rewrite fold_store_other by done. unfold store. simpl. apply obj_get_set_eq.
Qed.

(** C9.  [toMultiple] returns normally whatever the single exports do.  It
    attempts every requested format, in order, each in the world the
    previous attempt left behind, and the object it returns maps every
    requested format either to the value its export returned or to an
    error descriptor that carries the message of what its export threw. *)
Theorem C9_toMultiple_reports_failures_inline :
  ∀ (this : exporter) (data : value) (formats : list string) (options : fields_t)
    (w : world),
    ∃ results w',
      toMultiple clock path_resolve this data formats options w = (Ok (VObj results), w')
      ∧ map fst (attempts clock path_resolve this data formats options w).1 = formats
      ∧ ∀ format, format ∈ formats →
          ∃ w1 w2,
            (∃ output,
               DataExporter_export clock path_resolve this data format
                 (spread2 (VObj options) (opt options format)) w1 = (Ok output, w2)
               ∧ obj_get format results = Some output)
            ∨ (∃ error,
                 DataExporter_export clock path_resolve this data format
                   (spread2 (VObj options) (opt options format)) w1 = (Throw error, w2)
                 ∧ obj_get format results = Some (VObj [("error", VStr (message error))])).
Proof.
  intros this data formats options w.
  exists (fold_left store (attempts clock path_resolve this data formats options w).1 []),
         (attempts clock path_resolve this data formats options w).2.
  split; [|split].
  - unfold toMultiple. by rewrite toMultiple_loop_attempts.
  - apply attempts_formats.
  - intros format Hin.
    rewrite <-(attempts_formats this data formats options w) in Hin.
    destruct (fold_store_attempted format _ [] Hin) as (r & Hr & Hget).
    destruct (attempts_are_exports _ _ _ _ _ _ _ Hr) as (w1 & w2 & Hexport).
    exists w1, w2. destruct r as [output|error]; [left | right]; eauto.
Qed.

End MultiFormat.

(** The theorem on the simulated world, for the formats json and bogus: the
    unregistered format is reported inline and json is exported. *)
Lemma C9_toMultiple_witness :
  ∃ results w',
    toMultiple Sim.clock Sim.path_resolve (new_DataExporter Sim.clock Sim.fs_save [])
      (VArr [VObj [("a", VNum 1)]]) ["bogus"; "json"] [("outputDir", VNull)] Sim.start
    = (Ok (VObj results), w')
    ∧ obj_get "bogus" results
      = Some (VObj [("error", VStr "Unsupported export format: bogus")])
    ∧ ∃ text, obj_get "json" results = Some (VStr text).
Proof.
  destruct (C9_toMultiple_reports_failures_inline Sim.clock Sim.path_resolve
              (new_DataExporter Sim.clock Sim.fs_save [])
              (VArr [VObj [("a", VNum 1)]]) ["bogus"; "json"] [("outputDir", VNull)] Sim.start)
    as (results & w' & Heq & _ & _).
  exists results, w'. split; [exact Heq|].
  vm_compute in Heq. injection Heq as <- <-. split; [reflexivity|].
  eexists. reflexivity.
Defined.

(** ** CSV serialization *)

Lemma first_occurrences_filter (P : string → Prop) `{∀ k, Decision (P k)} keys :
  first_occurrences (filter P keys) = filter P (first_occurrences keys).
Proof.
  induction keys as [|k keys IH]; [done|].
  destruct (decide (P k)) as [Hk|Hk].
  - rewrite filter_cons_True by done. simpl. rewrite filter_cons_True by done.
    rewrite IH. f_equal. rewrite !list_filter_filter. apply list_filter_iff. tauto.
  - rewrite filter_cons_False by done. simpl. rewrite filter_cons_False by done.
    rewrite IH. rewrite list_filter_filter. apply list_filter_iff.
    intros k'. split; [|tauto]. intros HP. split; [done|]. by intros ->.
Qed.

Lemma first_occurrences_elem_of k keys : k ∈ first_occurrences keys ↔ k ∈ keys.
Proof.
  induction keys as [|k0 keys IH]; simpl; [done|].
  rewrite !elem_of_cons, list_elem_of_filter, IH.
  destruct (decide (k = k0)); tauto.
Qed.

Lemma first_occurrences_NoDup keys : NoDup (first_occurrences keys).
Proof.
  induction keys as [|k keys IH]; simpl; [constructor|].
  apply NoDup_cons. split; [|by apply NoDup_filter].
  rewrite list_elem_of_filter. tauto.
Qed.

(** Adding keys to the insertion-ordered set keeps what is there and appends
    the new keys at their first appearance. *)
Lemma fold_set_add keys : ∀ allKeys,
  fold_left (λ acc key, CsvExportStrategy.set_add key acc) keys allKeys
  = allKeys ++ filter (λ k, k ∉ allKeys) (first_occurrences keys).
Proof.
  induction keys as [|k keys IH]; intros allKeys; simpl.
  { by rewrite app_nil_r. }
  rewrite IH. unfold CsvExportStrategy.set_add. case_bool_decide as Hk.
  - rewrite filter_cons_False by tauto. f_equal.
    rewrite list_filter_filter. apply list_filter_iff.
    intros k'. split; [|tauto]. intros Hk'. split; [done|]. by intros ->.
  - rewrite filter_cons_True by done. rewrite <-app_assoc. simpl. do 2 f_equal.
    rewrite list_filter_filter. apply list_filter_iff.
    intros k'. rewrite not_elem_of_app, list_elem_of_singleton. tauto.
Qed.

Lemma filter_not_elem_of_nil (l : list string) : filter (λ k, k ∉ []) l = l.
Proof.
  induction l as [|k l IH]; [done|].
  rewrite filter_cons_True by apply not_elem_of_nil. by rewrite IH.
Qed.

Lemma collect_keys_records records :
  Forall (λ r, is_record r = true) records →
  CsvExportStrategy.collect_keys records
  = first_occurrences (concat (map object_keys records)).
Proof.
  intros Hrec. unfold CsvExportStrategy.collect_keys.
  assert (∀ allKeys,
    fold_left
      (λ allKeys obj,
         if truthy obj && String.eqb (typeof obj) "object"
         then fold_left (λ acc key, CsvExportStrategy.set_add key acc) (object_keys obj) allKeys
         else allKeys) records allKeys
    = fold_left (λ acc key, CsvExportStrategy.set_add key acc)
        (concat (map object_keys records)) allKeys) as H.
  { induction Hrec as [|r records Hr _ IH]; intros allKeys; simpl; [done|].
    destruct r; try discriminate. simpl. by rewrite fold_left_app, IH. }
  rewrite H, fold_set_add. simpl. apply filter_not_elem_of_nil.
Qed.

Lemma elem_of_concat_keys k records :
  k ∈ concat (map object_keys records) ↔ ∃ r, r ∈ records ∧ k ∈ object_keys r.
Proof.
  induction records as [|r records IH]; simpl.
  - split; [by intros ?%elem_of_nil | by intros (r & ?%elem_of_nil & _)].
  - rewrite elem_of_app, IH. split.
    + intros [H|(r' & H1 & H2)].
      * exists r. split; [apply list_elem_of_here | done].
      * exists r'. split; [by apply list_elem_of_further | done].
    + intros (r' & [->|H1]%elem_of_cons & H2); [by left | right; eauto].
Qed.

Lemma rmap_ok {A B} (f : A → B) (l : list A) : rmap (λ a, Ok (f a)) l = Ok (map f l).
Proof. induction l as [|a l IH]; simpl; [done|]. by rewrite IH. Qed.

(** The cells of a record's row: one formatted value per header. *)
Lemma row_cells_record headers fields options :
  CsvExportStrategy.row_cells headers (VObj fields) options
  = Ok (map (λ header,
               CsvExportStrategy.formatCsvValue
                 (default VUndefined (obj_get header fields)) options) headers).
Proof. unfold CsvExportStrategy.row_cells. simpl. apply rmap_ok. Qed.

(** The data rows of a sequence of records. *)
Lemma data_rows_records headers options records :
  Forall (λ r, is_record r = true) records →
  rmap (λ obj, rowData ←! CsvExportStrategy.row_cells headers obj options;
               Ok (CsvExportStrategy.formatCsvRow rowData options)) records
  = Ok (map (λ r,
               CsvExportStrategy.formatCsvRow
                 (map (λ header,
                         CsvExportStrategy.formatCsvValue
                           (default VUndefined (obj_get header (own_entries r))) options)
                      headers) options) records).
Proof.
  induction 1 as [|r records Hr _ IH]; simpl; [done|].
  destruct r; try discriminate. rewrite row_cells_record. simpl. by rewrite IH.
Qed.

(** A row of keys is the keys themselves joined with the separator. *)
Lemma formatCsvRow_keys headers options :
  CsvExportStrategy.formatCsvRow (map VStr headers) options
  = join (separator options) headers.
Proof.
  unfold CsvExportStrategy.formatCsvRow, array_join, separator.
  f_equal. rewrite map_map. apply map_id.
Qed.

Lemma string_app_cons c (s t : string) : String c s +:+ t = String c (s +:+ t).
Proof. reflexivity. Qed.

Lemma string_app_empty_l (t : string) : EmptyString +:+ t = t.
Proof. reflexivity. Qed.

Lemma string_app_empty_r (s : string) : s +:+ EmptyString = s.
Proof. induction s as [|c s IH]; [done|]. by rewrite string_app_cons, IH. Qed.

Lemma string_app_assoc (s t u : string) : (s +:+ t) +:+ u = s +:+ (t +:+ u).
Proof. induction s as [|c s IH]; [done|]. by rewrite !string_app_cons, IH. Qed.

Lemma string_length_app (s t : string) :
  String.length (s +:+ t) = String.length s + String.length t.
Proof. induction s as [|c s IH]; [done|]. rewrite string_app_cons. simpl. by rewrite IH. Qed.

(** The rows of a sequence of records: the header row when requested, then
    one row per record. *)
Lemma build_rows_records records options :
  Forall (λ r, is_record r = true) records →
  CsvExportStrategy.build_rows records options
  = Ok ((if truthy (opt options "includeHeaders")
         then [join (separator options) (CsvExportStrategy.collect_keys records)]
         else [])
        ++ map (λ r,
                  CsvExportStrategy.formatCsvRow
                    (map (λ header,
                            CsvExportStrategy.formatCsvValue
                              (default VUndefined (obj_get header (own_entries r))) options)
                         (CsvExportStrategy.collect_keys records)) options) records).
Proof.
  intros Hrec. unfold CsvExportStrategy.build_rows.
  rewrite data_rows_records by done. simpl. by rewrite formatCsvRow_keys.
Qed.

(** The content is its rows joined by line breaks, the empty sequence
    included. *)
Lemma generateContent_joins_rows records options rows :
  CsvExportStrategy.build_rows records options = Ok rows →
  CsvExportStrategy.generateContent (VArr records) options = Ok (join newline rows).
Proof.
  destruct records as [|r records]; [|by intros H; simpl in *; rewrite H].
  unfold CsvExportStrategy.build_rows. simpl. intros [= <-].
  rewrite app_nil_r. by destruct (truthy _).
Qed.

(** ** The header row *)

Lemma includes_cons c rest needle :
  includes (String c rest) needle
  = String.prefix needle (String c rest) || includes rest needle.
Proof. reflexivity. Qed.

Lemma prefix_single a c rest :
  String.prefix (String a EmptyString) (String c rest) = Ascii.eqb a c.
Proof.
  change (String.prefix (String a EmptyString) (String c rest))
    with (if ascii_dec a c then String.prefix EmptyString rest else false).
  destruct (ascii_dec a c) as [->|Hne].
  - rewrite Ascii.eqb_refl. by destruct rest.
  - symmetry. by apply Ascii.eqb_neq.
Qed.

Lemma includes_char_cons a c rest :
  includes (String c rest) (String a EmptyString)
  = Ascii.eqb a c || includes rest (String a EmptyString).
Proof. by rewrite includes_cons, prefix_single. Qed.

Lemma includes_quote_doubled s :
  includes s (String dquote EmptyString) = true →
  includes (double_quotes s) (String dquote EmptyString) = true.
Proof.
  induction s as [|c s IH]; [done|].
  rewrite includes_char_cons. simpl double_quotes.
  destruct (Ascii.eqb c dquote) eqn:E.
  - intros _. rewrite includes_char_cons. by rewrite Ascii.eqb_refl.
  - rewrite includes_char_cons. rewrite Ascii.eqb_sym, E. simpl. exact IH.
Qed.

(** C10.  With headers requested, the first row of the CSV content of a
    non-empty sequence is the column keys themselves joined with the
    separator: no key passes through the value formatter.  A data cell
    holding a string that contains the delimiter, a quote or a line break
    is wrapped in quotes when quoteStrings is set, after its quotes were
    doubled when escapeQuotes is set; the same string as a key stands
    in the header row as it is. *)
Theorem C10_csv_header_row_is_raw :
  ∀ (items : list value) (options : fields_t) (content : string),
    items ≠ [] →
    truthy (opt options "includeHeaders") = true →
    CsvExportStrategy.generateContent (VArr items) options = Ok content →
    (∃ dataRows,
       content
       = join newline
           (join (separator options) (CsvExportStrategy.collect_keys items) :: dataRows)
       ∧ length dataRows = length items)
    ∧ (∀ key,
         truthy (opt options "quoteStrings") = true →
         includes key (to_string (opt options "delimiter"))
         || includes key (String dquote EmptyString)
         || includes key newline
         || includes key (String return_char EmptyString) = true →
         CsvExportStrategy.formatCsvValue (VStr key) options
         = VStr (quoted (if truthy (opt options "escapeQuotes")
                            && includes key (String dquote EmptyString)
                         then double_quotes key else key))).
Proof.
  intros items options content Hne Hheaders Hcontent. split.
  - destruct items as [|item items]; [done|]. simpl in Hcontent.
    unfold CsvExportStrategy.build_rows in Hcontent. rewrite Hheaders in Hcontent.
    destruct (rmap _ (item :: items)) as [dataRows|e] eqn:Hrows; [|done].
    simpl in Hcontent. injection Hcontent as <-. exists dataRows.
    rewrite formatCsvRow_keys. split; [done|].
    clear -Hrows. revert dataRows Hrows.
    generalize (CsvExportStrategy.collect_keys (item :: items)). intros headers.
    generalize (item :: items). clear. intros l.
    induction l as [|x l IH]; simpl; intros dataRows.
    + by intros [= <-].
    + destruct (CsvExportStrategy.row_cells headers x options); simpl; [|done].
      destruct (rmap _ l) as [rows|]; simpl; [|done].
      intros [= <-]. simpl. f_equal. by apply IH.
  - intros key Hquote Hcond. unfold CsvExportStrategy.formatCsvValue.
    simpl to_string. rewrite Hquote. simpl andb at 2.
    destruct (includes key (String dquote EmptyString)) eqn:Hq.
    + rewrite andb_true_r. destruct (truthy (opt options "escapeQuotes")).
      * rewrite (includes_quote_doubled key Hq). by rewrite orb_true_r.
      * rewrite Hq. by rewrite orb_true_r.
    + rewrite andb_false_r. rewrite Hq. by rewrite Hcond.
Qed.

(** The theorem at one record whose key and value both contain the
    delimiter, with the default options of the CSV strategy: the key stands
    bare in the header row, the value is quoted in its cell. *)
Lemma C10_csv_header_witness :
  [VObj [("a,b", VStr "x,y")]] ≠ []
  ∧ truthy (opt CsvExportStrategy.getDefaultOptions "includeHeaders") = true
  ∧ CsvExportStrategy.generateContent (VArr [VObj [("a,b", VStr "x,y")]])
      CsvExportStrategy.getDefaultOptions
    = Ok ("a,b" +:+ newline +:+ quoted "x,y")
  ∧ (∃ dataRows,
       "a,b" +:+ newline +:+ quoted "x,y"
       = join newline
           (join (separator CsvExportStrategy.getDefaultOptions)
              (CsvExportStrategy.collect_keys [VObj [("a,b", VStr "x,y")]]) :: dataRows)
       ∧ length dataRows = 1)
  ∧ CsvExportStrategy.formatCsvValue (VStr "a,b") CsvExportStrategy.getDefaultOptions
    = VStr (quoted "a,b").
Proof.
  assert ([VObj [("a,b", VStr "x,y")]] ≠ []) as Hne by discriminate.
  destruct (C10_csv_header_row_is_raw [VObj [("a,b", VStr "x,y")]]
              CsvExportStrategy.getDefaultOptions
              ("a,b" +:+ newline +:+ quoted "x,y") Hne eq_refl eq_refl)
    as [Hrows Hcell].
  split; [exact Hne|]. split; [reflexivity|]. split; [reflexivity|].
  split; [exact Hrows|]. exact (Hcell "a,b" eq_refl eq_refl).
Defined.

(** ** JSON texts: white space, string literals and number tokens *)

Lemma skip_ws_space ws rest : all_space ws = true → skip_ws (ws +:+ rest) = skip_ws rest.
Proof.
  induction ws as [|c ws IH]; [done|]. simpl. intros [Hc Hws]%andb_true_iff.
  rewrite Hc. by apply IH.
Qed.

Lemma skip_ws_stop c rest : is_json_space c = false → skip_ws (String c rest) = String c rest.
Proof. intros H. simpl. by rewrite H. Qed.

(** Reading back one escaped character. *)
Lemma parse_string_body_escape_char c t :
  parse_string_body (json_escape_char c +:+ t)
  = r ← parse_string_body t; Some (String c r.1, r.2).
Proof.
  destruct c as [[] [] [] [] [] [] [] []]; reflexivity.
Qed.

Lemma parse_string_body_escape s rest :
  parse_string_body (json_escape s +:+ String dquote rest) = Some (s, rest).
Proof.
  induction s as [|c s IH]; [done|].
  simpl json_escape. rewrite string_app_assoc, parse_string_body_escape_char, IH. done.
Qed.

(** Reading back a quoted string. *)
Lemma json_quote_cons s rest :
  json_quote s +:+ rest = String dquote (json_escape s +:+ String dquote rest).
Proof.
  unfold json_quote, quoted. rewrite string_app_cons. f_equal.
  by rewrite string_app_assoc.
Qed.

Lemma pretty_N_char_digit d :
  (d < 10)%N → is_digit (pretty_N_char d) = true ∧ digit_value (pretty_N_char d) = d.
Proof.
  intros Hd.
  assert (d = 0 ∨ d = 1 ∨ d = 2 ∨ d = 3 ∨ d = 4 ∨ d = 5 ∨ d = 6 ∨ d = 7 ∨ d = 8 ∨ d = 9)%N
    as H by lia.
  repeat (destruct H as [->|H]; [by split|]). subst. by split.
Qed.

Lemma all_digits_app s t : all_digits (s +:+ t) = all_digits s && all_digits t.
Proof.
  induction s as [|c s IH]; [done|].
  rewrite string_app_cons. simpl. by rewrite IH, andb_assoc.
Qed.

(** The digits that [pretty] writes for a natural number denote it. *)
Lemma pretty_N_go_digits x : ∀ s,
  ∃ p, pretty_N_go x s = p +:+ s
       ∧ all_digits p = true
       ∧ (∀ t, digits_to_N_from 0 (p +:+ t) = digits_to_N_from x t)
       ∧ ((0 < x)%N → p ≠ EmptyString).
Proof.
  induction (N.lt_wf_0 x) as [x _ IH]; intros s.
  assert (x = 0 ∨ 0 < x)%N as [->|Hpos] by lia.
  { exists EmptyString. rewrite pretty_N_go_0. repeat split; done. }
  rewrite pretty_N_go_step by done.
  destruct (IH (x `div` 10)%N (N.div_lt x 10 Hpos eq_refl)
              (String (pretty_N_char (x `mod` 10)) s)) as (p & Hp & Hdigits & Hvalue & _).
  destruct (pretty_N_char_digit (x `mod` 10)%N) as [Hd Hv].
  { by apply N.mod_lt. }
  exists (p +:+ String (pretty_N_char (x `mod` 10)) EmptyString).
  split; [|split; [|split]].
  - rewrite Hp. by rewrite string_app_assoc.
  - rewrite all_digits_app, Hdigits. simpl. by rewrite Hd.
  - intros t. rewrite string_app_assoc, string_app_cons, string_app_empty_l.
    rewrite Hvalue. simpl. rewrite Hd, Hv. f_equal.
    rewrite (N.div_mod x 10) at 3 by done. lia.
  - intros _. destruct p; discriminate.
Qed.

Lemma pretty_N_digits (x : N) :
  ∃ c p, pretty x = String c p
         ∧ is_digit c = true ∧ all_digits p = true
         ∧ digits_to_N (String c p) = Some x.
Proof.
  unfold pretty, pretty_N. case_decide as Hx.
  { subst. by exists "0"%char, EmptyString. }
  destruct (pretty_N_go_digits x EmptyString) as (p & Hp & Hdigits & Hvalue & Hne).
  rewrite string_app_empty_r in Hp. rewrite Hp.
  destruct p as [|c p]; [exfalso; apply Hne; [lia | done]|].
  exists c, p. simpl in Hdigits. apply andb_true_iff in Hdigits as [Hc Hp'].
  repeat split; try done.
  specialize (Hvalue EmptyString). rewrite string_app_empty_r in Hvalue.
  unfold digits_to_N. by rewrite Hvalue.
Qed.

Lemma span_digits_app ds rest :
  all_digits ds = true → ends_number rest = true → span_digits (ds +:+ rest) = (ds, rest).
Proof.
  intros Hds Hrest. induction ds as [|c ds IH].
  - rewrite string_app_empty_l. destruct rest as [|c rest]; [done|].
    simpl in *. apply andb_true_iff in Hrest as [Hc _].
    apply negb_true_iff in Hc. by rewrite Hc.
  - simpl in Hds. apply andb_true_iff in Hds as [Hc Hds].
    rewrite string_app_cons. simpl. by rewrite Hc, IH.
Qed.

Lemma ends_number_no_fraction rest :
  ends_number rest = true → starts_fraction_or_exponent rest = false.
Proof.
  destruct rest as [|c rest]; [done|]. unfold ends_number.
  intros [_ H]%andb_true_iff. by apply negb_true_iff.
Qed.

(** A digit is none of the characters the parser dispatches on. *)
Lemma digit_is_plain c :
  is_digit c = true →
  is_json_space c = false ∧ Ascii.eqb c "n"%char = false ∧ Ascii.eqb c "t"%char = false
  ∧ Ascii.eqb c "f"%char = false ∧ Ascii.eqb c dquote = false
  ∧ Ascii.eqb c "["%char = false ∧ Ascii.eqb c "{"%char = false
  ∧ Ascii.eqb c "]"%char = false ∧ Ascii.eqb c "}"%char = false
  ∧ Ascii.eqb c "-"%char = false.
Proof.
  destruct c as [[] [] [] [] [] [] [] []]; intros H; try discriminate H; by repeat split.
Qed.

Lemma parse_number_digits (n : N) rest :
  ends_number rest = true →
  parse_number (pretty n +:+ rest) = Some (Z.of_N n, rest).
Proof.
  intros Hrest. destruct (pretty_N_digits n) as (c & p & Hpretty & Hc & Hp & Hvalue).
  unfold parse_number. rewrite Hpretty, string_app_cons.
  destruct (digit_is_plain c Hc) as (_ & _ & _ & _ & _ & _ & _ & _ & _ & Hminus).
  rewrite Hminus. rewrite <-string_app_cons, span_digits_app; [|by simpl; rewrite Hc|done].
  rewrite Hvalue. simpl. rewrite Hpretty, String.eqb_refl.
  by rewrite ends_number_no_fraction.
Qed.

(** Reading back a number. *)
Lemma parse_number_pretty (z : Z) rest :
  ends_number rest = true →
  parse_number (number_to_string z +:+ rest) = Some (z, rest).
Proof.
  intros Hrest. unfold number_to_string.
  destruct z as [|x|x].
  - apply (parse_number_digits 0 rest Hrest).
  - apply (parse_number_digits (Npos x) rest Hrest).
  - change (pretty (Z.neg x)) with ("-" +:+ pretty (Npos x)).
    destruct (pretty_N_digits (Npos x)) as (c & p & Hpretty & Hc & Hp & Hvalue).
    unfold parse_number. rewrite string_app_assoc.
    change ("-" +:+ (pretty (N.pos x) +:+ rest)) with (String "-"%char (pretty (N.pos x) +:+ rest)).
    cbv iota beta. change (Ascii.eqb "-"%char "-"%char) with true. cbv iota.
    rewrite Hpretty at 1. rewrite span_digits_app; [|by simpl; rewrite Hc|done].
    rewrite Hvalue. simpl. rewrite Hpretty, String.eqb_refl.
    by rewrite ends_number_no_fraction.
Qed.

(** The first character of a written number. *)
Lemma number_to_string_head z :
  ∃ c t, number_to_string z = String c t
         ∧ (is_digit c = true ∨ c = "-"%char).
Proof.
  unfold number_to_string. destruct z as [|x|x].
  - exists "0"%char, EmptyString. split; [done | by left].
  - destruct (pretty_N_digits (Npos x)) as (c & p & Hpretty & Hc & _).
    exists c, p. split; [exact Hpretty | by left].
  - exists "-"%char, (pretty (Npos x)). split; [done | by right].
Qed.

Lemma all_space_app s t : all_space (s +:+ t) = all_space s && all_space t.
Proof.
  induction s as [|c s IH]; [done|].
  rewrite string_app_cons. simpl. by rewrite IH, andb_assoc.
Qed.

Lemma layout_pre_space gap indent :
  all_space gap = true → all_space indent = true → all_space (layout_pre gap indent) = true.
Proof.
  intros Hg Hi. unfold layout_pre. destruct (String.eqb gap EmptyString); [done|].
  by rewrite !all_space_app, Hg, Hi.
Qed.

Lemma layout_post_space gap indent :
  all_space indent = true → all_space (layout_post gap indent) = true.
Proof.
  intros Hi. unfold layout_post. destruct (String.eqb gap EmptyString); [done|].
  by rewrite all_space_app, Hi.
Qed.

(** The two layouts of [json_wrap] at once. *)
Lemma json_wrap_layout open close gap indent part parts :
  json_wrap open close gap indent (part :: parts)
  = open +:+ layout_pre gap indent
         +:+ join ("," +:+ layout_pre gap indent) (part :: parts)
         +:+ layout_post gap indent +:+ close.
Proof.
  unfold json_wrap, layout_pre, layout_post.
  destruct (String.eqb gap EmptyString); [|done].
  by rewrite !string_app_empty_l.
Qed.

Lemma join_cons2 sep a b l : join sep (a :: b :: l) = a +:+ sep +:+ join sep (b :: l).
Proof. reflexivity. Qed.

Lemma join_single sep a : join sep [a] = a.
Proof. reflexivity. Qed.

Lemma space_ends_number c rest : is_json_space c = true → ends_number (String c rest) = true.
Proof. destruct c as [[] [] [] [] [] [] [] []]; intros H; try discriminate H; reflexivity. Qed.

Lemma space_then_ends_number ws c rest :
  all_space ws = true → ends_number (String c rest) = true →
  ends_number (ws +:+ String c rest) = true.
Proof.
  destruct ws as [|c' ws]; [done|]. simpl all_space. intros [H _]%andb_true_iff _.
  exact (space_ends_number c' (ws +:+ String c rest) H).
Qed.

(** The first character of a serialized value is no white space and closes
    nothing. *)
Lemma serialize_json_head gap indent v text :
  serialize_json gap indent v = Some text →
  ∃ c t, text = String c t ∧ is_json_space c = false
         ∧ Ascii.eqb c "]"%char = false ∧ Ascii.eqb c "}"%char = false.
Proof.
  destruct v as [| | [] | n | s | d | items | fields]; simpl; intros [= <-];
    try (by eexists _, _).
  - destruct (number_to_string_head n) as (c & t & -> & [Hc| ->]).
    + exists c, t. destruct (digit_is_plain c Hc) as (? & _ & _ & _ & _ & _ & _ & ? & ? & _).
      by repeat split.
    + by eexists _, _.
  - match goal with |- context [json_wrap _ _ _ _ ?parts] => destruct parts end;
      unfold json_wrap; [by eexists _, _|].
    destruct (String.eqb gap EmptyString); by eexists _, _.
  - match goal with |- context [json_wrap _ _ _ _ ?parts] => destruct parts end;
      unfold json_wrap; [by eexists _, _|].
    destruct (String.eqb gap EmptyString); by eexists _, _.
Qed.

(** What [parse_value] does after white space, by the first character. *)
Lemma parse_value_array fuel ws body :
  all_space ws = true →
  parse_value (S fuel) (ws +:+ String "["%char body)
  = match skip_ws body with
    | EmptyString => None
    | String c' rest' =>
        if Ascii.eqb c' "]"%char then Some (VArr [], rest')
        else r ← parse_elements fuel body; Some (VArr r.1, r.2)
    end.
Proof. intros Hws. cbn [parse_value]. by rewrite skip_ws_space. Qed.

Lemma parse_value_object fuel ws body :
  all_space ws = true →
  parse_value (S fuel) (ws +:+ String "{"%char body)
  = match skip_ws body with
    | EmptyString => None
    | String c' rest' =>
        if Ascii.eqb c' "}"%char then Some (VObj [], rest')
        else r ← parse_members fuel body []; Some (VObj r.1, r.2)
    end.
Proof. intros Hws. cbn [parse_value]. by rewrite skip_ws_space. Qed.

Lemma parse_value_string fuel ws body :
  all_space ws = true →
  parse_value (S fuel) (ws +:+ String dquote body)
  = r ← parse_string_body body; Some (VStr r.1, r.2).
Proof. intros Hws. cbn [parse_value]. by rewrite skip_ws_space. Qed.

Lemma parse_value_number fuel ws z rest :
  all_space ws = true → ends_number rest = true →
  parse_value (S fuel) (ws +:+ number_to_string z +:+ rest) = Some (VNum z, rest).
Proof.
  intros Hws Hrest. cbn [parse_value]. rewrite skip_ws_space by done.
  pose proof (parse_number_pretty z rest Hrest) as Hparse.
  destruct (number_to_string_head z) as (c & t & Hz & [Hc| ->]).
  - rewrite Hz in *. rewrite string_app_cons in *.
    destruct (digit_is_plain c Hc) as (Hs & Hn & Ht & Hf & Hq & Ha & Ho & _).
    rewrite skip_ws_stop by done. rewrite Hn, Ht, Hf, Hq, Ha, Ho. by rewrite Hparse.
  - rewrite Hz in *. rewrite string_app_cons in *.
    rewrite skip_ws_stop by done. cbn [Ascii.eqb]. simpl Ascii.eqb.
    by rewrite Hparse.
Qed.

Lemma parse_elements_reads_back gap indent pre post :
  all_space gap = true → all_space indent = true →
  all_space pre = true → all_space post = true →
  ∀ items texts,
    Forall reads_back items →
    Forall2 (λ x t, serialize_json gap indent x = Some t) items texts →
    items ≠ [] →
    ∀ ws fuel rest,
      all_space ws = true →
      String.length (join ("," +:+ pre) texts +:+ post +:+ "]") < fuel →
      parse_elements fuel (ws +:+ join ("," +:+ pre) texts +:+ post +:+ "]" +:+ rest)
      = Some (items, rest).
Proof.
  intros Hgap Hindent Hpre Hpost items texts Hback Htexts.
  induction Htexts as [|x t items texts Hx Htexts IH]; [done|]. intros _.
  apply Forall_cons in Hback as [Hbx Hback]. specialize (IH Hback).
  intros ws fuel rest Hws Hfuel.
  destruct fuel as [|fuel]; [lia|]. cbn [parse_elements].
  destruct Htexts as [|y t' items texts Hy Htexts].
  - rewrite join_single in *. rewrite !string_length_app in Hfuel. simpl in Hfuel.
    rewrite (Hbx gap indent t ws (post +:+ "]" +:+ rest) fuel); try done.
    + simpl. rewrite skip_ws_space by done. reflexivity.
    + by apply space_then_ends_number.
    + lia.
  - rewrite join_cons2 in *. rewrite !string_app_assoc in *.
    rewrite !string_length_app in Hfuel.
    change ("," +:+ pre +:+ ?s) with (String ","%char (pre +:+ s)) in *.
    rewrite (Hbx gap indent t ws _ fuel); try done; [|simpl in Hfuel; lia].
    simpl. rewrite IH; [done | done | done |].
    rewrite !string_length_app. simpl in *. lia.
Qed.

Lemma parse_members_reads_back gap indent pre post :
  all_space gap = true → all_space indent = true →
  all_space pre = true → all_space post = true →
  ∀ fields texts,
    Forall (λ kv : string * value, reads_back kv.2) fields →
    Forall2 (λ (kv : string * value) t, serialize_json gap indent kv.2 = Some t) fields texts →
    fields ≠ [] →
    ∀ acc ws fuel rest,
      all_space ws = true →
      String.length (join ("," +:+ pre) (member_texts gap fields texts) +:+ post +:+ "}") < fuel →
      parse_members fuel
        (ws +:+ join ("," +:+ pre) (member_texts gap fields texts) +:+ post +:+ "}" +:+ rest) acc
      = Some (assign_fields acc fields, rest).
Proof.
  intros Hgap Hindent Hpre Hpost fields texts Hback Htexts.
  induction Htexts as [|[k x] t fields texts Hx Htexts IH]; [done|]. intros _.
  apply Forall_cons in Hback as [Hbx Hback]. specialize (IH Hback).
  intros acc ws fuel rest Hws Hfuel.
  destruct fuel as [|fuel]; [lia|]. cbn [parse_members].
  assert (∃ sp, all_space sp = true ∧ ∀ tail,
            json_member gap k t +:+ tail
            = String dquote (json_escape k +:+ String dquote (String ":"%char (sp +:+ t +:+ tail))))
    as (sp & Hsp & Hmember).
  { exists (if String.eqb gap EmptyString then EmptyString else " "). split.
    - by destruct (String.eqb gap EmptyString).
    - intros tail. unfold json_member. rewrite !string_app_assoc.
      by rewrite json_quote_cons. }
  assert (String.length t < String.length (json_member gap k t)) as Hlen.
  { unfold json_member, json_quote, quoted. rewrite !string_length_app. simpl.
    rewrite !string_length_app. simpl. lia. }
  simpl in Hx, Hbx.
  assert (member_texts gap ((k, x) :: fields) (t :: texts)
          = json_member gap k t :: member_texts gap fields texts) as Hm by done.
  rewrite Hm in *. clear Hm.
  generalize dependent (json_member gap k t). intros m Hfuel Hmember Hlen.
  destruct Htexts as [|[k' y] t' fields texts Hy Htexts].
  - change (member_texts gap [] []) with (@nil string) in *. rewrite join_single in *.
    rewrite !string_length_app in Hfuel. simpl in Hfuel.
    rewrite Hmember. rewrite skip_ws_space by done.
    rewrite skip_ws_stop by done. rewrite Ascii.eqb_refl.
    rewrite parse_string_body_escape. simpl.
    rewrite (Hbx gap indent t sp (post +:+ "}" +:+ rest) fuel); try done.
    + simpl. rewrite skip_ws_space by done. reflexivity.
    + by apply space_then_ends_number.
    + lia.
  - assert (member_texts gap ((k', y) :: fields) (t' :: texts)
            = json_member gap k' t' :: member_texts gap fields texts) as Hm by done.
    rewrite Hm in *. rewrite join_cons2 in *. rewrite <-Hm in *. clear Hm.
    rewrite !string_app_assoc in *. rewrite !string_length_app in Hfuel.
    change ("," +:+ pre +:+ ?s) with (String ","%char (pre +:+ s)) in *.

    rewrite Hmember. rewrite skip_ws_space by done.
    rewrite skip_ws_stop by done. rewrite Ascii.eqb_refl.
    rewrite parse_string_body_escape. simpl.
    rewrite (Hbx gap indent t sp _ fuel); try done; [|simpl in Hfuel; lia].
    simpl. rewrite IH; [done | done | done |].
    rewrite !string_length_app. simpl in *. lia.
Qed.

Lemma json_value_array items :
  json_value (VArr items) = true → Forall (λ x, json_value x = true) items.
Proof.
  simpl. induction items as [|x items IH]; [constructor|].
  intros [Hx Hrest]%andb_true_iff. constructor; [done | by apply IH].
Qed.

Lemma json_value_object fields :
  json_value (VObj fields) = true →
  canonical fields = true ∧ Forall (λ kv : string * value, json_value kv.2 = true) fields.
Proof.
  simpl. intros [Hc Hall]%andb_true_iff. split; [done|].
  clear Hc. induction fields as [|[k x] fields IH]; [constructor|].
  apply andb_true_iff in Hall as [Hx Hrest]. constructor; [done | by apply IH].
Qed.

Lemma serialize_json_some gap indent v :
  json_value v = true → ∃ text, serialize_json gap indent v = Some text.
Proof. destruct v as [| | [] | | | | |]; simpl; intros H; try discriminate H; eauto. Qed.

Lemma serialize_json_array gap indent items :
  serialize_json gap indent (VArr items)
  = Some (json_wrap "[" "]" gap indent
            (map (λ x, default "null" (serialize_json gap (indent +:+ gap) x)) items)).
Proof.
  reflexivity.
Qed.

Lemma serialize_json_object gap indent fields texts :
  Forall2 (λ (kv : string * value) t, serialize_json gap (indent +:+ gap) kv.2 = Some t)
    fields texts →
  serialize_json gap indent (VObj fields)
  = Some (json_wrap "{" "}" gap indent (member_texts gap fields texts)).
Proof.
  intros H. simpl. do 2 f_equal.
  induction H as [|[k x] t fields texts Hx _ IH]; [done|].
  simpl in Hx. rewrite Hx. unfold member_texts. simpl. by rewrite IH.
Qed.

Lemma serialized_texts gap indent (items : list value) :
  Forall (λ x, json_value x = true) items →
  ∃ texts, Forall2 (λ x t, serialize_json gap indent x = Some t) items texts
           ∧ map (λ x, default "null" (serialize_json gap indent x)) items = texts.
Proof.
  induction 1 as [|x items Hx _ (texts & IH1 & IH2)].
  - exists []. by split; [constructor|].
  - destruct (serialize_json_some gap indent x Hx) as [t Ht].
    exists (t :: texts). split; [by constructor|]. simpl. by rewrite Ht, IH2.
Qed.

Lemma serialized_member_texts gap indent (fields : fields_t) :
  Forall (λ kv : string * value, json_value kv.2 = true) fields →
  ∃ texts, Forall2 (λ (kv : string * value) t, serialize_json gap indent kv.2 = Some t)
            fields texts.
Proof.
  induction 1 as [|[k x] fields Hx _ (texts & IH)].
  - exists []. constructor.
  - destruct (serialize_json_some gap indent x Hx) as [t Ht].
    exists (t :: texts). by constructor.
Qed.

Lemma skip_ws_join_head sep c body parts tail :
  is_json_space c = false →
  ∃ r, skip_ws (join sep (String c body :: parts) +:+ tail) = String c r.
Proof.
  intros Hc. destruct parts as [|part parts].
  - rewrite join_single, string_app_cons. eexists. by apply skip_ws_stop.
  - rewrite join_cons2, string_app_cons. eexists. by apply skip_ws_stop.
Qed.

Lemma json_member_head gap k t : ∃ body, json_member gap k t = String dquote body.
Proof. unfold json_member, json_quote, quoted. rewrite string_app_cons. eauto. Qed.

(** Every representable value is read back from its serialization, in the
    compact layout and in the indented one. *)
Lemma json_value_reads_back v : json_value v = true → reads_back v.
Proof.
  induction v as [| | b | n | s | d | items IH | fields IH] using value_nested_ind;
    intros Hjson; try discriminate Hjson;
    intros gap indent text ws rest fuel Hgap Hindent Hws Htext Hrest Hfuel;
    (destruct fuel as [|fuel]; [lia|]).
  - injection Htext as <-. cbn [parse_value]. rewrite skip_ws_space by done. reflexivity.
  - destruct b; injection Htext as <-; cbn [parse_value];
      rewrite skip_ws_space by done; reflexivity.
  - injection Htext as <-. by apply parse_value_number.
  - injection Htext as <-. rewrite json_quote_cons.
    rewrite parse_value_string by done. by rewrite parse_string_body_escape.
  - apply json_value_array in Hjson.
    destruct (serialized_texts gap (indent +:+ gap) items Hjson) as (texts & Htexts & Hmap).
    rewrite serialize_json_array, Hmap in Htext. injection Htext as <-.
    assert (Forall reads_back items) as Hback.
    { clear -IH Hjson. induction items as [|x items IHi]; [constructor|].
      apply Forall_cons in IH as [IH1 IH2]. apply Forall_cons in Hjson as [H1 H2].
      constructor; [by apply IH1 | by apply IHi]. }
    destruct Htexts as [|x t items texts Hx Htexts].
    { unfold json_wrap. rewrite string_app_assoc.
      change ("[" +:+ "]" +:+ rest) with (String "["%char (String "]"%char rest)).
      rewrite parse_value_array by done. reflexivity. }
    rewrite json_wrap_layout in *. rewrite !string_app_assoc.
    change ("[" +:+ ?s) with (String "["%char s) in *.
    rewrite parse_value_array by done.
    destruct (serialize_json_head _ _ _ _ Hx) as (c & t0 & -> & Hc1 & Hc2 & _).
    assert (all_space (layout_pre gap indent) = true) as Hpre
      by by apply layout_pre_space.
    assert (all_space (layout_post gap indent) = true) as Hpost
      by by apply layout_post_space.
    rewrite skip_ws_space by done.
    destruct (skip_ws_join_head ("," +:+ layout_pre gap indent) c t0 texts
                (layout_post gap indent +:+ "]" +:+ rest) Hc1) as [r Hskip].
    rewrite Hskip, Hc2.
    erewrite (parse_elements_reads_back gap (indent +:+ gap)); try done.
    + by rewrite all_space_app, Hindent, Hgap.
    + by constructor.
    + simpl in Hfuel. rewrite !string_length_app in Hfuel. simpl in Hfuel.
      rewrite !string_length_app. simpl. lia.
  - apply json_value_object in Hjson as [Hcanon Hjson].
    destruct (serialized_member_texts gap (indent +:+ gap) fields Hjson) as (texts & Htexts).
    rewrite (serialize_json_object _ _ _ _ Htexts) in Htext. injection Htext as <-.
    assert (Forall (λ kv : string * value, reads_back kv.2) fields) as Hback.
    { clear -IH Hjson. induction fields as [|kv fields IHf]; [constructor|].
      apply Forall_cons in IH as [IH1 IH2]. apply Forall_cons in Hjson as [H1 H2].
      constructor; [by apply IH1 | by apply IHf]. }
    destruct Htexts as [|[k x] t fields texts Hx Htexts].
    { change (json_wrap "{" "}" gap indent (member_texts gap [] []) +:+ rest)
        with (String "{"%char (String "}"%char rest)).
      rewrite parse_value_object by done. reflexivity. }
    assert (member_texts gap ((k, x) :: fields) (t :: texts)
            = json_member gap k t :: member_texts gap fields texts) as Hm by done.
    rewrite Hm in *.
    rewrite json_wrap_layout in *. rewrite !string_app_assoc.
    change ("{" +:+ ?s) with (String "{"%char s) in *.
    rewrite parse_value_object by done.
    assert (all_space (layout_pre gap indent) = true) as Hpre
      by by apply layout_pre_space.
    assert (all_space (layout_post gap indent) = true) as Hpost
      by by apply layout_post_space.
    rewrite skip_ws_space by done.
    destruct (json_member_head gap k t) as [body Hbody].
    destruct (skip_ws_join_head ("," +:+ layout_pre gap indent) dquote body
                (member_texts gap fields texts)
                (layout_post gap indent +:+ "}" +:+ rest) eq_refl) as [r Hskip].
    rewrite <-Hbody in Hskip. rewrite Hskip.
    change (Ascii.eqb dquote "}"%char) with false. cbv iota.
    rewrite <-Hm.
    erewrite (parse_members_reads_back gap (indent +:+ gap)); try done.
    + unfold canonical in Hcanon. by rewrite assign_fields_canonical.
    + by rewrite all_space_app, Hindent, Hgap.
    + by constructor.
    + rewrite Hm. simpl in Hfuel. rewrite !string_length_app in Hfuel. simpl in Hfuel.
      rewrite !string_length_app. simpl. lia.
Qed.

(** [JSON.parse] inverts [JSON.stringify] on the representable values. *)
Lemma JSON_parse_stringify gap v text :
  all_space gap = true → json_value v = true →
  serialize_json gap EmptyString v = Some text →
  JSON_parse text = Some v.
Proof.
  intros Hgap Hv Htext. unfold JSON_parse.
  pose proof (json_value_reads_back v Hv gap EmptyString text EmptyString EmptyString
                (S (String.length text)) Hgap eq_refl eq_refl Htext eq_refl) as H.
  rewrite string_app_empty_l, string_app_empty_r in H. rewrite H by lia. done.
Qed.

(** ** Reading the CSV serialization back *)

(** A text that is one cell is one part for the reader, and a separator
    after it starts the next part. *)
Lemma csv_split_field (d sep : ascii) (s : string) : ∀ inside,
  csv_field_from d s inside = true →
  Ascii.eqb sep dquote = false →
  Ascii.eqb sep d || Ascii.eqb sep newline_char = true →
  csv_split_from sep s inside = [s]
  ∧ ∀ t, csv_split_from sep (s +:+ String sep t) inside = s :: csv_split_from sep t false.
Proof.
  induction s as [|c s IH]; intros inside Hfield Hsep Hbad.
  - simpl in Hfield. apply negb_true_iff in Hfield as ->. split; [done|].
    intros t. rewrite string_app_empty_l. simpl. by rewrite Hsep, Ascii.eqb_refl.
  - simpl in Hfield.
    assert (∀ t, csv_split_from sep (String c s +:+ t) inside
                 = csv_split_from sep (String c (s +:+ t)) inside) as Happ by done.
    destruct (Ascii.eqb c dquote) eqn:Hq.
    + destruct (IH _ Hfield Hsep Hbad) as [H1 H2]. split.
      * simpl. by rewrite Hq, H1.
      * intros t. rewrite Happ. simpl. by rewrite Hq, H2.
    + destruct (negb inside && (Ascii.eqb c d || Ascii.eqb c newline_char)) eqn:Hc;
        [done|].
      assert (negb inside && Ascii.eqb c sep = false) as Hns.
      { destruct inside; [done|]. simpl in *.
        destruct (Ascii.eqb_spec c sep) as [->|_]; [|done]. by rewrite Hbad in Hc. }
      destruct (IH _ Hfield Hsep Hbad) as [H1 H2]. split.
      * simpl. by rewrite Hq, Hns, H1.
      * intros t. rewrite Happ. simpl. by rewrite Hq, Hns, H2.
Qed.

(** The reader gives back the cells that were joined. *)
Lemma csv_split_join (d sep : ascii) (fields : list string) :
  fields ≠ [] →
  Forall (λ s, csv_field d s = true) fields →
  Ascii.eqb sep dquote = false →
  Ascii.eqb sep d || Ascii.eqb sep newline_char = true →
  csv_split_from sep (join (String sep EmptyString) fields) false = fields.
Proof.
  intros Hne Hall Hsep Hbad.
  induction Hall as [|s fields Hs Hall IH]; [done|].
  destruct (csv_split_field d sep s false Hs Hsep Hbad) as [H1 H2].
  destruct fields as [|s' fields]; [by rewrite join_single|].
  rewrite join_cons2. change (String sep EmptyString +:+ ?t) with (String sep t).
  rewrite H2. f_equal. by apply IH.
Qed.

(** After a cell the reader is outside of quotes. *)
Lemma csv_field_from_app (d : ascii) (s t : string) : ∀ inside,
  csv_field_from d s inside = true →
  csv_field_from newline_char (s +:+ t) inside = csv_field_from newline_char t false.
Proof.
  induction s as [|c s IH]; intros inside H.
  - simpl in H. by apply negb_true_iff in H as ->.
  - simpl in H. rewrite string_app_cons. simpl.
    destruct (Ascii.eqb c dquote); [by apply IH|].
    destruct (negb inside && (Ascii.eqb c d || Ascii.eqb c newline_char)) eqn:Hc; [done|].
    assert (negb inside && (Ascii.eqb c newline_char || Ascii.eqb c newline_char) = false)
      as ->.
    { destruct inside; [done|]. simpl in *. apply orb_false_iff in Hc as [_ ->]. done. }
    by apply IH.
Qed.

(** Cells joined by a delimiter make a row without a line feed outside of
    quotes. *)
Lemma csv_row_closed (d : ascii) (cells : list string) :
  Forall (λ s, csv_field d s = true) cells →
  Ascii.eqb d dquote = false → Ascii.eqb d newline_char = false →
  csv_field newline_char (join (String d EmptyString) cells) = true.
Proof.
  intros Hall Hq Hnl. induction Hall as [|s cells Hs Hall IH]; [done|].
  destruct cells as [|s' cells].
  - rewrite join_single. unfold csv_field.
    rewrite <-(string_app_empty_r s). by rewrite (csv_field_from_app d).
  - rewrite join_cons2. unfold csv_field. rewrite (csv_field_from_app d) by done.
    change (String d EmptyString +:+ ?t) with (String d t). simpl.
    rewrite Hq, Hnl. simpl. exact IH.
Qed.

Lemma double_quotes_without_quote s :
  includes s (String dquote EmptyString) = false → double_quotes s = s.
Proof.
  induction s as [|c s IH]; [done|].
  rewrite includes_char_cons. intros [Hc Hs]%orb_false_iff. simpl.
  rewrite Ascii.eqb_sym, Hc. by rewrite IH.
Qed.

(** A text between quotes with its quotes doubled is one cell, and so is a
    text that has no delimiter, no quote and no line feed. *)
Lemma csv_field_quoted (d : ascii) (s : string) : csv_field d (quoted (double_quotes s)) = true.
Proof.
  unfold csv_field, quoted. simpl.
  induction s as [|c s IH]; [done|]. simpl.
  destruct (Ascii.eqb c dquote) eqn:Hq.
  - rewrite !string_app_cons. simpl. exact IH.
  - rewrite string_app_cons. simpl. by rewrite Hq.
Qed.

Lemma csv_field_plain (d : ascii) (s : string) :
  includes s (String d EmptyString) = false →
  includes s (String dquote EmptyString) = false →
  includes s newline = false →
  csv_field d s = true.
Proof.
  unfold csv_field, newline. induction s as [|c s IH]; [done|].
  rewrite !includes_char_cons.
  intros [Hd H1]%orb_false_iff [Hq H2]%orb_false_iff [Hn H3]%orb_false_iff. simpl.
  rewrite (Ascii.eqb_sym c dquote), Hq, (Ascii.eqb_sym c d), Hd,
    (Ascii.eqb_sym c newline_char), Hn.
  simpl. by apply IH.
Qed.

(** How a string, a number or a boolean is formatted when both quoting
    options are on. *)
Lemma formatCsvValue_scalar (val : value) (options : fields_t) :
  match val with VBool _ | VNum _ | VStr _ => true | _ => false end = true →
  truthy (opt options "escapeQuotes") = true →
  truthy (opt options "quoteStrings") = true →
  CsvExportStrategy.formatCsvValue val options
  = VStr (if needs_quoting options (to_string val)
          then quoted (double_quotes (to_string val)) else to_string val).
Proof.
  intros Hscalar Hescape Hquote.
  assert (CsvExportStrategy.formatCsvValue val options
          = let stringValue := to_string val in
            let stringValue :=
              if truthy (opt options "escapeQuotes")
                 && includes stringValue (String dquote EmptyString)
              then double_quotes stringValue else stringValue in
            VStr (if truthy (opt options "quoteStrings")
                     && (includes stringValue (to_string (opt options "delimiter"))
                         || includes stringValue (String dquote EmptyString)
                         || includes stringValue newline
                         || includes stringValue (String return_char EmptyString))
                  then quoted stringValue else stringValue)) as ->.
  { by destruct val. }
  cbv zeta. rewrite Hescape, Hquote. rewrite !andb_true_l. unfold needs_quoting.
  destruct (includes (to_string val) (String dquote EmptyString)) eqn:Hq.
  - rewrite (includes_quote_doubled _ Hq). by rewrite !orb_true_r.
  - by rewrite Hq, (double_quotes_without_quote _ Hq).
Qed.

Lemma csv_field_scalar (d : ascii) (val : value) (options : fields_t) :
  match val with VBool _ | VNum _ | VStr _ => true | _ => false end = true →
  opt options "delimiter" = VStr (String d EmptyString) →
  truthy (opt options "escapeQuotes") = true →
  truthy (opt options "quoteStrings") = true →
  csv_field d (join_element (CsvExportStrategy.formatCsvValue val options)) = true.
Proof.
  intros Hscalar Hd Hescape Hquote. rewrite formatCsvValue_scalar by done.
  simpl. destruct (needs_quoting options (to_string val)) eqn:Hn.
  - apply csv_field_quoted.
  - unfold needs_quoting in Hn. rewrite Hd in Hn. simpl in Hn.
    apply orb_false_iff in Hn as [Hn _]. apply orb_false_iff in Hn as [Hn H3].
    apply orb_false_iff in Hn as [H1 H2]. by apply csv_field_plain.
Qed.

(** A row is its cells joined by the delimiter. *)
Lemma formatCsvRow_cells (d : ascii) (cells : list value) (options : fields_t) :
  opt options "delimiter" = VStr (String d EmptyString) →
  CsvExportStrategy.formatCsvRow cells options
  = join (String d EmptyString) (map join_element cells).
Proof. intros Hd. unfold CsvExportStrategy.formatCsvRow, array_join. by rewrite Hd. Qed.




(** ** The flattener, entry by entry *)

(** A key with a dot in it is no array index. *)
Lemma digits_to_N_from_dotted a b : ∀ acc, digits_to_N_from acc (a +:+ "." +:+ b) = None.
Proof.
  induction a as [|c a IH]; intros acc; [done|].
  rewrite string_app_cons. simpl. by destruct (is_digit c).
Qed.

Lemma array_index_dotted a b : array_index (a +:+ "." +:+ b) = None.
Proof.
  unfold array_index, digits_to_N.
  destruct (a +:+ "." +:+ b) eqn:E; [done|]. rewrite <-E.
  by rewrite digits_to_N_from_dotted.
Qed.

(** The loop of the flattener over entries that are neither records nor
    Dates writes each under its key behind the prefix. *)
Lemma flatten_entries_plain prefix maxDepth currentDepth (entries : list (string * value)) :
  ∀ flattened,
  Forall (λ kv : string * value, is_record kv.2 = false ∧ is_date kv.2 = false) entries →
  CsvExportStrategy.flatten_entries prefix maxDepth currentDepth entries flattened
  = assign_fields flattened
      (map (λ kv : string * value, (CsvExportStrategy.new_key prefix kv.1, kv.2)) entries).
Proof.
  induction entries as [|[key val] entries IH]; intros flattened Hplain; [done|].
  apply Forall_cons in Hplain as [[Hrec Hdate] Hplain]. simpl in Hrec, Hdate.
  cbn [CsvExportStrategy.flatten_entries].
  assert (CsvExportStrategy.is_nested_object val = false) as ->.
  { destruct val; try discriminate Hrec; try discriminate Hdate;
      unfold CsvExportStrategy.is_nested_object; simpl; by rewrite ?andb_false_r. }
  by rewrite (IH _ Hplain).
Qed.

Lemma keys_in_order_named (l : list string) : ∀ seen,
  Forall (λ k, array_index k = None) l → NoDup (seen ++ l) →
  keys_in_order seen l = true.
Proof.
  induction l as [|k l IH]; intros seen Hnamed Hnd; [done|].
  apply Forall_cons in Hnamed as [Hk Hnamed]. simpl.
  apply andb_true_iff. split.
  - unfold key_fits. rewrite Hk, andb_true_r. apply negb_true_iff.
    apply not_true_iff_false. intros (k' & Hin & Heq)%existsb_exists.
    apply String.eqb_eq in Heq as <-.
    apply NoDup_app in Hnd as (_ & Hdisj & _).
    apply (Hdisj k); [by apply list_elem_of_In | apply list_elem_of_here].
  - apply IH; [done|]. by rewrite <-app_assoc.
Qed.

Lemma string_app_inj (p a b : string) : p +:+ a = p +:+ b → a = b.
Proof.
  induction p as [|c p IH]; [done|]. rewrite !string_app_cons. intros [= H]. by apply IH.
Qed.

Lemma keys_in_order_dotted prefix (keys : list string) :
  NoDup keys →
  keys_in_order [] (map (λ key, prefix +:+ "." +:+ key) keys) = true.
Proof.
  intros Hnd. apply keys_in_order_named.
  - apply Forall_map, Forall_forall. intros k _. apply array_index_dotted.
  - simpl. apply NoDup_fmap_2; [|done]. intros a b H. by do 2 apply string_app_inj in H.
Qed.

(** Below the depth limit a record that holds neither records nor Dates is
    rewritten key by key. *)
Lemma flattenObject_plain (fields : list (string * value)) prefix (n currentDepth : Z) :
  (currentDepth < n)%Z →
  Forall (λ kv : string * value, is_record kv.2 = false ∧ is_date kv.2 = false) fields →
  keys_in_order []
    (map (λ kv : string * value, CsvExportStrategy.new_key prefix kv.1) fields) = true →
  CsvExportStrategy.flattenObject (VObj fields) prefix (VNum n) currentDepth
  = VObj (map (λ kv : string * value, (CsvExportStrategy.new_key prefix kv.1, kv.2)) fields).
Proof.
  intros Hd Hplain Hord. rewrite flattenObject_object.
  assert (number_ge currentDepth (VNum n) = false) as ->.
  { unfold number_ge. simpl. apply Z.leb_gt. lia. }
  rewrite flatten_entries_plain by done.
  rewrite assign_fields_canonical; [done|]. by rewrite map_map.
Qed.

(** Among entries that are no records the loop passes over the Dates and
    writes the others. *)
Lemma flatten_entries_no_records prefix maxDepth currentDepth
    (entries : list (string * value)) : ∀ flattened,
  Forall (λ kv : string * value, is_record kv.2 = false) entries →
  CsvExportStrategy.flatten_entries prefix maxDepth currentDepth entries flattened
  = assign_fields flattened
      (map (λ kv : string * value, (CsvExportStrategy.new_key prefix kv.1, kv.2))
         (filter (λ kv : string * value, is_date kv.2 = false) entries)).
Proof.
  induction entries as [|[key val] entries IH]; intros flattened Hflat; [done|].
  apply Forall_cons in Hflat as [Hval Hflat]. simpl in Hval.
  cbn [CsvExportStrategy.flatten_entries].
  destruct (is_date val) eqn:Hdate.
  - destruct val; try discriminate Hdate.
    rewrite filter_cons_False by (simpl; congruence).
    rewrite <-(IH _ Hflat). f_equal. simpl. by destruct (number_ge _ _).
  - assert (CsvExportStrategy.is_nested_object val = false) as ->.
    { destruct val; try discriminate Hval; try discriminate Hdate;
        unfold CsvExportStrategy.is_nested_object; simpl; by rewrite ?andb_false_r. }
    rewrite filter_cons_True by done. by rewrite (IH _ Hflat).
Qed.

(** C7.  The flattener stops at the depth limit, returns a value that is no
    record and no Date as it is at every depth, and below the limit writes
    every entry that is no record and no Date, an array among them, to its
    dotted key unchanged: the key itself under the empty prefix, else the
    prefix, a dot and the key.  A nested record is handed to the recursive
    call one level deeper with its dotted key for prefix, and what the call
    returns is merged in.  But a Date is handed to the recursive call too,
    where it has no properties, so that nothing is merged and its key is
    lost: the flattener descends into more than nested records, and a
    record without nested records comes out without its Dates.  Keys are
    other than __proto__ where a key is written, and the depth limit is a
    number.  Every value in a flattened record is a property value of the
    input, unaltered. *)
Theorem C7_flatten_descends_into_dates :
  (∀ (obj : value) (prefix : string) (n currentDepth : Z),
     (n ≤ currentDepth)%Z →
     CsvExportStrategy.flattenObject obj prefix (VNum n) currentDepth = obj)
  ∧ (∀ (data : value) (options : fields_t),
       opt options "maxDepth" = VNum 0 →
       CsvExportStrategy.transform data options
       = VArr (match data with VArr items => items | _ => [data] end))
  ∧ (∀ (v : value) (prefix : string) (maxDepth : value) (currentDepth : Z),
       is_record v = false → is_date v = false →
       CsvExportStrategy.flattenObject v prefix maxDepth currentDepth = v)
  ∧ (∀ (fields : list (string * value)) (prefix : string) (n currentDepth : Z),
       let dotted (key : string) :=
         if String.eqb prefix EmptyString then key else prefix +:+ "." +:+ key in
       (currentDepth < n)%Z →
       Forall (λ kv : string * value, is_record kv.2 = false ∧ is_date kv.2 = false) fields →
       forallb (λ kv : string * value, negb (is_proto kv.1)) fields = true →
       keys_in_order [] (map (λ kv : string * value, dotted kv.1) fields) = true →
       CsvExportStrategy.flattenObject (VObj fields) prefix (VNum n) currentDepth
       = VObj (map (λ kv : string * value, (dotted kv.1, kv.2)) fields))
  ∧ (∀ (prefix : string) (n currentDepth : Z) (key : string)
       (inner entries flattened : list (string * value)),
       proto_free (VObj inner) = true →
       CsvExportStrategy.flatten_entries prefix (VNum n) currentDepth
         ((key, VObj inner) :: entries) flattened
       = CsvExportStrategy.flatten_entries prefix (VNum n) currentDepth entries
           (assign_fields flattened
              (own_entries
                 (CsvExportStrategy.flattenObject (VObj inner)
                    (if String.eqb prefix EmptyString then key else prefix +:+ "." +:+ key)
                    (VNum n) (currentDepth + 1)))))
  ∧ (∀ (key : string) (inner : list (string * value)) (n currentDepth : Z),
       (currentDepth + 1 < n)%Z →
       key ≠ EmptyString →
       Forall (λ kv : string * value, is_record kv.2 = false ∧ is_date kv.2 = false) inner →
       NoDup (map fst inner) →
       CsvExportStrategy.flattenObject (VObj [(key, VObj inner)]) EmptyString (VNum n)
         currentDepth
       = VObj (map (λ kv : string * value, (key +:+ "." +:+ kv.1, kv.2)) inner))
  ∧ (∀ (prefix : string) (n currentDepth : Z) (key : string) (d : date)
       (entries flattened : list (string * value)),
       CsvExportStrategy.flatten_entries prefix (VNum n) currentDepth
         ((key, VDate d) :: entries) flattened
       = CsvExportStrategy.flatten_entries prefix (VNum n) currentDepth entries flattened)
  ∧ (∀ (fields : list (string * value)) (prefix : string) (n currentDepth : Z),
       let dotted (key : string) :=
         if String.eqb prefix EmptyString then key else prefix +:+ "." +:+ key in
       (currentDepth < n)%Z →
       Forall (λ kv : string * value, is_record kv.2 = false) fields →
       forallb (λ kv : string * value, negb (is_proto kv.1)) fields = true →
       keys_in_order []
         (map (λ kv : string * value, dotted kv.1)
            (filter (λ kv : string * value, is_date kv.2 = false) fields)) = true →
       CsvExportStrategy.flattenObject (VObj fields) prefix (VNum n) currentDepth
       = VObj (map (λ kv : string * value, (dotted kv.1, kv.2))
                 (filter (λ kv : string * value, is_date kv.2 = false) fields)))
  ∧ (∀ (fields : fields_t) (prefix : string) (n currentDepth : Z) (e : string * value),
       e ∈ own_entries
             (CsvExportStrategy.flattenObject (VObj fields) prefix (VNum n) currentDepth) →
       nested_field e.2 (VObj fields)).
Proof.
  assert (∀ prefix key,
            CsvExportStrategy.new_key prefix key
            = if String.eqb prefix EmptyString then key else prefix +:+ "." +:+ key)
    as Hkey.
  { intros prefix key. unfold CsvExportStrategy.new_key. simpl.
    by destruct (String.eqb prefix EmptyString). }
  assert (∀ (n d : Z), (d < n)%Z → number_ge d (VNum n) = false) as Hbelow.
  { intros n d H. unfold number_ge. simpl. apply Z.leb_gt. lia. }
  split; [|split; [|split; [|split; [|split; [|split; [|split; [|split]]]]]]].
  - intros obj prefix n d H. apply flattenObject_depth_reached.
    unfold number_ge. simpl. by apply Z.leb_le.
  - intros data options Hdepth. unfold CsvExportStrategy.transform.
    destruct (truthy _); [|done]. rewrite Hdepth. f_equal.
    induction (match data with VArr items => items | _ => [data] end) as [|item items IH];
      [done|].
    simpl. rewrite IH. f_equal. by apply flattenObject_depth_reached.
  - intros v prefix maxDepth d Hrec Hdate. by destruct v.
  - intros fields prefix n d dotted Hd Hplain _ Hord.
    rewrite flattenObject_plain; [| done | done |].
    + f_equal. apply map_ext. intros [k v]. simpl. by rewrite Hkey.
    + erewrite map_ext; [exact Hord|]. intros [k v]. simpl. by rewrite Hkey.
  - intros prefix n d key inner entries flattened _.
    cbn [CsvExportStrategy.flatten_entries]. by rewrite Hkey.
  - intros key inner n d Hd Hkeyne Hplain Hnd.
    rewrite flattenObject_object, Hbelow by lia.
    cbn [CsvExportStrategy.flatten_entries].
    change (CsvExportStrategy.is_nested_object (VObj inner)) with true. cbv iota.
    rewrite Hkey. destruct (String.eqb_spec EmptyString key) as [Heq|_]; [by subst|].
    assert (keys_in_order []
              (map (λ kv : string * value, CsvExportStrategy.new_key key kv.1) inner) = true)
      as Hord.
    { erewrite map_ext.
      - rewrite <-(map_map fst (λ k, key +:+ "." +:+ k)). by apply keys_in_order_dotted.
      - intros [k v]. simpl. rewrite Hkey.
        destruct (String.eqb_spec key EmptyString) as [Heq|_]; [by subst|done]. }
    rewrite flattenObject_plain by (done || lia). simpl own_entries.
    rewrite assign_fields_canonical by (by rewrite map_map).
    f_equal. apply map_ext. intros [k v]. simpl. rewrite Hkey.
    destruct (String.eqb_spec key EmptyString) as [Heq|_]; [by subst|done].
  - intros prefix n d key t entries flattened.
    cbn [CsvExportStrategy.flatten_entries].
    change (CsvExportStrategy.is_nested_object (VDate t)) with true. cbv iota.
    f_equal. simpl. by destruct (number_ge _ _).
  - intros fields prefix n d dotted Hd Hflat _ Hord.
    rewrite flattenObject_object, Hbelow by done.
    rewrite flatten_entries_no_records by done.
    rewrite assign_fields_canonical.
    + f_equal. apply map_ext. intros [k v]. simpl. by rewrite Hkey.
    + rewrite map_map. change (map fst []) with (@nil string).
      erewrite map_ext; [exact Hord|]. intros [k v]. simpl.
      by rewrite Hkey.
  - intros fields prefix n d e. by apply flattenObject_entries_nested.
Qed.

(** The theorem at the scenario of the specification and at a record of
    the demonstration data: the nested record goes under dotted keys with
    its array as it is, the joinDate of an employee is lost, and with the
    depth limit 0 nothing is changed. *)
Lemma C7_flatten_witness :
  CsvExportStrategy.flattenObject
    (VObj [("profile", VObj [("age", VNum 30); ("skills", VArr [VStr "SEO"; VStr "CSS"])])])
    EmptyString (VNum 3) 0
  = VObj [("profile.age", VNum 30); ("profile.skills", VArr [VStr "SEO"; VStr "CSS"])]
  ∧ CsvExportStrategy.flattenObject
      (VObj [("id", VNum 1);
             ("joinDate",
               VDate (Date "2023-01-15T00:00:00.000Z" "Sun Jan 15 2023" 1673740800000))])
      EmptyString (VNum 3) 0
    = VObj [("id", VNum 1)]
  ∧ CsvExportStrategy.flattenObject
      (VObj [("profile", VObj [("age", VNum 30)])]) EmptyString (VNum 0) 0
    = VObj [("profile", VObj [("age", VNum 30)])].
Proof.
  destruct C7_flatten_descends_into_dates as (Hstop & _ & _ & _ & _ & Hnested & _ & Hdate & _).
  split; [|split].
  - refine (Hnested "profile" [("age", VNum 30); ("skills", VArr [VStr "SEO"; VStr "CSS"])]
              3%Z 0%Z _ _ _ _).
    + lia.
    + discriminate.
    + repeat constructor.
    + apply (bool_decide_unpack _). by vm_compute.
  - refine (Hdate [("id", VNum 1);
                   ("joinDate",
                     VDate (Date "2023-01-15T00:00:00.000Z" "Sun Jan 15 2023"
                              1673740800000))]
              EmptyString 3%Z 0%Z _ _ eq_refl eq_refl).
    + lia.
    + repeat constructor.
  - apply Hstop. lia.
Defined.

(** ** Merged configurations *)

Lemma obj_get_None k fields : obj_get k fields = None ↔ k ∉ map fst fields.
Proof.
  induction fields as [|[k' v] fields IH]; simpl.
  - split; [intros _; apply not_elem_of_nil | done].
  - rewrite not_elem_of_cons. destruct (String.eqb_spec k' k) as [->|Hne].
    + split; [done | by intros [? _]].
    + rewrite IH. split; [by intros ?; split | by intros [_ ?]].
Qed.

Lemma map_fst_obj_replace k v fields : map fst (obj_replace k v fields) = map fst fields.
Proof.
  induction fields as [|[k' v'] fields IH]; simpl; [done|].
  destruct (String.eqb k' k); simpl; [done | by rewrite IH].
Qed.

Lemma elem_of_keys_insert_index n k v fields k' :
  k' ∈ map fst (obj_insert_index n k v fields) ↔ k' = k ∨ k' ∈ map fst fields.
Proof.
  induction fields as [|[k0 v0] fields IH]; simpl.
  - rewrite list_elem_of_singleton, elem_of_nil. tauto.
  - destruct (array_index k0) as [m|]; [destruct (m <? n)%N|]; simpl;
      rewrite !elem_of_cons, ?IH; tauto.
Qed.

Lemma NoDup_keys_insert_index n k v fields :
  k ∉ map fst fields → NoDup (map fst fields) →
  NoDup (map fst (obj_insert_index n k v fields)).
Proof.
  induction fields as [|[k0 v0] fields IH]; simpl; intros Hk Hnd.
  - apply NoDup_singleton.
  - apply not_elem_of_cons in Hk as [Hne Hk]. apply NoDup_cons in Hnd as [H0 Hnd].
    assert (NoDup (k :: k0 :: map fst fields)) as Hall.
    { apply NoDup_cons. split; [|by apply NoDup_cons].
      apply not_elem_of_cons. by split. }
    destruct (array_index k0) as [m|]; [destruct (m <? n)%N|]; simpl; try done.
    apply NoDup_cons. split; [|by apply IH].
    rewrite elem_of_keys_insert_index. intros [->|?]; [done | contradiction].
Qed.

(** A write keeps the keys of an object distinct. *)
Lemma NoDup_keys_obj_set k v fields :
  NoDup (map fst fields) → NoDup (map fst (obj_set k v fields)).
Proof.
  intros Hnd. unfold obj_set. destruct (has_key k fields) eqn:E.
  - by rewrite map_fst_obj_replace.
  - assert (k ∉ map fst fields) as Hk.
    { apply obj_get_None. unfold has_key in E. by destruct (obj_get k fields). }
    destruct (array_index k).
    + by apply NoDup_keys_insert_index.
    + rewrite map_app. simpl. apply NoDup_app. split; [done|].
      split; [|apply NoDup_singleton].
      intros k' Hin ->%list_elem_of_singleton. contradiction.
Qed.

Lemma NoDup_keys_assign_fields source : ∀ target,
  NoDup (map fst target) → NoDup (map fst (assign_fields target source)).
Proof.
  unfold assign_fields. induction source as [|[k v] source IH]; simpl; intros target H;
    [done|]. by apply IH, NoDup_keys_obj_set.
Qed.

(** [Object.assign]: the last binding of a key in the source wins, and a key
    the source lacks keeps its value. *)
Lemma obj_get_assign_fields k source : ∀ target,
  obj_get k (assign_fields target source)
  = match obj_get k (rev source) with
    | Some v => Some v
    | None => obj_get k target
    end.
Proof.
  unfold assign_fields. induction source as [|[k0 v0] source IH]; simpl; intros target;
    [done|].
  rewrite IH, obj_get_app. destruct (obj_get k (rev source)); [done|]. simpl.
  destruct (String.eqb_spec k0 k) as [->|Hne].
  - apply obj_get_set_eq.
  - by apply obj_get_set_ne.
Qed.

Lemma obj_get_rev k fields : NoDup (map fst fields) → obj_get k (rev fields) = obj_get k fields.
Proof.
  induction fields as [|[k0 v0] fields IH]; simpl; [done|].
  intros [Hk0 Hnd]%NoDup_cons. rewrite obj_get_app, IH by done. simpl.
  destruct (String.eqb_spec k0 k) as [->|Hne].
  - apply obj_get_None in Hk0. by rewrite Hk0.
  - by destruct (obj_get k fields).
Qed.

(** Reading an option of [{...a, ...b}]. *)
Lemma opt_spread2 a b k :
  NoDup (map fst a) → NoDup (map fst b) →
  opt (spread2 (VObj a) (VObj b)) k
  = match obj_get k b with
    | Some v => v
    | None => opt a k
    end.
Proof.
  intros Ha Hb. unfold opt, spread2. simpl.
  rewrite !obj_get_assign_fields, !obj_get_rev by done.
  destruct (obj_get k b); [done|]. by destruct (obj_get k a).
Qed.

Lemma NoDup_keys_spread2 a b : NoDup (map fst (spread2 a b)).
Proof. unfold spread2. do 2 apply NoDup_keys_assign_fields. constructor. Qed.

(** ** The JSON export through the facade *)

Lemma json_strategy_config_opt config k :
  NoDup (map fst config) →
  opt (json_strategy_config config) k
  = match obj_get k config with
    | Some v => v
    | None => opt JsonExportStrategy.getDefaultOptions k
    end.
Proof.
  intros Hnd. unfold json_strategy_config.
  rewrite opt_spread2; [|apply NoDup_keys_spread2 | done].
  destruct (obj_get k config) eqn:E; [done|].
  rewrite opt_spread2; [| |done].
  - by rewrite E.
  - unfold JsonExportStrategy.getDefaultOptions.
    do 2 apply NoDup_keys_assign_fields. constructor.
Qed.

Lemma keys_in_order_app seen l1 : ∀ l2 seen',
  seen' = seen →
  keys_in_order seen (l1 ++ l2) = keys_in_order seen l1 && keys_in_order (seen ++ l1) l2.
Proof.
  revert seen. induction l1 as [|k l1 IH]; intros seen l2 seen' ->; simpl.
  - by rewrite app_nil_r.
  - rewrite (IH (seen ++ [k]) l2 _ eq_refl). rewrite <-app_assoc. simpl.
    by rewrite andb_assoc.
Qed.

(** Writing a named property keeps the keys of a record in order. *)
Lemma canonical_obj_set_named k v fields :
  array_index k = None → canonical fields = true → canonical (obj_set k v fields) = true.
Proof.
  intros Hk Hc. unfold obj_set. destruct (has_key k fields) eqn:E.
  - unfold canonical. by rewrite map_fst_obj_replace.
  - rewrite Hk. unfold canonical in *. rewrite map_app.
    rewrite (keys_in_order_app [] _ _ [] eq_refl), Hc. simpl.
    unfold key_fits. rewrite Hk. rewrite has_key_keys in E. by rewrite E.
Qed.

Lemma json_value_object_intro fields :
  canonical fields = true →
  Forall (λ kv : string * value, json_value kv.2 = true) fields →
  json_value (VObj fields) = true.
Proof.
  intros Hc Hall. simpl. rewrite Hc. simpl. clear Hc.
  induction Hall as [|[k x] fields Hx _ IH]; [done|]. simpl in Hx. by rewrite Hx.
Qed.

Lemma json_value_metadata exportedAt data :
  json_value (JsonExportStrategy.metadata exportedAt data) = true.
Proof. apply json_value_object_intro; [reflexivity | by repeat constructor]. Qed.

(** The JSON transform of a representable record or sequence is
    representable. *)
Lemma json_value_transform exportedAt data options :
  isArray data || is_record data = true →
  json_value data = true →
  json_value (JsonExportStrategy.transform exportedAt data options) = true.
Proof.
  intros Hshape Hjson. unfold JsonExportStrategy.transform.
  destruct data as [| | | | | | items | fields]; try discriminate Hshape.
  - destruct (truthy _); [|done].
    apply json_value_object_intro; [reflexivity|].
    constructor; [apply json_value_metadata|]. constructor; [done | constructor].
  - apply json_value_object in Hjson as [Hc Hall].
    rewrite spread_canonical by done.
    destruct (truthy _); [|by apply json_value_object_intro].
    apply json_value_object_intro; [by apply canonical_obj_set_named|].
    apply Forall_forall. intros e [->|Hin]%elem_of_obj_set.
    + apply json_value_metadata.
    + by eapply Forall_forall in Hall.
Qed.

Section JsonExport.

Context {world : Type}.
Variable clock : world → string * world.
Variable fs_save : value → value → value → world → option string * world.
Variable path_resolve : value → value → result string.

(** A JSON export that is given no output path returns the serialized
    transform. *)
Lemma json_export_in_memory this_options data options (w : world) :
  isArray data || is_record data = true →
  truthy (opt (spread2 (VObj this_options) (VObj options)) "outputPath") = false →
  ∃ text,
    ExportStrategy_export fs_save (json_methods clock) this_options data options w
    = (Ok (VStr text),
       if truthy (opt (spread2 (VObj this_options) (VObj options)) "includeMetadata")
       then (clock w).2 else w)
    ∧ serialize_json
        (if truthy (opt (spread2 (VObj this_options) (VObj options)) "prettify")
         then "  " else EmptyString) EmptyString
        (JsonExportStrategy.transform
           (if truthy (opt (spread2 (VObj this_options) (VObj options)) "includeMetadata")
            then (clock w).1 else EmptyString)
           data (spread2 (VObj this_options) (VObj options)))
      = Some text.
Proof.
  intros Hshape Hpath.
  unfold ExportStrategy_export, bind, json_methods, lift, ret, read_clock. simpl.
  set (config := spread2 (VObj this_options) (VObj options)) in *.
  assert (JsonExportStrategy.validate data = Ok tt) as ->.
  { by destruct data as [| | | | | | items | fields]. }
  assert (∀ exportedAt, ∃ text,
            serialize_json (if truthy (opt config "prettify") then "  " else EmptyString)
              EmptyString (JsonExportStrategy.transform exportedAt data config) = Some text)
    as Htext.
  { intros exportedAt. unfold JsonExportStrategy.transform.
    destruct data as [| | | | | | items | fields]; try discriminate Hshape;
      destruct (truthy (opt config "includeMetadata")); simpl; eauto. }
  destruct (truthy (opt config "includeMetadata")).
  - destruct (clock w) as [exportedAt w'] eqn:Hclock. simpl.
    destruct (Htext exportedAt) as [text Ht]. exists text. split; [|done].
    unfold JsonExportStrategy.generateContent, JSON_stringify_2, JSON_stringify.
    rewrite Hpath. unfold bind. rewrite Hclock.
    destruct (truthy (opt config "prettify")); by rewrite Ht.
  - destruct (Htext EmptyString) as [text Ht]. exists text. split; [|done].
    unfold JsonExportStrategy.generateContent, JSON_stringify_2, JSON_stringify.
    rewrite Hpath.
    destruct (truthy (opt config "prettify")); by rewrite Ht.
Qed.

(** A JSON export that is given an output path hands the serialized
    transform to the storage collaborator and returns the path. *)
Lemma json_export_saved this_options data options (w : world) :
  isArray data || is_record data = true →
  truthy (opt (spread2 (VObj this_options) (VObj options)) "outputPath") = true →
  ∃ text,
    ExportStrategy_export fs_save (json_methods clock) this_options data options w
    = match fs_save (opt (spread2 (VObj this_options) (VObj options)) "outputPath")
              (VStr text) (opt this_options "encoding")
              (if truthy (opt (spread2 (VObj this_options) (VObj options)) "includeMetadata")
               then (clock w).2 else w) with
      | (Some msg, w') => (Throw (FileSystemError ("Failed to save file: " +:+ msg)), w')
      | (None, w') => (Ok (opt (spread2 (VObj this_options) (VObj options)) "outputPath"), w')
      end
    ∧ serialize_json
        (if truthy (opt (spread2 (VObj this_options) (VObj options)) "prettify")
         then "  " else EmptyString) EmptyString
        (JsonExportStrategy.transform
           (if truthy (opt (spread2 (VObj this_options) (VObj options)) "includeMetadata")
            then (clock w).1 else EmptyString)
           data (spread2 (VObj this_options) (VObj options)))
      = Some text.
Proof.
  intros Hshape Hpath.
  unfold ExportStrategy_export, bind, json_methods, lift, ret, read_clock, saveToFile. simpl.
  set (config := spread2 (VObj this_options) (VObj options)) in *.
  assert (JsonExportStrategy.validate data = Ok tt) as ->.
  { by destruct data as [| | | | | | items | fields]. }
  assert (∀ exportedAt, ∃ text,
            serialize_json (if truthy (opt config "prettify") then "  " else EmptyString)
              EmptyString (JsonExportStrategy.transform exportedAt data config) = Some text)
    as Htext.
  { intros exportedAt. unfold JsonExportStrategy.transform.
    destruct data as [| | | | | | items | fields]; try discriminate Hshape;
      destruct (truthy (opt config "includeMetadata")); simpl; eauto. }
  destruct (truthy (opt config "includeMetadata")).
  - destruct (clock w) as [exportedAt w'] eqn:Hclock. simpl.
    destruct (Htext exportedAt) as [text Ht]. exists text. split; [|done].
    unfold JsonExportStrategy.generateContent, JSON_stringify_2, JSON_stringify.
    rewrite Hpath. unfold bind. rewrite Hclock.
    destruct (truthy (opt config "prettify")); rewrite Ht;
      by destruct (fs_save _ _ _ w') as [[msg|] w''].
  - destruct (Htext EmptyString) as [text Ht]. exists text. split; [|done].
    unfold JsonExportStrategy.generateContent, JSON_stringify_2, JSON_stringify.
    rewrite Hpath.
    destruct (truthy (opt config "prettify")); rewrite Ht;
      by destruct (fs_save _ _ _ w) as [[msg|] w''].
Qed.

End JsonExport.

(** What the JSON transform makes of a record or a sequence. *)
Lemma json_transform_shape exportedAt data config :
  isArray data || is_record data = true →
  json_value data = true →
  JsonExportStrategy.transform exportedAt data config
  = if truthy (opt config "includeMetadata")
    then match data with
         | VArr items =>
             VObj [("metadata", JsonExportStrategy.metadata exportedAt data); ("data", data)]
         | VObj fields =>
             VObj (obj_set "metadata" (JsonExportStrategy.metadata exportedAt data) fields)
         | _ => data
         end
    else data.
Proof.
  intros Hshape Hdata. unfold JsonExportStrategy.transform.
  destruct data as [| | | | | | items | fields]; try discriminate Hshape.
  - by destruct (truthy (opt config "includeMetadata")).
  - apply json_value_object in Hdata as [Hc _]. rewrite spread_canonical by done.
    by destruct (truthy (opt config "includeMetadata")).
Qed.

(** The options of the JSON strategy other than the output path are not
    touched by the path the facade writes into the configuration. *)
Lemma json_strategy_config_path p config k :
  NoDup (map fst config) →
  opt (json_strategy_config (obj_set "outputPath" (VStr p) config)) k
  = if String.eqb k "outputPath" then VStr p else opt (json_strategy_config config) k.
Proof.
  intros Hnd.
  rewrite !json_strategy_config_opt by (done || by apply NoDup_keys_obj_set).
  destruct (String.eqb_spec k "outputPath") as [->|Hk].
  - by rewrite obj_get_set_eq.
  - by rewrite obj_get_set_ne.
Qed.




(** * Further properties *)

(** ** The factory *)

(** X1.  After [register(format, C)], [create] with any spelling of the
    format that lowercases to the same identifier constructs [C] with the
    given options, and the formats with another identifier are created as
    before. *)
Theorem X1_register_then_create :
  ∀ (world : Type) (format format' : string) (strategyClass : strategy_class world)
    (strategies : gmap string (strategy_class world)) (options : fields_t),
    to_lower format' = to_lower format →
    ∃ strategies',
      register format strategyClass strategies = Ok strategies'
      ∧ create strategies' format' options = construct strategyClass options
      ∧ isFormatSupported strategies' format' = true
      ∧ ∀ other,
          to_lower other ≠ to_lower format →
          create strategies' other options = create strategies other options
          ∧ isFormatSupported strategies' other = isFormatSupported strategies other.
Proof.
  intros world format format' strategyClass strategies options Hsame.
  exists (<[to_lower format := strategyClass]> strategies).
  split; [|split; [|split]].
  - unfold register. by destruct (js_not_primitive (Prototype strategyClass)) as [b ->].
  - unfold create. by rewrite Hsame, lookup_insert_eq.
  - unfold isFormatSupported. rewrite Hsame, lookup_insert_eq. by apply bool_decide_eq_true.
  - intros other Hother. unfold create, isFormatSupported.
    by rewrite lookup_insert_ne.
Qed.

Lemma X1_register_then_create_witness :
  to_lower "XML" = to_lower "xml"
  ∧ ∃ strategies',
      register "xml" (plain_class Sim.world) (default_strategies Sim.clock Sim.fs_save)
      = Ok strategies'
      ∧ create strategies' "XML" [] = construct (plain_class Sim.world) []
      ∧ isFormatSupported strategies' "XML" = true.
Proof.
  destruct (X1_register_then_create Sim.world "xml" "XML" (plain_class Sim.world)
              (default_strategies Sim.clock Sim.fs_save) [] eq_refl)
    as (strategies' & H1 & H2 & H3 & _).
  split; [reflexivity|]. exists strategies'. by repeat split.
Defined.

(** X2.  [create] throws the unsupported-format error, which quotes the
    format as the caller spelled it, exactly for the formats that
    [isFormatSupported] denies; a new factory supports json and csv in any
    letter case and nothing else. *)
Theorem X2_create_unsupported :
  ∀ (world : Type) (strategies : gmap string (strategy_class world))
    (format : string) (options : fields_t),
    create strategies format options
    = (if isFormatSupported strategies format
       then match strategies !! to_lower format with
            | Some strategyClass => construct strategyClass options
            | None => Throw (DataExportError ("Unsupported export format: " +:+ format))
            end
       else Throw (DataExportError ("Unsupported export format: " +:+ format)))
    ∧ (isFormatSupported strategies format = true ↔ is_Some (strategies !! to_lower format))
    ∧ ∀ (clock : world → string * world)
        (fs_save : value → value → value → world → option string * world),
        isFormatSupported (default_strategies clock fs_save) format
        = String.eqb (to_lower format) "json" || String.eqb (to_lower format) "csv".
Proof.
  intros world strategies format options. split; [|split].
  - unfold create, isFormatSupported. case_bool_decide as H; [done|].
    destruct (strategies !! to_lower format) eqn:E; [|done].
    exfalso. apply H. by eexists.
  - unfold isFormatSupported. apply bool_decide_eq_true.
  - intros clock fs_save. unfold isFormatSupported, default_strategies.
    destruct (String.eqb_spec (to_lower format) "csv") as [->|Hcsv].
    { rewrite lookup_insert_eq, orb_true_r. by apply bool_decide_eq_true. }
    rewrite lookup_insert_ne by done.
    destruct (String.eqb_spec (to_lower format) "json") as [->|Hjson].
    { rewrite lookup_insert_eq. by apply bool_decide_eq_true. }
    rewrite lookup_insert_ne by done. rewrite lookup_empty.
    apply bool_decide_eq_false. by intros [? ?].
Qed.

(** ** The facade *)

(** X3.  [validate(data, format)] of a new exporter leaves the world as it
    is, returns true when the validate of the built-in strategy of the
    format returns, in any letter case of the format, and throws what that
    throws otherwise.  So under json and under csv a falsy dataset is
    rejected as null or undefined, and under csv a truthy dataset passes
    exactly when it is an array or has type object.  For an unsupported
    format the unsupported-format error is thrown whatever the data. *)
Theorem X3_facade_validate :
  ∀ (world : Type) (clock : world → string * world)
    (fs_save : value → value → value → world → option string * world)
    (options : fields_t) (data : value) (format : string) (w : world),
    (to_lower format = "json" →
     DataExporter_validate (new_DataExporter clock fs_save options) data format w
     = (match JsonExportStrategy.validate data with
        | Ok _ => Ok true
        | Throw e => Throw e
        end, w))
    ∧ (to_lower format = "csv" →
       DataExporter_validate (new_DataExporter clock fs_save options) data format w
       = (match CsvExportStrategy.validate data with
          | Ok _ => Ok true
          | Throw e => Throw e
          end, w))
    ∧ (truthy data = false →
       JsonExportStrategy.validate data
       = Throw (DataExportError "Data cannot be null or undefined")
       ∧ CsvExportStrategy.validate data
         = Throw (DataExportError "Data cannot be null or undefined"))
    ∧ (truthy data = true →
       CsvExportStrategy.validate data
       = if isArray data || String.eqb (typeof data) "object" then Ok tt
         else Throw (DataExportError "CSV export requires object or array of objects"))
    ∧ (isFormatSupported (factory (new_DataExporter clock fs_save options)) format = false →
       DataExporter_validate (new_DataExporter clock fs_save options) data format w
       = (Throw (DataExportError ("Unsupported export format: " +:+ format)), w)).
Proof.
  intros world clock fs_save options data format w.
  unfold DataExporter_validate, bind, lift, ret, create. simpl factory.
  split; [|split; [|split; [|split]]].
  - intros ->. unfold default_strategies.
    rewrite lookup_insert_ne by done. rewrite lookup_insert_eq. simpl.
    by destruct (JsonExportStrategy.validate data).
  - intros ->. unfold default_strategies. rewrite lookup_insert_eq. simpl.
    by destruct (CsvExportStrategy.validate data).
  - intros Hfalsy.
    unfold JsonExportStrategy.validate, CsvExportStrategy.validate, ExportStrategy.validate.
    by rewrite Hfalsy.
  - intros Htruthy. unfold CsvExportStrategy.validate, ExportStrategy.validate.
    rewrite Htruthy. simpl. rewrite <-negb_orb.
    by destruct (isArray data || String.eqb (typeof data) "object").
  - intros Hno. unfold isFormatSupported in Hno. apply bool_decide_eq_false in Hno.
    destruct (default_strategies clock fs_save !! to_lower format) eqn:E; [|done].
    exfalso. apply Hno. by eexists.
Qed.

Lemma X3_facade_validate_witness :
  DataExporter_validate (new_DataExporter Sim.clock Sim.fs_save []) (VNum 5) "CSV" Sim.start
  = (Throw (DataExportError "CSV export requires object or array of objects"), Sim.start)
  ∧ DataExporter_validate (new_DataExporter Sim.clock Sim.fs_save []) (VNum 0) "Json" Sim.start
    = (Throw (DataExportError "Data cannot be null or undefined"), Sim.start)
  ∧ DataExporter_validate (new_DataExporter Sim.clock Sim.fs_save []) VNull "xml" Sim.start
    = (Throw (DataExportError "Unsupported export format: xml"), Sim.start).
Proof.
  split; [|split].
  - rewrite (proj1 (proj2 (X3_facade_validate Sim.world Sim.clock Sim.fs_save [] (VNum 5)
                             "CSV" Sim.start)) eq_refl).
    by rewrite (proj1 (proj2 (proj2 (proj2
                 (X3_facade_validate Sim.world Sim.clock Sim.fs_save [] (VNum 5)
                    "CSV" Sim.start)))) eq_refl).
  - rewrite (proj1 (X3_facade_validate Sim.world Sim.clock Sim.fs_save [] (VNum 0)
                      "Json" Sim.start) eq_refl).
    by rewrite (proj1 (proj1 (proj2 (proj2
                 (X3_facade_validate Sim.world Sim.clock Sim.fs_save [] (VNum 0)
                    "Json" Sim.start))) eq_refl)).
  - exact (proj2 (proj2 (proj2 (proj2
             (X3_facade_validate Sim.world Sim.clock Sim.fs_save [] VNull
                "xml" Sim.start)))) eq_refl).
Defined.

(** The layers of a merged configuration: an option is read from the
    per-call options when they have the key, else from the options of the
    exporter, else from the defaults of the strategy. *)
Lemma opt_three_layers (strategyDefaults exporterDefaults options : fields_t) (k : string) :
  NoDup (map fst strategyDefaults) →
  NoDup (map fst exporterDefaults) →
  NoDup (map fst options) →
  opt (spread2 (VObj strategyDefaults)
         (VObj (spread2 (VObj exporterDefaults) (VObj options)))) k
  = match obj_get k options with
    | Some v => v
    | None =>
        match obj_get k exporterDefaults with
        | Some v => v
        | None => opt strategyDefaults k
        end
    end.
Proof.
  intros Hs He Ho.
  rewrite opt_spread2; [|done|apply NoDup_keys_spread2].
  unfold spread2. simpl. rewrite !obj_get_assign_fields, !obj_get_rev by done.
  destruct (obj_get k options); [done|]. by destruct (obj_get k exporterDefaults).
Qed.

Lemma opt_spread2_again (a b : fields_t) (k : string) :
  NoDup (map fst b) →
  opt (spread2 (VObj (spread2 (VObj a) (VObj b))) (VObj b)) k
  = opt (spread2 (VObj a) (VObj b)) k.
Proof.
  intros Hb. rewrite opt_spread2; [|apply NoDup_keys_spread2|done].
  destruct (obj_get k b) as [v|] eqn:E; [|done].
  unfold opt, spread2. simpl. rewrite obj_get_assign_fields, obj_get_rev by done.
  by rewrite E.
Qed.

(** X4.  What a strategy made by the constructor of ExportStrategy sees
    under the facade.  Its hooks [transform] and [generateContent] receive,
    and [saveToFile] reads the encoding from, a configuration in which an
    option comes from the per-call options when they have the key, even
    with the value undefined, else from the options of the exporter, else
    from the defaults of the strategy.  The output path is the exception:
    when the facade generates a path, that path replaces whatever the
    layers say. *)
Theorem X4_configuration_precedence :
  ∀ (world : Type) (clock : world → string * world)
    (fs_save : value → value → value → world → option string * world)
    (path_resolve : value → value → result string)
    (this : exporter) (className name : string) (defaults : fields_t) (m : methods world)
    (data : value) (format : string) (options : fields_t) (w : world),
    let merged := spread2 (VObj (defaultOptions this)) (VObj options) in
    let layered (k : string) :=
      match obj_get k options with
      | Some v => v
      | None =>
          match obj_get k (defaultOptions this) with
          | Some v => v
          | None => opt defaults k
          end
      end in
    let run (this_options config : fields_t) : M world value :=
      _ ←$ m_validate m data;
      transformedData ←$ m_transform m data config;
      content ←$ m_generateContent m transformedData config;
      if truthy (opt config "outputPath")
      then _ ←$ saveToFile fs_save this_options content (opt config "outputPath");
           ret (opt config "outputPath")
      else ret content in
    NoDup (map fst defaults) →
    NoDup (map fst (defaultOptions this)) →
    NoDup (map fst options) →
    factory this !! to_lower format
    = Some (Class className true (λ o, Ok (new_strategy fs_save name defaults m o))) →
    (negb (truthy (opt merged "outputPath")) && truthy (opt merged "outputDir") = false →
     ∃ this_options config,
       (∀ k, opt this_options k = layered k)
       ∧ (∀ k, opt config k = layered k)
       ∧ DataExporter_export clock path_resolve this data format options w
         = run this_options config w)
    ∧ (∀ (p : string) (w1 : world),
         negb (truthy (opt merged "outputPath")) && truthy (opt merged "outputDir") = true →
         generateOutputPath clock path_resolve format merged w = (Ok p, w1) →
         ∃ this_options config,
           (∀ k, opt this_options k = if String.eqb k "outputPath" then VStr p else layered k)
           ∧ (∀ k, opt config k = if String.eqb k "outputPath" then VStr p else layered k)
           ∧ DataExporter_export clock path_resolve this data format options w
             = run this_options config w1).
Proof.
  intros world clock fs_save path_resolve this className name defaults m data format options w
    merged layered run Hd He Ho Hclass.
  assert (NoDup (map fst merged)) as Hm by apply NoDup_keys_spread2.
  split.
  - intros Hno.
    exists (spread2 (VObj defaults) (VObj merged)),
           (spread2 (VObj (spread2 (VObj defaults) (VObj merged))) (VObj merged)).
    split; [|split].
    + intros k. by apply opt_three_layers.
    + intros k. rewrite opt_spread2_again by done. by apply opt_three_layers.
    + unfold DataExporter_export, bind. fold merged. rewrite Hno. simpl.
      unfold lift, create. by rewrite Hclass.
  - intros p w1 Hyes Hgen.
    set (config := obj_set "outputPath" (VStr p) merged).
    assert (NoDup (map fst config)) as Hc by (by apply NoDup_keys_obj_set).
    assert (∀ k, opt (spread2 (VObj defaults) (VObj config)) k
                 = if String.eqb k "outputPath" then VStr p else layered k) as Hopt.
    { intros k. rewrite opt_spread2 by done. unfold config.
      destruct (String.eqb_spec k "outputPath") as [->|Hk].
      - by rewrite obj_get_set_eq.
      - rewrite obj_get_set_ne by done. unfold layered.
        rewrite <-(opt_three_layers defaults (defaultOptions this) options k) by done.
        by rewrite opt_spread2 by done. }
    exists (spread2 (VObj defaults) (VObj config)),
           (spread2 (VObj (spread2 (VObj defaults) (VObj config))) (VObj config)).
    split; [exact Hopt|]. split.
    + intros k. by rewrite opt_spread2_again.
    + unfold DataExporter_export, bind. fold merged. rewrite Hyes, Hgen. simpl.
      fold config. unfold lift, create. by rewrite Hclass.
Qed.

(** The theorem on the simulated world: an exporter made with prettify off
    and no output directory, asked for JSON with prettify given as
    undefined.  The JSON strategy sees prettify undefined, not the false of
    the exporter and not the true of its own defaults, and includeMetadata
    from its defaults. *)
Lemma X4_configuration_precedence_witness :
  ∃ config : fields_t,
    opt config "prettify" = VUndefined
    ∧ opt config "outputDir" = VNull
    ∧ opt config "includeMetadata" = VBool true.
Proof.
  destruct (proj1 (X4_configuration_precedence Sim.world Sim.clock Sim.fs_save
                     Sim.path_resolve
                     (new_DataExporter Sim.clock Sim.fs_save
                        [("prettify", VBool false); ("outputDir", VNull)])
                     "JsonExportStrategy" "json" JsonExportStrategy.getDefaultOptions
                     (json_methods Sim.clock) (VArr []) "JSON" [("prettify", VUndefined)]
                     Sim.start
                     ltac:(unfold JsonExportStrategy.getDefaultOptions;
                           do 2 apply NoDup_keys_assign_fields; constructor)
                     ltac:(apply NoDup_keys_assign_fields;
                           apply (bool_decide_unpack _); by vm_compute)
                     ltac:(apply (bool_decide_unpack _); by vm_compute)
                     eq_refl) eq_refl)
    as (this_options & config & _ & Hconfig & _).
  exists config. by rewrite !Hconfig.
Defined.

(** ** The multi-format export and generated paths *)

Lemma elem_of_keys_obj_set k v fields k' :
  k' ∈ map fst (obj_set k v fields) ↔ k' = k ∨ k' ∈ map fst fields.
Proof.
  unfold obj_set. destruct (has_key k fields) eqn:E.
  - rewrite map_fst_obj_replace. split; [by right|]. intros [->|?]; [|done].
    destruct (decide (k ∈ map fst fields)) as [?|Hno]; [done|].
    apply obj_get_None in Hno. unfold has_key in E. by rewrite Hno in E.
  - destruct (array_index k).
    + apply elem_of_keys_insert_index.
    + rewrite map_app, elem_of_app. simpl. rewrite list_elem_of_singleton. tauto.
Qed.

Lemma fold_store_keys (l : list (string * result value)) : ∀ results k,
  k ∈ map fst (fold_left store l results) ↔ k ∈ map fst l ∨ k ∈ map fst results.
Proof.
  induction l as [|[f r] l IH]; intros results k; simpl.
  - rewrite elem_of_nil. tauto.
  - rewrite IH. unfold store. simpl. rewrite elem_of_keys_obj_set, elem_of_cons. tauto.
Qed.

Lemma fold_store_NoDup (l : list (string * result value)) : ∀ results,
  NoDup (map fst results) → NoDup (map fst (fold_left store l results)).
Proof.
  induction l as [|[f r] l IH]; intros results H; simpl; [done|].
  apply IH. by apply NoDup_keys_obj_set.
Qed.

(** X5.  When no requested format is named __proto__, the object
    [toMultiple] returns has one property for each distinct requested
    format and no other property; with no format requested it is the empty
    object and the world is left as it was. *)
Theorem X5_toMultiple_result_keys :
  ∀ (world : Type) (clock : world → string * world)
    (path_resolve : value → value → result string)
    (this : exporter) (data : value) (formats : list string) (options : fields_t)
    (w : world),
    forallb (λ format, negb (is_proto format)) formats = true →
    ∃ results w',
      toMultiple clock path_resolve this data formats options w = (Ok (VObj results), w')
      ∧ NoDup (map fst results)
      ∧ (∀ format, format ∈ map fst results ↔ format ∈ formats)
      ∧ (∀ format, obj_get format results = None ↔ format ∉ formats)
      ∧ (formats = [] → results = [] ∧ w' = w).
Proof.
  intros world clock path_resolve this data formats options w _.
  exists (fold_left store (attempts clock path_resolve this data formats options w).1 []),
         (attempts clock path_resolve this data formats options w).2.
  assert (∀ format,
    format ∈ map fst (fold_left store
                        (attempts clock path_resolve this data formats options w).1 [])
    ↔ format ∈ formats) as Hkeys.
  { intros format. rewrite fold_store_keys, attempts_formats. simpl.
    rewrite elem_of_nil. tauto. }
  split; [|split; [|split; [|split]]].
  - unfold toMultiple. by rewrite toMultiple_loop_attempts.
  - apply fold_store_NoDup. constructor.
  - exact Hkeys.
  - intros format. rewrite obj_get_None. by rewrite Hkeys.
  - by intros ->.
Qed.

(** The theorem on the simulated world: json, an unregistered format and
    json again give an object with the two keys json and xml. *)
Lemma X5_toMultiple_result_witness :
  ∃ results w',
    toMultiple Sim.clock Sim.path_resolve (new_DataExporter Sim.clock Sim.fs_save [])
      (VArr [VObj [("a", VNum 1)]]) ["json"; "xml"; "json"] [] Sim.start
    = (Ok (VObj results), w')
    ∧ map fst results = ["json"; "xml"].
Proof.
  destruct (X5_toMultiple_result_keys Sim.world Sim.clock Sim.path_resolve
              (new_DataExporter Sim.clock Sim.fs_save []) (VArr [VObj [("a", VNum 1)]])
              ["json"; "xml"; "json"] [] Sim.start eq_refl)
    as (results & w' & Hrun & _).
  exists results, w'. split; [exact Hrun|].
  vm_compute in Hrun. by injection Hrun as <- _.
Defined.

Lemma dash_colons_dots_clean s :
  has_char ":"%char (dash_colons_dots s) = false
  ∧ has_char "."%char (dash_colons_dots s) = false
  ∧ String.length (dash_colons_dots s) = String.length s.
Proof.
  induction s as [|c s (IH1 & IH2 & IH3)]; [done|]. simpl.
  rewrite IH1, IH2, IH3.
  destruct (Ascii.eqb c ":"%char) eqn:E1; simpl; [done|].
  destruct (Ascii.eqb c "."%char) eqn:E2; simpl; [done|].
  by rewrite E1, E2.
Qed.

(** What replacing the colons and dots does, character by character. *)
Lemma dash_colons_dots_get (t : string) : ∀ i,
  String.get i (dash_colons_dots t)
  = option_map (λ c, if Ascii.eqb c ":"%char || Ascii.eqb c "."%char then "-"%char else c)
      (String.get i t).
Proof.
  induction t as [|c t IH]; intros i; [done|]. simpl. destruct i as [|i]; [done|]. apply IH.
Qed.

(** X6.  The file name the facade makes up is [export], then a dash and the
    timestamp unless the timestamp is empty, a dot and the format as the
    caller spelled it.  With createTimestamp set the timestamp is the ISO
    instant the clock shows with each colon and each dot replaced by a dash
    and every other character kept in its place, so it has no colon and no
    dot; else it is empty and the clock is not read.  A filename option
    replaces the made-up name, and the clock is still read when
    createTimestamp is set. *)
Theorem X6_generated_output_path :
  ∀ (world : Type) (clock : world → string * world)
    (path_resolve : value → value → result string)
    (format : string) (options : fields_t) (w : world),
    (truthy (opt options "filename") = false →
     truthy (opt options "createTimestamp") = true →
     generateOutputPath clock path_resolve format options w
     = (path_resolve (opt options "outputDir")
          (VStr ("export"
                 +:+ (if String.eqb (dash_colons_dots (clock w).1) EmptyString
                      then EmptyString else "-" +:+ dash_colons_dots (clock w).1)
                 +:+ "." +:+ format)), (clock w).2))
    ∧ (∀ (t : string),
         (∀ i, String.get i (dash_colons_dots t)
               = option_map
                   (λ c, if Ascii.eqb c ":"%char || Ascii.eqb c "."%char
                         then "-"%char else c) (String.get i t))
         ∧ has_char ":"%char (dash_colons_dots t) = false
         ∧ has_char "."%char (dash_colons_dots t) = false
         ∧ String.length (dash_colons_dots t) = String.length t)
    ∧ (truthy (opt options "filename") = false →
       truthy (opt options "createTimestamp") = false →
       generateOutputPath clock path_resolve format options w
       = (path_resolve (opt options "outputDir") (VStr ("export." +:+ format)), w))
    ∧ (truthy (opt options "filename") = true →
       generateOutputPath clock path_resolve format options w
       = (path_resolve (opt options "outputDir") (opt options "filename"),
          if truthy (opt options "createTimestamp") then (clock w).2 else w)).
Proof.
  intros world clock path_resolve format options w.
  unfold generateOutputPath, bind, read_clock, ret, lift.
  split; [|split; [|split]].
  - intros Hfile Hstamp. rewrite Hstamp, Hfile.
    destruct (clock w) as [t w'] eqn:E. simpl.
    by destruct (String.eqb (dash_colons_dots t) EmptyString).
  - intros t. split; [apply dash_colons_dots_get | apply dash_colons_dots_clean].
  - intros Hfile Hstamp. by rewrite Hstamp, Hfile.
  - intros Hfile. rewrite Hfile.
    destruct (truthy (opt options "createTimestamp")); [|done].
    by destruct (clock w).
Qed.

Lemma X6_generated_output_path_witness :
  generateOutputPath Sim.clock Sim.path_resolve "CSV"
    [("outputDir", VStr "out"); ("createTimestamp", VBool true)] Sim.start
  = (Sim.path_resolve (VStr "out") (VStr "export-2024-01-02T03-04-05-678Z.CSV"), Sim.start)
  ∧ generateOutputPath Sim.clock Sim.path_resolve "csv"
      [("outputDir", VStr "out"); ("createTimestamp", VBool false)] Sim.start
    = (Sim.path_resolve (VStr "out") (VStr "export.csv"), Sim.start)
  ∧ generateOutputPath Sim.clock Sim.path_resolve "csv"
      [("outputDir", VStr "out"); ("filename", VStr "a.csv")] Sim.start
    = (Sim.path_resolve (VStr "out") (VStr "a.csv"), Sim.start).
Proof.
  split; [|split].
  - exact (proj1 (X6_generated_output_path Sim.world Sim.clock Sim.path_resolve "CSV"
                    [("outputDir", VStr "out"); ("createTimestamp", VBool true)] Sim.start)
             eq_refl eq_refl).
  - exact (proj1 (proj2 (proj2
             (X6_generated_output_path Sim.world Sim.clock Sim.path_resolve "csv"
                [("outputDir", VStr "out"); ("createTimestamp", VBool false)] Sim.start)))
             eq_refl eq_refl).
  - exact (proj2 (proj2 (proj2
             (X6_generated_output_path Sim.world Sim.clock Sim.path_resolve "csv"
                [("outputDir", VStr "out"); ("filename", VStr "a.csv")] Sim.start)))
             eq_refl).
Defined.

(** ** The template method *)

(** X7.  A CSV export touches the world only to save: when validation or
    serialization throws, the error surfaces and the world is as before;
    without an output path the content is returned and the world is as
    before; with one, the storage collaborator receives that path, the very
    content an in-memory export returns and the encoding fixed at
    construction (a per-call encoding is not consulted), and the export
    returns the path, or throws a FileSystemError whose message is the
    collaborator's behind a fixed prefix. *)
Theorem X7_csv_export_persists_content :
  ∀ (world : Type) (fs_save : value → value → value → world → option string * world)
    (this_options options : fields_t) (data : value) (w : world),
    (∀ e, CsvExportStrategy.validate data = Throw e →
          ExportStrategy_export fs_save csv_methods this_options data options w
          = (Throw e, w))
    ∧ (∀ e, CsvExportStrategy.validate data = Ok tt →
            CsvExportStrategy.generateContent
              (CsvExportStrategy.transform data (spread2 (VObj this_options) (VObj options)))
              (spread2 (VObj this_options) (VObj options)) = Throw e →
            ExportStrategy_export fs_save csv_methods this_options data options w
            = (Throw e, w))
    ∧ (∀ content,
         CsvExportStrategy.validate data = Ok tt →
         CsvExportStrategy.generateContent
           (CsvExportStrategy.transform data (spread2 (VObj this_options) (VObj options)))
           (spread2 (VObj this_options) (VObj options)) = Ok content →
         ExportStrategy_export fs_save csv_methods this_options data options w
         = if truthy (opt (spread2 (VObj this_options) (VObj options)) "outputPath")
           then match fs_save (opt (spread2 (VObj this_options) (VObj options)) "outputPath")
                        (VStr content) (opt this_options "encoding") w with
                | (None, w') =>
                    (Ok (opt (spread2 (VObj this_options) (VObj options)) "outputPath"), w')
                | (Some msg, w') =>
                    (Throw (FileSystemError ("Failed to save file: " +:+ msg)), w')
                end
           else (Ok (VStr content), w)).
Proof.
  intros world fs_save this_options options data w.
  unfold ExportStrategy_export, bind, csv_methods, lift, ret, saveToFile. simpl.
  split; [|split].
  - intros e ->. done.
  - intros e -> ->. done.
  - intros content -> ->. simpl.
    destruct (truthy (opt _ "outputPath")); [|done].
    by destruct (fs_save _ _ _ w) as [[msg|] w'].
Qed.

Lemma X7_csv_export_witness :
  CsvExportStrategy.validate (VArr [VObj [("a", VNum 1)]]) = Ok tt
  ∧ ExportStrategy_export Sim.fs_save csv_methods
      (spread2 (VObj CsvExportStrategy.getDefaultOptions) (VObj [("encoding", VStr "utf8")]))
      (VArr [VObj [("a", VNum 1)]])
      [("outputPath", VStr "out.csv"); ("encoding", VStr "latin1")] Sim.start
    = (Ok (VStr "out.csv"),
       Sim.World (Sim.time Sim.start) (<["out.csv" := "a" +:+ newline +:+ "1"]> ∅))
  ∧ ExportStrategy_export Sim.fs_save csv_methods CsvExportStrategy.getDefaultOptions
      (VNum 7) [("outputPath", VStr "out.csv")] Sim.start
    = (Throw (DataExportError "CSV export requires object or array of objects"), Sim.start).
Proof.
  split; [reflexivity|]. split.
  - rewrite (proj2 (proj2 (X7_csv_export_persists_content Sim.world Sim.fs_save
               (spread2 (VObj CsvExportStrategy.getDefaultOptions)
                        (VObj [("encoding", VStr "utf8")]))
               [("outputPath", VStr "out.csv"); ("encoding", VStr "latin1")]
               (VArr [VObj [("a", VNum 1)]]) Sim.start))
             ("a" +:+ newline +:+ "1") eq_refl eq_refl).
    reflexivity.
  - exact (proj1 (X7_csv_export_persists_content Sim.world Sim.fs_save
                    CsvExportStrategy.getDefaultOptions [("outputPath", VStr "out.csv")]
                    (VNum 7) Sim.start) _ eq_refl).
Defined.

(** X8.  A strategy that overrides none of the hooks of ExportStrategy can
    never export: a falsy dataset fails the shared validation, and every
    other dataset reaches the inherited [generateContent], which throws;
    nothing is saved in either case. *)
Theorem X8_base_strategy_cannot_export :
  ∀ (world : Type) (fs_save : value → value → value → world → option string * world)
    (this_options options : fields_t) (data : value) (w : world),
    ExportStrategy_export fs_save base_methods this_options data options w
    = (Throw (if truthy data
              then PlainError "generateContent must be implemented by concrete strategy"
              else DataExportError "Data cannot be null or undefined"), w).
Proof.
  intros world fs_save this_options options data w.
  unfold ExportStrategy_export, bind, base_methods, lift, ret, raise. simpl.
  unfold ExportStrategy.validate. by destruct (truthy data).
Qed.

(** ** More on the object flattener *)

Lemma nesting_field k x fields :
  (k, x) ∈ fields → (nesting x < nesting (VObj fields))%nat.
Proof.
  simpl. induction fields as [|[k0 x0] fields IH]; [by intros ?%elem_of_nil|].
  intros [[= <- <-]|Hin]%elem_of_cons; [lia|]. specialize (IH Hin). lia.
Qed.

Lemma number_ge_below (d n : Z) maxDepth :
  to_number maxDepth = Some n → (d < n)%Z → number_ge d maxDepth = false.
Proof. intros Hn Hd. unfold number_ge. rewrite Hn. by apply Z.leb_gt. Qed.

Lemma flattenObject_flattens_all v :
  ∀ prefix maxDepth n currentDepth (e : string * value),
    to_number maxDepth = Some n →
    (currentDepth + Z.of_nat (nesting v) ≤ n)%Z →
    e ∈ own_entries (CsvExportStrategy.flattenObject v prefix maxDepth currentDepth) →
    CsvExportStrategy.is_nested_object v = true →
    CsvExportStrategy.is_nested_object e.2 = false.
Proof.
  induction v as [| | b | z | s | dt | items _ | fields IH] using value_nested_ind;
    intros prefix maxDepth n d e Hn Hdepth Hin Hobj;
    try (unfold CsvExportStrategy.is_nested_object in Hobj; simpl in Hobj;
         rewrite ?andb_false_r in Hobj; discriminate).
  - simpl in Hin. destruct (number_ge _ _); simpl in Hin; by apply elem_of_nil in Hin.
  - rewrite flattenObject_object in Hin.
    rewrite (number_ge_below d n) in Hin; [|done|simpl in Hdepth; lia].
    simpl own_entries in Hin.
    assert (∀ entries flattened,
      (∀ kv, kv ∈ entries → kv ∈ fields) →
      (∀ e', e' ∈ flattened → CsvExportStrategy.is_nested_object e'.2 = false) →
      e ∈ CsvExportStrategy.flatten_entries prefix maxDepth d entries flattened →
      CsvExportStrategy.is_nested_object e.2 = false) as Hloop.
    { induction entries as [|[key val] entries IHentries]; simpl;
        intros flattened Hsub Hacc He; [by apply Hacc|].
      assert ((key, val) ∈ fields) as Hkv by (apply Hsub, list_elem_of_here).
      eapply IHentries; [| |exact He].
      { intros kv ?. by apply Hsub, list_elem_of_further. }
      intros e' He'. destruct (CsvExportStrategy.is_nested_object val) eqn:Hnested.
      - apply elem_of_assign_fields in He' as [?|(e'' & Hin' & ->)]; [by apply Hacc|].
        eapply Forall_forall in IH; [|exact Hkv]. simpl in IH.
        eapply (IH _ maxDepth n (d + 1)%Z); [done| |exact Hin'|done].
        pose proof (nesting_field _ _ _ Hkv). lia.
      - apply elem_of_obj_set in He' as [->|?]; [done | by apply Hacc]. }
    eapply Hloop; [done| |exact Hin]. by intros e' ?%elem_of_nil.
Qed.

(** X9.  When maxDepth is a number that the depth of the call plus the
    nesting of the record does not exceed, flattening is complete: no value
    of the flattened record is a record or a Date. *)
Theorem X9_flatten_is_complete_within_depth :
  ∀ (fields : fields_t) (prefix : string) (maxDepth : value) (n currentDepth : Z)
    (e : string * value),
    to_number maxDepth = Some n →
    (currentDepth + Z.of_nat (nesting (VObj fields)) ≤ n)%Z →
    e ∈ own_entries
          (CsvExportStrategy.flattenObject (VObj fields) prefix maxDepth currentDepth) →
    CsvExportStrategy.is_nested_object e.2 = false.
Proof.
  intros fields prefix maxDepth n d e Hn Hdepth Hin.
  by eapply (flattenObject_flattens_all (VObj fields)).
Qed.

Lemma X9_flatten_is_complete_witness :
  to_number (VNum 3) = Some 3%Z
  ∧ (0 + Z.of_nat (nesting (VObj [("a", VObj [("b", VObj [("c", VNum 1)])])])) ≤ 3)%Z
  ∧ ("a.b.c", VNum 1)
      ∈ own_entries (CsvExportStrategy.flattenObject
                       (VObj [("a", VObj [("b", VObj [("c", VNum 1)])])])
                       EmptyString (VNum 3) 0)
  ∧ CsvExportStrategy.is_nested_object (VNum 1) = false.
Proof.
  assert (("a.b.c", VNum 1)
      ∈ own_entries (CsvExportStrategy.flattenObject
                       (VObj [("a", VObj [("b", VObj [("c", VNum 1)])])])
                       EmptyString (VNum 3) 0)) as Hin.
  { vm_compute. apply list_elem_of_here. }
  assert ((0 + Z.of_nat (nesting (VObj [("a", VObj [("b", VObj [("c", VNum 1)])])])) ≤ 3)%Z)
    as Hdepth by (vm_compute; discriminate).
  split; [reflexivity|]. split; [exact Hdepth|]. split; [exact Hin|].
  exact (X9_flatten_is_complete_within_depth
           [("a", VObj [("b", VObj [("c", VNum 1)])])] EmptyString (VNum 3) 3 0
           ("a.b.c", VNum 1) eq_refl Hdepth Hin).
Defined.

Lemma flatten_entries_NoDup prefix maxDepth currentDepth entries : ∀ flattened,
  NoDup (map fst flattened) →
  NoDup (map fst (CsvExportStrategy.flatten_entries prefix maxDepth currentDepth
                    entries flattened)).
Proof.
  induction entries as [|[key val] entries IH]; simpl; intros flattened H; [done|].
  apply IH. destruct (CsvExportStrategy.is_nested_object val).
  - by apply NoDup_keys_assign_fields.
  - by apply NoDup_keys_obj_set.
Qed.



(** ** Flat records *)

Lemma key_fits_mono seen seen' k :
  (∀ k', k' ∈ seen' → k' ∈ seen) → key_fits seen k = true → key_fits seen' k = true.
Proof.
  intros Hsub. unfold key_fits. intros [H1 H2]%andb_true_iff.
  apply andb_true_iff. split.
  - apply negb_true_iff. apply negb_true_iff in H1.
    destruct (existsb (String.eqb k) seen') eqn:E; [|done].
    apply existsb_exists in E as (k' & Hin & Heq).
    assert (existsb (String.eqb k) seen = true) as Hc; [|by rewrite Hc in H1].
    apply existsb_exists. exists k'. split; [|done].
    apply list_elem_of_In, Hsub, list_elem_of_In, Hin.
  - destruct (array_index k); [|done].
    apply forallb_forall. intros k' Hin.
    eapply forallb_forall in H2; [exact H2|].
    apply list_elem_of_In, Hsub, list_elem_of_In, Hin.
Qed.

(** Leaving properties out of a record keeps the remaining keys in order. *)
Lemma keys_in_order_filter (P : string * value → Prop) `{∀ kv, Decision (P kv)}
    (fields : list (string * value)) : ∀ seen seen',
  (∀ k, k ∈ seen' → k ∈ seen) →
  keys_in_order seen (map fst fields) = true →
  keys_in_order seen' (map fst (filter P fields)) = true.
Proof.
  induction fields as [|[k v] fields IH]; intros seen seen' Hsub Hord; [done|].
  simpl in Hord. apply andb_true_iff in Hord as [Hk Hrest].
  destruct (decide (P (k, v))) as [Hp|Hp].
  - rewrite filter_cons_True by done. simpl. apply andb_true_iff. split.
    + by eapply key_fits_mono.
    + eapply IH; [|exact Hrest]. intros k'. rewrite !elem_of_app.
      intros [?|?]; [left; by apply Hsub | by right].
  - rewrite filter_cons_False by done.
    eapply IH; [|exact Hrest]. intros k' ?. apply elem_of_app. left. by apply Hsub.
Qed.

Lemma flatten_entries_flat maxDepth currentDepth (entries : list (string * value)) :
  ∀ flattened,
  Forall (λ kv : string * value, is_record kv.2 = false) entries →
  CsvExportStrategy.flatten_entries EmptyString maxDepth currentDepth entries flattened
  = assign_fields flattened (filter (λ kv : string * value, is_date kv.2 = false) entries).
Proof.
  induction entries as [|[key val] entries IH]; intros flattened Hflat; [done|].
  apply Forall_cons in Hflat as [Hval Hflat]. simpl in Hval.
  cbn [CsvExportStrategy.flatten_entries].
  destruct (is_date val) eqn:Hdate.
  - destruct val; try discriminate Hdate.
    rewrite filter_cons_False by (simpl; congruence).
    rewrite <-(IH _ Hflat). f_equal. simpl. by destruct (number_ge _ _).
  - assert (CsvExportStrategy.is_nested_object val = false) as ->.
    { destruct val; try discriminate Hval; try discriminate Hdate;
        unfold CsvExportStrategy.is_nested_object; simpl; by rewrite ?andb_false_r. }
    rewrite filter_cons_True by done. by rewrite (IH _ Hflat).
Qed.

Lemma flattenObject_flat_record (fields : list (string * value)) maxDepth currentDepth :
  canonical fields = true →
  Forall (λ kv : string * value, is_record kv.2 = false) fields →
  number_ge currentDepth maxDepth = false →
  CsvExportStrategy.flattenObject (VObj fields) EmptyString maxDepth currentDepth
  = VObj (filter (λ kv : string * value, is_date kv.2 = false) fields).
Proof.
  intros Hc Hflat Hrun.
  rewrite flattenObject_object, Hrun, flatten_entries_flat by done.
  rewrite assign_fields_canonical; [done|].
  eapply keys_in_order_filter; [|exact Hc]. done.
Qed.

Lemma filter_without_dates (fields : list (string * value)) :
  Forall (λ kv : string * value, is_date kv.2 = false) fields →
  filter (λ kv : string * value, is_date kv.2 = false) fields = fields.
Proof.
  induction 1 as [|kv fields Hkv _ IH]; [done|].
  rewrite filter_cons_True by done. by rewrite IH.
Qed.



(** ** Statistics and flattening *)

Lemma flattenObject_primitive v prefix maxDepth currentDepth :
  is_object_value v = false →
  CsvExportStrategy.flattenObject v prefix maxDepth currentDepth = v.
Proof. by destruct v. Qed.

Lemma flat_values fields :
  existsb is_object_value (map snd fields) = false →
  Forall (λ kv : string * value, is_record kv.2 = false) fields
  ∧ Forall (λ kv : string * value, is_date kv.2 = false) fields.
Proof.
  induction fields as [|[k v] fields IH]; simpl; [by split|].
  intros [Hv Hrest]%orb_false_iff. destruct (IH Hrest) as [H1 H2].
  split; constructor; try done; by destruct v.
Qed.



(** ** CSV cells *)

(** X12.  With escapeQuotes and quoteStrings both on, a text cell is written
    as it is unless it contains the delimiter, a double quote, a line feed
    or a carriage return, and otherwise between double quotes with every
    double quote of the text doubled.  With quoteStrings off the quotes are
    still doubled but the cell is never enclosed. *)
Theorem X12_csv_text_cell_quoting :
  ∀ (s : string) (options : fields_t),
    truthy (opt options "escapeQuotes") = true →
    (truthy (opt options "quoteStrings") = true →
     CsvExportStrategy.formatCsvValue (VStr s) options
     = VStr (if needs_quoting options s then quoted (double_quotes s) else s))
    ∧ (truthy (opt options "quoteStrings") = false →
       CsvExportStrategy.formatCsvValue (VStr s) options = VStr (double_quotes s)).
Proof.
  intros s options Hescape. unfold CsvExportStrategy.formatCsvValue, needs_quoting.
  rewrite Hescape. change (to_string (VStr s)) with s. rewrite andb_true_l.
  destruct (includes s (String dquote EmptyString)) eqn:Hq.
  - split; intros ->; simpl; [|done].
    rewrite (includes_quote_doubled s Hq). by rewrite !orb_true_r.
  - rewrite (double_quotes_without_quote s Hq). split; intros ->; simpl; [|done].
    by rewrite Hq.
Qed.

Lemma X12_csv_text_cell_witness :
  CsvExportStrategy.formatCsvValue (VStr "a,b") CsvExportStrategy.getDefaultOptions
  = VStr (quoted "a,b").
Proof.
  exact (proj1 (X12_csv_text_cell_quoting "a,b" CsvExportStrategy.getDefaultOptions eq_refl)
           eq_refl).
Defined.

(** ** CSV content *)

(** Reading the cells of a row fails at a null or undefined element as soon
    as there is a column to read. *)
Lemma row_cells_nullish (x : value) (h : string) (hs : list string) (options : fields_t) :
  is_nullish x = true →
  CsvExportStrategy.row_cells (h :: hs) x options
  = Throw (TypeError ("Cannot read properties of " +:+ to_string x
                      +:+ " (reading '" +:+ h +:+ "')")).
Proof. by destruct x. Qed.

Lemma row_cells_no_columns (x : value) (options : fields_t) :
  CsvExportStrategy.row_cells [] x options = Ok [].
Proof. reflexivity. Qed.

(** X13.  [generateContent] of the CSV strategy throws whenever the
    sequence has a null or undefined element and some element contributes a
    column; when that element is the first of the sequence, what is thrown
    is the TypeError of reading the first column from it.  When no element
    contributes a column, nothing is read: the content is one empty row per
    element, after an empty header row when headers are requested. *)
Theorem X13_csv_content_fails_on_null_rows :
  ∀ (options : fields_t),
    (∀ (items : list value),
       existsb is_nullish items = true →
       CsvExportStrategy.collect_keys items ≠ [] →
       is_ok (CsvExportStrategy.generateContent (VArr items) options) = false)
    ∧ (∀ (x : value) (rest : list value) (h : string) (hs : list string),
         is_nullish x = true →
         CsvExportStrategy.collect_keys (x :: rest) = h :: hs →
         CsvExportStrategy.generateContent (VArr (x :: rest)) options
         = Throw (TypeError ("Cannot read properties of " +:+ to_string x
                             +:+ " (reading '" +:+ h +:+ "')")))
    ∧ (∀ (items : list value),
         CsvExportStrategy.collect_keys items = [] →
         CsvExportStrategy.generateContent (VArr items) options
         = Ok (join newline
                 ((if truthy (opt options "includeHeaders") then [EmptyString] else [])
                  ++ map (λ _, EmptyString) items))).
Proof.
  intros options. split; [|split].
  - intros items Hnull Hkeys.
    destruct items as [|item items]; [done|].
    unfold CsvExportStrategy.generateContent, CsvExportStrategy.build_rows.
    set (data := item :: items) in *.
    destruct (CsvExportStrategy.collect_keys data) as [|h hs] eqn:Hh; [done|].
    assert (is_ok (rmap (λ obj, rowData ←! CsvExportStrategy.row_cells (h :: hs) obj options;
                                Ok (CsvExportStrategy.formatCsvRow rowData options)) data)
            = false) as Hrows.
    { clearbody data. clear Hh Hkeys.
      induction data as [|x l IH]; [done|]. simpl in Hnull.
      destruct (is_nullish x) eqn:Hx.
      - cbn [rmap]. by rewrite row_cells_nullish.
      - cbn [rmap]. destruct (CsvExportStrategy.row_cells (h :: hs) x options); [|done].
        simpl. specialize (IH Hnull). by destruct (rmap _ l). }
    by destruct (rmap _ data).
  - intros x rest h hs Hx Hkeys.
    unfold CsvExportStrategy.generateContent, CsvExportStrategy.build_rows.
    rewrite Hkeys. cbn [rmap]. by rewrite row_cells_nullish.
  - intros items Hkeys.
    destruct items as [|item items]; [by destruct (truthy _)|].
    unfold CsvExportStrategy.generateContent, CsvExportStrategy.build_rows.
    rewrite Hkeys.
    assert (∀ l : list value,
              rmap (λ obj, rowData ←! CsvExportStrategy.row_cells [] obj options;
                           Ok (CsvExportStrategy.formatCsvRow rowData options)) l
              = Ok (map (λ _, EmptyString) l)) as Hrows.
    { induction l as [|x l IH]; [done|]. cbn [rmap]. rewrite row_cells_no_columns.
      cbn [rbind]. by rewrite IH. }
    rewrite Hrows. simpl. by destruct (truthy _).
Qed.

Lemma X13_csv_content_witness :
  CsvExportStrategy.generateContent (VArr [VNull; VObj [("a", VNum 1)]])
    CsvExportStrategy.getDefaultOptions
  = Throw (TypeError "Cannot read properties of null (reading 'a')")
  ∧ CsvExportStrategy.generateContent (VArr [VNull; VNum 1])
      CsvExportStrategy.getDefaultOptions
    = Ok (newline +:+ newline).
Proof.
  split.
  - exact (proj1 (proj2 (X13_csv_content_fails_on_null_rows
                           CsvExportStrategy.getDefaultOptions))
             VNull [VObj [("a", VNum 1)]] "a" [] eq_refl eq_refl).
  - exact (proj2 (proj2 (X13_csv_content_fails_on_null_rows
                           CsvExportStrategy.getDefaultOptions))
             [VNull; VNum 1] eq_refl).
Defined.

(** ** What a JSON export reads back as *)

Lemma serialize_json_undefined gap indent v :
  serialize_json gap indent v = None ↔ v = VUndefined.
Proof. destruct v as [| | [] | | | | |]; simpl; split; intros H; done. Qed.

(** The normal form of a value serializes as the value does. *)
Lemma serialize_json_normal v : ∀ gap indent,
  serialize_json gap indent (json_normal v) = serialize_json gap indent v.
Proof.
  induction v as [| | b | n | s | d | items IH | fields IH] using value_nested_ind;
    intros gap indent; try done.
  - simpl. do 2 f_equal.
    assert (Forall (λ x, serialize_json gap (indent +:+ gap) (json_normal x)
                         = serialize_json gap (indent +:+ gap) x) items) as Hf.
    { eapply Forall_impl; [exact IH|]. intros x H. apply H. }
    clear IH. assert (serialize_json gap (indent +:+ gap) VNull = Some "null") as Hn by done.
    assert (serialize_json gap (indent +:+ gap) VUndefined = None) as Hu by done.
    set (f := serialize_json gap (indent +:+ gap)) in *. clearbody f.
    induction Hf as [|x items Hx _ IHitems]; [done|].
    simpl in *. rewrite IHitems. f_equal.
    destruct x; simpl in *; by rewrite ?Hx, ?Hn, ?Hu.
  - simpl. do 2 f_equal.
    assert (Forall (λ kv : string * value,
                      serialize_json gap (indent +:+ gap) (json_normal kv.2)
                      = serialize_json gap (indent +:+ gap) kv.2) fields) as Hf.
    { eapply Forall_impl; [exact IH|]. intros x H. apply H. }
    clear IH.
    assert (serialize_json gap (indent +:+ gap) VUndefined = None) as Hu by done.
    set (f := serialize_json gap (indent +:+ gap)) in *. clearbody f.
    induction Hf as [|[k x] fields Hx _ IHfields]; [done|].
    destruct x; simpl in *; rewrite ?Hu, ?IHfields, ?Hx; done.
Qed.

Lemma well_formed_array items :
  well_formed (VArr items) = true → Forall (λ x, well_formed x = true) items.
Proof.
  simpl. induction items as [|x items IH]; [constructor|].
  intros [Hx Hrest]%andb_true_iff. constructor; [done | by apply IH].
Qed.

Lemma well_formed_object fields :
  well_formed (VObj fields) = true →
  canonical fields = true ∧ Forall (λ kv : string * value, well_formed kv.2 = true) fields.
Proof.
  simpl. intros [Hc Hall]%andb_true_iff. split; [done|].
  clear Hc. induction fields as [|[k x] fields IH]; [constructor|].
  apply andb_true_iff in Hall as [Hx Hrest]. constructor; [done | by apply IH].
Qed.

Lemma json_value_array_intro items :
  Forall (λ x, json_value x = true) items → json_value (VArr items) = true.
Proof.
  induction 1 as [|x items Hx _ IH]; [done|]. simpl in *. by rewrite Hx.
Qed.

(** The members of the normal form of a record: those of the record whose
    value is not undefined, each with its value in normal form. *)
Lemma json_normal_object fields :
  json_normal (VObj fields)
  = VObj (map (λ kv : string * value, (kv.1, json_normal kv.2))
            (filter (λ kv : string * value,
                       match kv.2 with VUndefined => false | _ => true end = true) fields)).
Proof.
  simpl. f_equal. induction fields as [|[k x] fields IH]; [done|].
  destruct x;
    [by rewrite filter_cons_False by (simpl; congruence)
    |rewrite filter_cons_True by done; simpl; by rewrite <-IH ..].
Qed.

Lemma json_normal_array items :
  json_normal (VArr items)
  = VArr (map (λ x, match x with VUndefined => VNull | _ => json_normal x end) items).
Proof. reflexivity. Qed.

(** The normal form of a value whose records have their keys in order is
    a value that JSON represents without loss. *)
Lemma json_value_normal v :
  well_formed v = true →
  json_value (match v with VUndefined => VNull | _ => json_normal v end) = true.
Proof.
  induction v as [| | b | n | s | d | items IH | fields IH] using value_nested_ind;
    intros Hwf; try done.
  - apply well_formed_array in Hwf. rewrite json_normal_array.
    apply json_value_array_intro, Forall_map, list.Forall_forall. intros x Hin.
    rewrite list.Forall_forall in IH, Hwf. by apply IH, Hwf.
  - apply well_formed_object in Hwf as [Hc Hwf]. rewrite json_normal_object.
    apply json_value_object_intro.
    + unfold canonical. rewrite map_map. simpl.
      change (map (λ x : string * value, x.1)) with (map (@fst string value)).
      eapply keys_in_order_filter; [|exact Hc]. done.
    + apply Forall_map, list.Forall_forall. intros [k x] [Hx Hin]%list_elem_of_filter.
      simpl in *. rewrite list.Forall_forall in IH, Hwf.
      specialize (IH _ Hin (Hwf _ Hin)). simpl in IH. by destruct x.
Qed.



(** ** Statistics and the JSON strategy *)

(** X16.  [getExportStats] throws a TypeError for undefined: the
    serialization whose length it reads is undefined.  Whenever it returns,
    it returns the five statistics, whose recordCount is the one the JSON
    strategy writes into its metadata and whose estimatedSize is the length
    of the compact content the JSON strategy generates for the dataset,
    which is not empty. *)
Theorem X16_export_stats_agree_with_json_strategy :
  getExportStats VUndefined
  = Throw (TypeError "Cannot read properties of undefined (reading 'length')")
  ∧ ∀ (data stats : value),
      getExportStats data = Ok stats →
      object_keys stats
      = ["isArray"; "recordCount"; "dataType"; "hasNestedObjects"; "estimatedSize"]
      ∧ (∀ exportedAt,
           js_get stats "recordCount"
           = js_get (JsonExportStrategy.metadata exportedAt data) "recordCount")
      ∧ ∃ text,
          JsonExportStrategy.generateContent data [] = Ok (VStr text)
          ∧ js_get stats "estimatedSize" = Ok (VNum (Z.of_nat (String.length text)))
          ∧ text ≠ EmptyString.
Proof.
  split; [reflexivity|].
  intros data stats. unfold getExportStats, JsonExportStrategy.generateContent.
  change (truthy (opt [] "prettify")) with false. cbn iota.
  destruct (JSON_stringify data) as [text|] eqn:Htext; [|done].
  intros [= <-]. split; [done|]. split; [done|].
  exists text. split; [done|]. split; [done|].
  apply serialize_json_head in Htext as (c & t & -> & _). done.
Qed.

Lemma X16_export_stats_witness :
  getExportStats VNull
  = Ok (VObj [("isArray", VBool false); ("recordCount", VNum 1);
              ("dataType", VStr "object"); ("hasNestedObjects", VBool false);
              ("estimatedSize", VNum 4)])
  ∧ js_get (VObj [("isArray", VBool false); ("recordCount", VNum 1);
                  ("dataType", VStr "object"); ("hasNestedObjects", VBool false);
                  ("estimatedSize", VNum 4)]) "recordCount"
    = js_get (JsonExportStrategy.metadata "2024-01-02T03:04:05.678Z" VNull) "recordCount".
Proof.
  split; [reflexivity|].
  exact (proj1 (proj2 (proj2 X16_export_stats_agree_with_json_strategy VNull _ eq_refl))
           "2024-01-02T03:04:05.678Z").
Defined.

(** ** The facade with its defaults *)

(** X17.  [new DataExporter().toCSV(data)] always goes to storage: it reads
    the clock once, resolves the file name made of [export], the timestamp
    and [.csv] against [./exports], generates the content under the defaults
    of the CSV strategy extended with the three facade options, hands path,
    content and the encoding utf8 to the storage collaborator, and returns
    the path; the content itself is never returned. *)
Theorem X17_default_exporter_saves_csv :
  ∀ (world : Type) (clock : world → string * world)
    (fs_save : value → value → value → world → option string * world)
    (path_resolve : value → value → result string)
    (data : value) (w : world) (p content : string),
    let stamp := dash_colons_dots (clock w).1 in
    let config :=
      CsvExportStrategy.getDefaultOptions
      ++ [("outputDir", VStr "./exports"); ("createTimestamp", VBool true)] in
    path_resolve (VStr "./exports")
      (VStr ("export" +:+ (if truthy (VStr stamp) then "-" +:+ stamp else EmptyString)
             +:+ "." +:+ "csv")) = Ok p →
    truthy (VStr p) = true →
    CsvExportStrategy.validate data = Ok tt →
    CsvExportStrategy.generateContent
      (CsvExportStrategy.transform data (obj_set "outputPath" (VStr p) config))
      (obj_set "outputPath" (VStr p) config) = Ok content →
    toCSV clock path_resolve (new_DataExporter clock fs_save []) data [] w
    = match fs_save (VStr p) (VStr content) (VStr "utf8") (clock w).2 with
      | (Some msg, w') => (Throw (FileSystemError ("Failed to save file: " +:+ msg)), w')
      | (None, w') => (Ok (VStr p), w')
      end.
Proof.
  intros world clock fs_save path_resolve data w p content stamp config Hp Hpath Hvalid Hcontent.
  unfold toCSV, DataExporter_export, bind.
  change (spread2 (VObj (defaultOptions _)) (VObj []))
    with [("outputDir", VStr "./exports"); ("createTimestamp", VBool true)].
  cbn [opt obj_get String.eqb Ascii.eqb Bool.eqb default from_option id truthy negb andb].
  unfold generateOutputPath, bind, read_clock, ret, lift.
  cbn [opt obj_get String.eqb Ascii.eqb Bool.eqb default from_option id truthy negb andb].
  subst stamp. destruct (clock w) as [t w1]. cbn [fst snd] in *.
  cbn [truthy] in Hp. rewrite Hp.
  change (create _ "csv" ?c) with (construct (CsvExportStrategy_class fs_save) c).
  cbn [construct CsvExportStrategy_class new_strategy export].
  unfold ExportStrategy_export, bind, lift.
  cbn [m_validate m_transform m_generateContent csv_methods]. rewrite Hvalid.
  unfold ret.
  change (spread2 (VObj (spread2 _ _)) _) with (obj_set "outputPath" (VStr p) config).
  rewrite Hcontent. cbn [rbind].
  change (opt (obj_set "outputPath" (VStr p) config) "outputPath") with (VStr p).
  rewrite Hpath. unfold saveToFile.
  change (opt (spread2 _ _) "encoding") with (VStr "utf8").
  unfold lift. cbn beta iota.
  by destruct (fs_save _ _ _ w1) as [[msg|] w2].
Qed.

Lemma X17_default_exporter_witness :
  toCSV Sim.clock Sim.path_resolve (new_DataExporter Sim.clock Sim.fs_save [])
    (VArr [VObj [("a", VNum 1)]]) [] Sim.start
  = (Ok (VStr "./exports/export-2024-01-02T03-04-05-678Z.csv"),
     Sim.World "2024-01-02T03:04:05.678Z"
       (<["./exports/export-2024-01-02T03-04-05-678Z.csv" := "a" +:+ newline +:+ "1"]> ∅)).
Proof.
  exact (X17_default_exporter_saves_csv Sim.world Sim.clock Sim.fs_save Sim.path_resolve
           (VArr [VObj [("a", VNum 1)]]) Sim.start
           "./exports/export-2024-01-02T03-04-05-678Z.csv" ("a" +:+ newline +:+ "1")
           eq_refl eq_refl eq_refl eq_refl).
Defined.

(** X18.  [new DataExporter().toJSON(data)] reads the clock twice: first for
    the timestamp of the file name, then for the exportedAt field of the
    metadata, which the defaults of the JSON strategy switch on; the instants
    are those the clock shows at each reading.  The content generated under
    those defaults goes to the storage collaborator with the resolved path
    and the encoding utf8, and the path is returned. *)
Theorem X18_default_exporter_saves_json :
  ∀ (world : Type) (clock : world → string * world)
    (fs_save : value → value → value → world → option string * world)
    (path_resolve : value → value → result string)
    (data content : value) (w : world) (p : string),
    let stamp := dash_colons_dots (clock w).1 in
    let exportedAt := (clock (clock w).2).1 in
    let config :=
      JsonExportStrategy.getDefaultOptions
      ++ [("outputDir", VStr "./exports"); ("createTimestamp", VBool true)] in
    path_resolve (VStr "./exports")
      (VStr ("export" +:+ (if truthy (VStr stamp) then "-" +:+ stamp else EmptyString)
             +:+ "." +:+ "json")) = Ok p →
    truthy (VStr p) = true →
    JsonExportStrategy.validate data = Ok tt →
    JsonExportStrategy.generateContent
      (JsonExportStrategy.transform exportedAt data (obj_set "outputPath" (VStr p) config))
      (obj_set "outputPath" (VStr p) config) = Ok content →
    toJSON clock path_resolve (new_DataExporter clock fs_save []) data [] w
    = match fs_save (VStr p) content (VStr "utf8") (clock (clock w).2).2 with
      | (Some msg, w') => (Throw (FileSystemError ("Failed to save file: " +:+ msg)), w')
      | (None, w') => (Ok (VStr p), w')
      end.
Proof.
  intros world clock fs_save path_resolve data content w p stamp exportedAt config
    Hp Hpath Hvalid Hcontent.
  unfold toJSON, DataExporter_export, bind.
  change (spread2 (VObj (defaultOptions _)) (VObj []))
    with [("outputDir", VStr "./exports"); ("createTimestamp", VBool true)].
  cbn [opt obj_get String.eqb Ascii.eqb Bool.eqb default from_option id truthy negb andb].
  unfold generateOutputPath, bind, read_clock, ret, lift.
  cbn [opt obj_get String.eqb Ascii.eqb Bool.eqb default from_option id truthy negb andb].
  subst stamp exportedAt. destruct (clock w) as [t w1]. cbn [fst snd] in *.
  cbn [truthy] in Hp. rewrite Hp.
  change (create _ "json" ?c) with (construct (JsonExportStrategy_class clock fs_save) c).
  cbn [construct JsonExportStrategy_class new_strategy export].
  unfold ExportStrategy_export, bind, lift.
  cbn [m_validate m_transform m_generateContent json_methods]. rewrite Hvalid.
  change (spread2 (VObj (spread2 _ _)) _) with (obj_set "outputPath" (VStr p) config)
    in *.
  change (truthy (opt (obj_set "outputPath" (VStr p) config) "includeMetadata")) with true.
  cbn iota. unfold bind, read_clock, ret, lift. cbn beta iota.
  destruct (clock w1) as [t' w2]. cbn [fst snd] in *. cbn beta iota.
  rewrite Hcontent.
  change (opt (obj_set "outputPath" (VStr p) config) "outputPath") with (VStr p).
  rewrite Hpath. unfold saveToFile.
  change (opt (spread2 _ _) "encoding") with (VStr "utf8").
  cbn beta iota. by destruct (fs_save _ _ _ w2) as [[msg|] w3].
Qed.

Lemma X18_default_exporter_witness :
  (toJSON Sim.clock Sim.path_resolve (new_DataExporter Sim.clock Sim.fs_save [])
     (VArr [VObj [("a", VNum 1)]]) [] Sim.start).1
  = Ok (VStr "./exports/export-2024-01-02T03-04-05-678Z.json").
Proof.
  erewrite (X18_default_exporter_saves_json Sim.world Sim.clock Sim.fs_save Sim.path_resolve
              (VArr [VObj [("a", VNum 1)]]) _ Sim.start
              "./exports/export-2024-01-02T03-04-05-678Z.json"
              eq_refl eq_refl eq_refl eq_refl).
  reflexivity.
Defined.

(** ** Custom strategies on the facade *)

(** X19.  After [registerStrategy(format, C)] the exporter keeps its default
    options, and an export under any spelling of that format constructs [C]
    with the merged configuration and runs its [export]; a class registered
    under json or csv so replaces the built-in strategy.  Here the merged
    configuration names an output path, so none is generated. *)
Theorem X19_registered_strategy_is_used :
  ∀ (world : Type) (clock : world → string * world)
    (path_resolve : value → value → result string)
    (this : @exporter world) (format format' : string) (strategyClass : strategy_class world)
    (data : value) (options : fields_t) (w : world),
    to_lower format' = to_lower format →
    truthy (opt (spread2 (VObj (defaultOptions this)) (VObj options)) "outputPath") = true →
    ∃ this',
      registerStrategy this format strategyClass = Ok this'
      ∧ defaultOptions this' = defaultOptions this
      ∧ DataExporter_export clock path_resolve this' data format' options w
        = match construct strategyClass
                  (spread2 (VObj (defaultOptions this)) (VObj options)) with
          | Ok strategy =>
              export strategy data (spread2 (VObj (defaultOptions this)) (VObj options)) w
          | Throw e => (Throw e, w)
          end.
Proof.
  intros world clock path_resolve this format format' strategyClass data options w Hsame Hpath.
  exists (Exporter (<[to_lower format := strategyClass]> (factory this)) (defaultOptions this)).
  split; [|split; [done|]].
  - unfold registerStrategy, register.
    by destruct (js_not_primitive (Prototype strategyClass)) as [b ->].
  - unfold DataExporter_export, bind. simpl. rewrite Hpath. simpl.
    unfold lift, create. by rewrite Hsame, lookup_insert_eq.
Qed.

Lemma X19_registered_strategy_witness :
  ∃ this',
    registerStrategy (new_DataExporter Sim.clock Sim.fs_save []) "JSON"
      (CsvExportStrategy_class Sim.fs_save) = Ok this'
    ∧ (DataExporter_export Sim.clock Sim.path_resolve this' (VArr [VObj [("a", VNum 1)]])
         "json" [("outputPath", VStr "out.txt")] Sim.start).2
      = Sim.World "2024-01-02T03:04:05.678Z" (<["out.txt" := "a" +:+ newline +:+ "1"]> ∅).
Proof.
  destruct (X19_registered_strategy_is_used Sim.world Sim.clock Sim.path_resolve
              (new_DataExporter Sim.clock Sim.fs_save []) "JSON" "json"
              (CsvExportStrategy_class Sim.fs_save) (VArr [VObj [("a", VNum 1)]])
              [("outputPath", VStr "out.txt")] Sim.start eq_refl eq_refl)
    as (this' & Hreg & _ & Hexport).
  exists this'. split; [exact Hreg|]. rewrite Hexport. reflexivity.
Defined.
